(** * Hybrid retrieval-and-routing pipeline of the document chatbot

    A shallow embedding of
      - [server/services/documentProcessor.js]  (the chunker, [chunkText]),
      - [server/services/geminiAI.js]           (classifier, summarizer, text generation),
      - [server/services/HybridRagService.js]   (the query router),
    followed by the properties of the specification that concern them.

    JavaScript strings are sequences of UTF-16 code units; they are modelled
    as lists of code units.  Indices and lengths are integers ([Z]), since the
    chunking loop subtracts the overlap from an index.  Retrieval scores are
    IEEE-754 binary64 numbers, modelled by the primitive floats. *)

From Stdlib Require Import ZArith NArith List String Ascii Bool Lia.
From Stdlib Require Import DecimalString PrimFloat.
Import ListNotations.

Set Warnings "-inexact-float,-register-all".

Local Open Scope Z_scope.

(* ===================================================================== *)
(** ** JavaScript strings and the built-ins the services use              *)
(* ===================================================================== *)

Module JS.

Definition code_unit := N.
Definition jsstring := list code_unit.

(** An ASCII literal of the source, as a sequence of code units. *)
Fixpoint lit (s : string) : jsstring :=
  match s with
  | EmptyString => []
  | String a rest => N_of_ascii a :: lit rest
  end.

(** The double quote, the line feed and the space. *)
Definition dq : jsstring := [34%N].
Definition nl : jsstring := [10%N].
Definition space : code_unit := 32%N.

(** [s.length] *)
Definition length (s : jsstring) : Z := Z.of_nat (List.length s).

(** [a.length] of an array. *)
Definition array_length {A} (a : list A) : Z := Z.of_nat (List.length a).

(** Truthiness of a string: only the empty string is falsy. *)
Definition truthy (s : jsstring) : bool :=
  match s with [] => false | _ :: _ => true end.

(** [a === b] on strings. *)
Fixpoint eqb (a b : jsstring) : bool :=
  match a, b with
  | [], [] => true
  | x :: a', y :: b' => N.eqb x y && eqb a' b'
  | _, _ => false
  end.

(** [s.slice(a, b)]: negative arguments count from the end, both are
    clamped to the string, an empty span gives the empty string. *)
Definition slice (s : jsstring) (a b : Z) : jsstring :=
  let len := length s in
  let from := if a <? 0 then Z.max (len + a) 0 else Z.min a len in
  let to := if b <? 0 then Z.max (len + b) 0 else Z.min b len in
  firstn (Z.to_nat (to - from)) (skipn (Z.to_nat from) s).

(** [s.substring(a, b)]: both arguments are clamped to [0, length] and
    swapped when out of order. *)
Definition substring (s : jsstring) (a b : Z) : jsstring :=
  let len := length s in
  let fs := Z.min (Z.max a 0) len in
  let fe := Z.min (Z.max b 0) len in
  let from := Z.min fs fe in
  let to := Z.max fs fe in
  firstn (Z.to_nat (to - from)) (skipn (Z.to_nat from) s).

(** [s.lastIndexOf(c)] for a one-unit search string [c]: the greatest
    index holding [c], or -1. *)
Fixpoint lastIndexOf_from (c : code_unit) (s : jsstring) (i acc : Z) : Z :=
  match s with
  | [] => acc
  | x :: rest => lastIndexOf_from c rest (i + 1) (if N.eqb x c then i else acc)
  end.

Definition lastIndexOf (s : jsstring) (c : code_unit) : Z :=
  lastIndexOf_from c s 0 (-1).

(** [s.indexOf(c)] for a one-unit search string: the least index holding
    [c], or -1. *)
Fixpoint indexOf_from (c : code_unit) (s : jsstring) (i : Z) : Z :=
  match s with
  | [] => -1
  | x :: rest => if N.eqb x c then i else indexOf_from c rest (i + 1)
  end.

Definition indexOf (s : jsstring) (c : code_unit) : Z := indexOf_from c s 0.

(** White space and line terminators of ECMAScript, as removed by
    [trim]: TAB, LF, VT, FF, CR, SP, NBSP, the Zs category, LS, PS and
    the byte order mark. *)
Definition is_whitespace (c : code_unit) : bool :=
  ((9 <=? c) && (c <=? 13) || (c =? 32) || (c =? 160) || (c =? 5760)
   || (8192 <=? c) && (c <=? 8202) || (c =? 8232) || (c =? 8233)
   || (c =? 8239) || (c =? 8287) || (c =? 12288) || (c =? 65279))%N.

Fixpoint trimStart (s : jsstring) : jsstring :=
  match s with
  | [] => []
  | c :: rest => if is_whitespace c then trimStart rest else s
  end.

Definition trimEnd (s : jsstring) : jsstring := rev (trimStart (rev s)).

(** [s.trim()] *)
Definition trim (s : jsstring) : jsstring := trimEnd (trimStart s).

(** [parts.join(sep)] *)
Fixpoint join (sep : jsstring) (parts : list jsstring) : jsstring :=
  match parts with
  | [] => []
  | [p] => p
  | p :: rest => p ++ sep ++ join sep rest
  end.

(** The global replace of the corrector, whose pattern is the character
    class of the double quote and the asterisk: both are removed. *)
Definition strip_quotes_and_stars (s : jsstring) : jsstring :=
  filter (fun c => negb (N.eqb c 34 || N.eqb c 42)) s.

(** A non-negative integer in a template literal: its decimal digits. *)
Definition of_nat (n : nat) : jsstring :=
  lit (NilZero.string_of_uint (Nat.to_uint n)).

End JS.

Import JS.

(* ===================================================================== *)
(** ** documentProcessor.js: the chunker                                  *)
(* ===================================================================== *)

Module DocumentProcessor.

(** The two instance fields read by [chunkText]. *)
Record t := mk { chunkSize : Z; chunkOverlap : Z }.

(** The constructor sets the window size to 512 and the overlap to 100. *)
Definition new : t := {| chunkSize := 512; chunkOverlap := 100 |}.

Record Chunk := mkChunk {
  pageContent : jsstring;
  source : jsstring;      (* metadata.source *)
  chunkId : jsstring      (* metadata.chunkId *)
}.

(** Lines 63-64: the end of the window and the raw slice. *)
Definition endIndex (dp : t) (text : jsstring) (startIndex : Z) : Z :=
  Z.min (startIndex + chunkSize dp) (JS.length text).

Definition raw_window (dp : t) (text : jsstring) (startIndex : Z) : jsstring :=
  slice text startIndex (endIndex dp text startIndex).

(** Lines 63-71: the slice after the word-boundary cut. A window that ends
    before the end of the text is cut at its last space, when that space is
    at a positive index. *)
Definition window (dp : t) (text : jsstring) (startIndex : Z) : jsstring :=
  let chunkTextSlice := raw_window dp text startIndex in
  if endIndex dp text startIndex <? JS.length text then
    let lastSpace := lastIndexOf chunkTextSlice space in
    if lastSpace >? 0 then substring chunkTextSlice 0 lastSpace
    else chunkTextSlice
  else chunkTextSlice.

(** Line 74: the header naming the source document, then the trimmed slice. *)
Definition chunkWithContext (filename chunkTextSlice : jsstring) : jsstring :=
  lit "Source Document: " ++ dq ++ filename ++ dq ++ nl ++ nl
    ++ lit "Content: " ++ trim chunkTextSlice.

(** Lines 76-82. *)
Definition make_chunk (filename chunkTextSlice : jsstring) (chunkIndex : nat) : Chunk :=
  {| pageContent := chunkWithContext filename chunkTextSlice;
     source := filename;
     chunkId := filename ++ lit "_chunk_" ++ JS.of_nat chunkIndex |}.

(** Lines 84-88: where the next window starts. *)
Definition next_start (dp : t) (startIndex : Z) (chunkTextSlice : jsstring) : Z :=
  let actualEndIndex := startIndex + JS.length chunkTextSlice in
  let startIndex' := actualEndIndex - chunkOverlap dp in
  if startIndex' <=? actualEndIndex - JS.length chunkTextSlice
  then actualEndIndex
  else startIndex'.

(** Lines 62-90: the [while] loop. The loop of the source need not
    terminate (a window size of 0 never advances), so the model takes a
    bound on the number of iterations and answers [None] when the bound
    is reached with the loop condition still true. *)
Fixpoint chunk_loop (fuel : nat) (dp : t) (text filename : jsstring)
    (startIndex : Z) (chunkIndex : nat) (chunks : list Chunk)
    : option (list Chunk) :=
  if startIndex <? JS.length text then
    match fuel with
    | O => None
    | S fuel' =>
        let chunkTextSlice := window dp text startIndex in
        chunk_loop fuel' dp text filename
          (next_start dp startIndex chunkTextSlice)
          (S chunkIndex)
          (chunks ++ [make_chunk filename chunkTextSlice chunkIndex])
    end
  else Some chunks.

(** Lines 53-92 with an explicit iteration bound. *)
Definition chunkText_fuel (fuel : nat) (dp : t) (text filename : jsstring)
    : option (list Chunk) :=
  if negb (truthy (trim text)) then Some []
  else
    option_map
      (filter (fun chunk => JS.length (pageContent chunk) >? 0))
      (chunk_loop fuel dp text filename 0 0%nat []).

(** [chunkText]: one iteration per code unit of the text is always enough
    when the window size is positive (proved below); [None] stands for a
    loop that is still running after that many iterations. *)
Definition chunkText (dp : t) (text filename : jsstring) : option (list Chunk) :=
  chunkText_fuel (List.length text) dp text filename.

End DocumentProcessor.

(* ===================================================================== *)
(** ** Values exchanged with the collaborators                            *)
(* ===================================================================== *)

(** An [Error], by its message. *)
Definition exn := jsstring.

Inductive result (A : Type) : Type :=
| Ok (a : A)
| Throw (e : exn).
Arguments Ok {A} a.
Arguments Throw {A} e.

(** A JSON value, as [JSON.parse] builds it. *)
Inductive json : Type :=
| JNull
| JBool (b : bool)
| JNumber (x : float)
| JString (s : jsstring)
| JArray (items : list json)
| JObject (fields : list (jsstring * json)).

(** A plain object: its own properties, each key once. *)
Definition object := list (jsstring * json).

(** [o.key]: the value of the property, [None] standing for [undefined]. *)
Fixpoint get_prop (o : object) (key : jsstring) : option json :=
  match o with
  | [] => None
  | (k, v) :: rest => if JS.eqb k key then Some v else get_prop rest key
  end.

(** [v === lit] for a string literal. *)
Definition strict_eq_string (v : option json) (s : jsstring) : bool :=
  match v with
  | Some (JString x) => JS.eqb x s
  | _ => false
  end.

(** Whether the conversion of a value built by [JSON.parse] to a string
    throws a TypeError. An object is converted by its [toString] method,
    then by [valueOf]: an own property [toString] hides the inherited
    method and, coming from JSON, is not callable, and [valueOf] (own and
    not callable, or inherited and answering the object itself) gives no
    primitive either. An array joins the conversions of its elements,
    [null] counting as the empty string. Every other value has a string. *)
Fixpoint toString_throws (v : json) : bool :=
  match v with
  | JArray items => existsb toString_throws items
  | JObject fields => existsb (fun field => JS.eqb (fst field) (lit "toString")) fields
  | _ => false
  end.

(** The same for a value interpolated in a template literal, where
    [undefined] is printed as such. *)
Definition interpolation_throws (v : option json) : bool :=
  match v with
  | Some x => toString_throws x
  | None => false
  end.

(** The message of the TypeError of a failed conversion. *)
Definition cannot_convert : exn := lit "Cannot convert object to primitive value".

(** The response of the generative model, as far as [_processApiResponse]
    reads it. Absent fields are [None]. *)
Record SafetyRating := mkRating { blocked : bool; category : jsstring }.

Record Candidate := mkCandidate {
  finishReason : option jsstring;
  text : option jsstring;          (* content?.parts?.[0]?.text, when a string *)
  safetyRatings : option (list SafetyRating)
}.

Record ApiResponse := mkResponse { candidates : list Candidate }.

(** Documents of the two Mongoose models. *)
Record File := mkFile { path : jsstring; originalname : jsstring }.
Record User := mkUser { personalizationProfile : jsstring }.

(** What the vector store returns. *)
Record RetrievedChunk := mkRetrieved {
  content : jsstring;
  score : float;
  fileName : option jsstring       (* metadata.fileName *)
}.

(** The [filters] object of the similarity search. *)
Record Filters := mkFilters {
  filter_userId : jsstring;
  filter_fileId : option jsstring  (* set only for a scoped search *)
}.

(** The router's answer. *)
Inductive SearchType : Type :=
| rag
| rag_fallback
| summary
| summary_requires_file
| summary_insufficient_content
| summary_error.

Record Source := mkSource { title : jsstring; type : jsstring }.

Record RouterResult := mkResult {
  message : jsstring;
  searchType : SearchType;         (* metadata.searchType *)
  sources : list Source;           (* metadata.sources *)
  source_count : option Z          (* metadata.source_count, rag only *)
}.

(** Why the confidence gate refused (the [reason] of the log line). *)
Inductive InsufficientReason : Type :=
| NoRelevantChunks
| TopScoreBelowThreshold (top : float).

(** The console lines of the three services, by call site, with the values
    they interpolate. *)
Inductive LogEntry : Type :=
| LogQueryTypeError (e : exn)
| LogSummarizeError (e : exn)
| LogGenerateTextError (e : exn)
| LogClassified (type reason : option json)
| LogHandlingBroad
| LogBroadError (e : exn)
| LogHandlingSpecific
| LogScoping (fileId : jsstring)
| LogSearchingAll (userId : jsstring)
| LogFound (n : Z)
| LogTopChunks
| LogChunk (i : Z) (score : float) (content80 : jsstring)
| LogSufficient (top : option float)
| LogInsufficient (reason : InsufficientReason)
| LogCorrection (original corrected : jsstring)
| LogCorrectionError (e : exn).

(** One interaction with the outside: a call of a collaborator with what it
    answered, or a console line. *)
Inductive event : Type :=
| GenerateContent (prompt : jsstring) (res : result ApiResponse)
| FileFindOne (fileId userId : jsstring) (res : result (option File))
| ParseFile (path : jsstring) (res : result jsstring)
| SearchDocuments (query : jsstring) (limit : Z) (filters : Filters)
    (res : result (list RetrievedChunk))
| UserFindById (userId : jsstring) (res : result (option User))
| Console (entry : LogEntry).

Definition trace := list event.

(** The collaborators, as [serviceManager.getServices()] and the two
    Mongoose models give them. Each answer may depend on everything that
    happened before the call, so that a collaborator may answer two equal
    calls differently. *)
Record World := mkWorld {
  model_set : bool;                (* [this.model] of GeminiAI is not null *)
  model_generateContent : trace -> jsstring -> result ApiResponse;
  (** [JSON.parse] on a text whose first code unit is an opening brace:
      a syntax error is thrown or an object is returned. *)
  JSON_parse : jsstring -> result object;
  (** [handleGeminiError] of utils/errorUtils: the error to rethrow. *)
  handleGeminiError : exn -> exn;
  File_findOne : trace -> jsstring -> jsstring -> result (option File);
  documentProcessor_parseFile : trace -> jsstring -> result jsstring;
  vectorStore_searchDocuments :
    trace -> jsstring -> Z -> Filters -> result (list RetrievedChunk);
  User_findById : trace -> jsstring -> result (option User)
}.

(* ===================================================================== *)
(** ** Computations: exceptions and the trace of interactions             *)
(* ===================================================================== *)

(** A computation reads the history of the run so far and gives its outcome
    with the events it added. *)
Definition M (A : Type) : Type := trace -> result A * trace.

Definition ret {A} (a : A) : M A := fun _ => (Ok a, []).

Definition throw {A} (e : exn) : M A := fun _ => (Throw e, []).

Definition bind {A B} (m : M A) (f : A -> M B) : M B :=
  fun h =>
    match m h with
    | (Ok a, es) => let (r, es') := f a (h ++ es) in (r, es ++ es')
    | (Throw e, es) => (Throw e, es)
    end.

(** [try { m } catch (error) { handler error }] *)
Definition try_catch {A} (m : M A) (handler : exn -> M A) : M A :=
  fun h =>
    match m h with
    | (Ok a, es) => (Ok a, es)
    | (Throw e, es) => let (r, es') := handler e (h ++ es) in (r, es ++ es')
    end.

(** A call of a collaborator: ask it, record the interaction. *)
Definition call {A} (answer : trace -> result A) (record : result A -> event) : M A :=
  fun h => let r := answer h in (r, [record r]).

Definition console (entry : LogEntry) : M unit :=
  fun _ => (Ok tt, [Console entry]).

Declare Scope js_scope.
Delimit Scope js_scope with js.
Notation "x <- m ;; k" := (bind m (fun x => k))
  (at level 61, m at next level, right associativity) : js_scope.
Notation "m ;; k" := (bind m (fun _ => k))
  (at level 61, right associativity) : js_scope.
Local Open Scope js_scope.

(** [items.forEach((x, i) => body x i)] *)
Fixpoint forEach_from {A} (body : A -> Z -> M unit) (items : list A) (i : Z) : M unit :=
  match items with
  | [] => ret tt
  | x :: rest => body x i ;; forEach_from body rest (i + 1)
  end.

Definition forEach {A} (body : A -> Z -> M unit) (items : list A) : M unit :=
  forEach_from body items 0.

(* ===================================================================== *)
(** ** geminiAI.js                                                        *)
(* ===================================================================== *)

Module GeminiAI.

Section WithWorld.
Variable w : World.

(** [isEnabled()] *)
Definition isEnabled : bool := model_set w.

(** [this.model.generateContent(prompt)] followed by [result.response]. *)
Definition generateContent (prompt : jsstring) : M ApiResponse :=
  call (fun h => model_generateContent w h prompt) (GenerateContent prompt).

Definition is_STOP_or_MAX_TOKENS (reason : option jsstring) : bool :=
  match reason with
  | Some r => JS.eqb r (lit "STOP") || JS.eqb r (lit "MAX_TOKENS")
  | None => false
  end.

(** [candidate?.safetyRatings?.filter(r => r.blocked).map(r => r.category).join(', ')] *)
Definition blockedCategories (candidate : option Candidate) : option jsstring :=
  match candidate with
  | Some c =>
      match safetyRatings c with
      | Some ratings => Some (join (lit ", ") (map category (filter blocked ratings)))
      | None => None
      end
  | None => None
  end.

(** Lines 61-72. *)
Definition _processApiResponse (response : ApiResponse) : result jsstring :=
  let candidate := hd_error (candidates response) in
  let failure :=
    let reason :=
      match candidate with
      | Some c =>
          match finishReason c with
          | Some r => if truthy r then r else lit "Unknown"
          | None => lit "Unknown"
          end
      | None => lit "Unknown"
      end in
    let blockMessage := lit "AI response generation failed. Reason: " ++ reason ++ lit "." in
    match blockedCategories candidate with
    | Some cats =>
        if truthy cats
        then Throw (blockMessage ++ lit " Blocked Categories: " ++ cats ++ lit ".")
        else Throw blockMessage
    | None => Throw blockMessage
    end in
  match candidate with
  | Some c =>
      if is_STOP_or_MAX_TOKENS (finishReason c) then
        match text c with
        | Some responseText => Ok responseText
        | None => failure
        end
      else failure
  | None => failure
  end.

Definition lift {A} (r : result A) : M A := fun _ => (r, []).

(** The prompt of [determineQueryType], lines 129-137. *)
Definition classification_prompt (query : jsstring) : jsstring :=
  nl ++ lit "Analyze the user's query and classify its intent. Choose one of two types:" ++ nl
  ++ lit "1.  " ++ dq ++ lit "specific" ++ dq
  ++ lit ": The user is asking a direct question about a fact, concept, or detail that can likely be found in a specific part of a document. Examples: "
  ++ dq ++ lit "What is the database schema?" ++ dq ++ lit ", "
  ++ dq ++ lit "How does the authentication work?" ++ dq ++ lit ", "
  ++ dq ++ lit "List the main components." ++ dq ++ nl
  ++ lit "2.  " ++ dq ++ lit "broad" ++ dq
  ++ lit ": The user is asking for a general summary, explanation, or overview of the entire document. Examples: "
  ++ dq ++ lit "explain this document" ++ dq ++ lit ", "
  ++ dq ++ lit "summarize this" ++ dq ++ lit ", "
  ++ dq ++ lit "what is this about?" ++ dq ++ lit ", "
  ++ dq ++ lit "give me the key points" ++ dq ++ lit "." ++ nl
  ++ nl
  ++ lit "User Query: " ++ dq ++ query ++ dq ++ nl
  ++ nl
  ++ lit "Respond with ONLY a valid JSON object in the format: {"
  ++ dq ++ lit "type" ++ dq ++ lit ": " ++ dq ++ lit "specific" ++ dq ++ lit " | "
  ++ dq ++ lit "broad" ++ dq ++ lit ", " ++ dq ++ lit "reason" ++ dq ++ lit ": "
  ++ dq ++ lit "A brief explanation for your choice." ++ dq ++ lit "}." ++ nl.

(** The match of the classifier's pattern, an opening brace, anything, a
    closing brace (greedy): from the first opening brace to the last
    closing brace, when the latter comes after the former. *)
Definition match_braces (s : jsstring) : option jsstring :=
  let i := indexOf s 123%N in
  let j := lastIndexOf s 125%N in
  if (0 <=? i) && (i <? j) then Some (slice s i (j + 1)) else None.

(** The analysis returned when the classifier cannot decide. *)
Definition specific_because (reason : string) : object :=
  [ (lit "type", JString (lit "specific")); (lit "reason", JString (lit reason)) ].

(** Lines 126-149. *)
Definition determineQueryType (query : jsstring) : M object :=
  if negb isEnabled then ret (specific_because "AI disabled")
  else
    try_catch
      (let prompt := classification_prompt query in
       response <- generateContent prompt ;;
       text <- lift (_processApiResponse response) ;;
       match match_braces text with
       | Some jsonMatch => lift (JSON_parse w jsonMatch)
       | None => ret (specific_because "Could not parse AI response for query type.")
       end)
      (fun error =>
         console (LogQueryTypeError error) ;;
         ret (specific_because "Error during analysis.")).

(** The prompt of [summarizeDocumentContent], lines 155-166. *)
Definition summarization_prompt (content query : jsstring) : jsstring :=
  nl ++ lit "You are an expert summarizer. Based on the full document content provided below, generate a comprehensive answer to the user's original query." ++ nl
  ++ nl
  ++ lit "Original Query: " ++ dq ++ query ++ dq ++ nl
  ++ nl
  ++ lit "Document Content:" ++ nl
  ++ lit "---" ++ nl
  ++ substring content 0 10000 ++ nl
  ++ lit "---" ++ nl
  ++ nl
  ++ lit "Provide a detailed and well-structured summary that directly addresses the user's request. Use markdown for formatting." ++ nl.

(** Lines 152-173. *)
Definition summarizeDocumentContent (content query : jsstring) : M jsstring :=
  if negb isEnabled then ret (lit "AI service is unavailable.")
  else
    try_catch
      (let prompt := summarization_prompt content query in
       response <- generateContent prompt ;;
       lift (_processApiResponse response))
      (fun error =>
         console (LogSummarizeError error) ;;
         throw (handleGeminiError w error)).

(** Lines 175-182. *)
Definition buildRagPrompt (query context personalizationProfile : jsstring) : jsstring :=
  let finalPrompt :=
    lit "You are an expert assistant. Answer the user's question based ONLY on the following context. If the answer is not in the context, state that the information is not available in the provided text. Do not use outside knowledge." in
  let finalPrompt :=
    if truthy personalizationProfile
    then finalPrompt ++ nl ++ nl ++ lit "Tailor your response to this user's profile: "
           ++ personalizationProfile
    else finalPrompt in
  finalPrompt ++ nl ++ nl ++ lit "Context: --- " ++ context ++ lit " --- " ++ nl ++ nl
    ++ lit "Question: " ++ dq ++ query ++ dq ++ lit " " ++ nl ++ nl ++ lit "Answer:".

(** Lines 184-196. *)
Definition generateText (prompt : jsstring) : M jsstring :=
  if negb isEnabled then throw (lit "AI service is not available.")
  else
    try_catch
      (response <- generateContent prompt ;;
       lift (_processApiResponse response))
      (fun error =>
         console (LogGenerateTextError error) ;;
         throw (lit "Failed to generate text response")).

End WithWorld.

End GeminiAI.

(* ===================================================================== *)
(** ** HybridRagService.js: the query router                              *)
(* ===================================================================== *)

Module HybridRagService.

Definition RAG_CONFIDENCE_THRESHOLD : float := 0.65%float.

(** [a > b] on numbers: false when either is NaN. *)
Definition gt (a b : float) : bool := PrimFloat.ltb b a.

(** Truthiness of the optional [fileId]: [null] and the empty string are
    falsy. *)
Definition fileId_truthy (fileId : option jsstring) : bool :=
  match fileId with
  | Some f => truthy f
  | None => false
  end.

(** The string behind a [fileId] that was tested truthy. *)
Definition the_fileId (fileId : option jsstring) : jsstring :=
  match fileId with
  | Some f => f
  | None => []
  end.

Definition document_source (name : jsstring) : Source :=
  {| title := name; type := lit "document" |}.

(** Lines 148-157: one source per file name, in first-seen order. *)
Fixpoint formatSources_from (seen : list jsstring) (chunks : list RetrievedChunk)
    : list Source :=
  match chunks with
  | [] => []
  | chunk :: rest =>
      let name :=
        match fileName chunk with
        | Some n => if truthy n then n else lit "Unknown Document"
        | None => lit "Unknown Document"
        end in
      if existsb (JS.eqb name) seen
      then formatSources_from seen rest
      else document_source name :: formatSources_from (name :: seen) rest
  end.

Definition formatSources (chunks : list RetrievedChunk) : list Source :=
  formatSources_from [] chunks.

(** Line 100: the confidence gate. *)
Definition isContextSufficient (relevantChunks : list RetrievedChunk) : bool :=
  (array_length relevantChunks >? 0)
  && match relevantChunks with
     | top :: _ => gt (score top) RAG_CONFIDENCE_THRESHOLD
     | [] => false
     end.

Definition file_scoped_fallback : jsstring :=
  lit "I couldn't find a confident answer for that in the selected document. Please try rephrasing your question with more specific keywords.".

Definition library_wide_fallback : jsstring :=
  lit "I couldn't find a confident answer for that in your uploaded documents. Please try rephrasing your question or uploading more relevant files.".

Section WithWorld.
Variable w : World.

(** The prompt of the corrector, line 137. *)
Definition correction_prompt (query : jsstring) : jsstring :=
  lit "Correct any spelling mistakes in the following user query. Return ONLY the corrected query, nothing else. Do not answer the question. Original Query: "
  ++ dq ++ query ++ dq ++ lit " Corrected Query:".

(** Lines 134-146. *)
Definition correctAndClarifyQuery (query : jsstring) : M jsstring :=
  try_catch
    (let prompt := correction_prompt query in
     correctedQuery <- GeminiAI.generateText w prompt ;;
     let finalQuery := strip_quotes_and_stars (trim correctedQuery) in
     console (LogCorrection query finalQuery) ;;
     ret finalQuery)
    (fun error =>
       console (LogCorrectionError error) ;;
       ret query).

(** Lines 27-70. *)
Definition _handleBroadQuery (query userId : jsstring) (fileId : option jsstring)
    : M RouterResult :=
  console LogHandlingBroad ;;
  if negb (fileId_truthy fileId) then
    ret {| message := lit "To get a summary, please first select a specific file to chat with from the 'My Files' menu.";
           searchType := summary_requires_file;
           sources := [];
           source_count := None |}
  else
    try_catch
      (found <- call (fun h => File_findOne w h (the_fileId fileId) userId)
                     (FileFindOne (the_fileId fileId) userId) ;;
       match found with
       | None => throw (lit "File not found for summarization.")
       | Some file =>
           fileContent <-
             call (fun h => documentProcessor_parseFile w h (path file))
                  (ParseFile (path file)) ;;
           if negb (truthy fileContent) || (JS.length (trim fileContent) <? 100) then
             ret {| message := lit "The selected document doesn't have enough content to generate a summary.";
                    searchType := summary_insufficient_content;
                    sources := [document_source (originalname file)];
                    source_count := None |}
           else
             summary_text <- GeminiAI.summarizeDocumentContent w fileContent query ;;
             ret {| message := summary_text;
                    searchType := summary;
                    sources := [document_source (originalname file)];
                    source_count := None |}
       end)
      (fun error =>
         console (LogBroadError error) ;;
         ret {| message := lit "I encountered an error while trying to summarize the document. Please try again.";
                searchType := summary_error;
                sources := [];
                source_count := None |}).

(** Lines 100-131: the confidence gate and the two answers. *)
Definition answer_or_fallback (correctedQuery userId : jsstring)
    (fileId : option jsstring) (relevantChunks : list RetrievedChunk)
    : M RouterResult :=
  if isContextSufficient relevantChunks then
    console (LogSufficient (option_map score (hd_error relevantChunks))) ;;
    let context := join (nl ++ nl) (map content relevantChunks) in
    user <- call (fun h => User_findById w h userId) (UserFindById userId) ;;
    let profile :=
      match user with
      | Some u => personalizationProfile u
      | None => []
      end in
    let prompt := GeminiAI.buildRagPrompt correctedQuery context profile in
    answer <- GeminiAI.generateText w prompt ;;
    ret {| message := answer;
           searchType := rag;
           sources := formatSources relevantChunks;
           source_count := Some (array_length relevantChunks) |}
  else
    let reason :=
      match relevantChunks with
      | [] => NoRelevantChunks
      | top :: _ => TopScoreBelowThreshold (score top)
      end in
    console (LogInsufficient reason) ;;
    let fallbackMessage :=
      if fileId_truthy fileId then file_scoped_fallback else library_wide_fallback in
    ret {| message := fallbackMessage;
           searchType := rag_fallback;
           sources := [];
           source_count := None |}.

(** Lines 73-132. *)
Definition _handleSpecificQuery (query userId : jsstring) (fileId : option jsstring)
    : M RouterResult :=
  console LogHandlingSpecific ;;
  correctedQuery <- correctAndClarifyQuery query ;;
  let filters :=
    {| filter_userId := userId;
       filter_fileId := if fileId_truthy fileId then fileId else None |} in
  console (if fileId_truthy fileId
           then LogScoping (the_fileId fileId)
           else LogSearchingAll userId) ;;
  relevantChunks <-
    call (fun h => vectorStore_searchDocuments w h correctedQuery 5 filters)
         (SearchDocuments correctedQuery 5 filters) ;;
  console (LogFound (array_length relevantChunks)) ;;
  (if array_length relevantChunks >? 0 then
     console LogTopChunks ;;
     forEach (fun chunk i =>
                console (LogChunk (i + 1) (score chunk) (substring (content chunk) 0 80)))
             relevantChunks
   else ret tt) ;;
  answer_or_fallback correctedQuery userId fileId relevantChunks.

(** Line 16: the template literal converts the type and the reason of the
    analysis to strings, whatever [JSON.parse] made of them, and the line
    is written when both conversions succeed. *)
Definition log_classification (queryAnalysis : object) : M unit :=
  if interpolation_throws (get_prop queryAnalysis (lit "type"))
     || interpolation_throws (get_prop queryAnalysis (lit "reason"))
  then throw cannot_convert
  else console (LogClassified (get_prop queryAnalysis (lit "type"))
                              (get_prop queryAnalysis (lit "reason"))).

(** Lines 11-24. *)
Definition processQuery (query userId : jsstring) (fileId : option jsstring)
    : M RouterResult :=
  queryAnalysis <- GeminiAI.determineQueryType w query ;;
  log_classification queryAnalysis ;;
  if strict_eq_string (get_prop queryAnalysis (lit "type")) (lit "broad")
  then _handleBroadQuery query userId fileId
  else _handleSpecificQuery query userId fileId.

End WithWorld.

End HybridRagService.

(* ===================================================================== *)
(** ** geminiAI.js: the context block and the system prompt               *)
(* ===================================================================== *)

Module SystemPrompt.

(** What [buildContext] returns when there is nothing to show. *)
Definition no_context : jsstring := lit "No relevant document context available.".

(** Lines 198-205. *)
Definition buildContext (documentChunks : list RetrievedChunk) : jsstring :=
  match documentChunks with
  | [] => no_context
  | _ :: _ =>
      join (nl ++ nl)
        (map (fun chunk =>
                lit "Document: "
                ++ match fileName chunk with
                   | Some n => if truthy n then n else lit "Unknown"
                   | None => lit "Unknown"
                   end
                ++ nl ++ content chunk)
             documentChunks)
  end.

(** The [memoryChanges] argument, as far as [buildSystemPrompt] reads it:
    the two arrays it tests and the two properties it prints. *)
Record MemoryChanges := mkChanges {
  added : option (list json);
  updated : option (list json);
  add : option json;
  update : option json
}.

(** Truthiness of a JSON value, [None] standing for [undefined]. *)
Definition json_truthy (v : option json) : bool :=
  match v with
  | None => false
  | Some JNull => false
  | Some (JBool b) => b
  | Some (JNumber x) => negb (PrimFloat.eqb x 0%float) && PrimFloat.eqb x x
  | Some (JString s) => truthy s
  | Some (JArray _) => true
  | Some (JObject _) => true
  end.

(** [v || []] *)
Definition or_empty_array (v : option json) : json :=
  match v with
  | Some x => if json_truthy v then x else JArray []
  | None => JArray []
  end.

(** [a?.length > 0] *)
Definition has_items (a : option (list json)) : bool :=
  match a with
  | Some items => array_length items >? 0
  | None => false
  end.

Definition default_persona : jsstring :=
  lit "You are a helpful AI assistant providing accurate and concise answers.".

Definition memory_section (userMemories : list jsstring) : jsstring :=
  nl ++ nl ++ lit "## FACTS ABOUT THE USER (Your Long-Term Memory):" ++ nl
  ++ lit "These are established facts about the user you are talking to. Use them to personalize your responses. Refer to the user as "
  ++ dq ++ lit "you" ++ dq ++ lit "." ++ nl
  ++ join nl (map (fun mem_content => lit "- " ++ mem_content) userMemories).

Definition profile_section (personalizationProfile : jsstring) : jsstring :=
  nl ++ nl ++ lit "## User Personalization Profile (AI-generated insight):" ++ nl
  ++ personalizationProfile.

Definition summary_section (conversationSummary : jsstring) : jsstring :=
  nl ++ nl ++ lit "## Summary of Current Conversation:" ++ nl ++ conversationSummary.

Definition context_section (context : jsstring) : jsstring :=
  nl ++ nl ++ lit "## Relevant Context from Documents:" ++ nl ++ context.

(** The notice prints [memoryChanges.add] and [memoryChanges.update];
    [stringify] is [JSON.stringify]. *)
Definition notice_section (stringify : json -> jsstring) (changes : MemoryChanges)
    : jsstring :=
  nl ++ nl ++ lit "## MEMORY UPDATE NOTIFICATION:" ++ nl
  ++ lit "You have just updated your memory based on the latest conversation. Briefly and naturally mention one of these updates in your response. For example: "
  ++ dq ++ lit "Got it, I'll remember that." ++ dq ++ lit " or "
  ++ dq ++ lit "Okay, I've updated my notes on your project." ++ dq ++ nl
  ++ lit "- Added: " ++ stringify (or_empty_array (add changes)) ++ nl
  ++ lit "- Updated: " ++ stringify (or_empty_array (update changes)).

(** Lines 74-99. [userMemories] holds the [content] of each memory;
    [memoryChanges] is [None] for [null]. *)
Definition buildSystemPrompt (stringify : json -> jsstring)
    (systemPrompt context personalizationProfile conversationSummary : jsstring)
    (userMemories : list jsstring) (memoryChanges : option MemoryChanges) : jsstring :=
  let finalSystemPrompt := if truthy systemPrompt then systemPrompt else default_persona in
  let finalSystemPrompt :=
    if array_length userMemories >? 0
    then finalSystemPrompt ++ memory_section userMemories
    else finalSystemPrompt in
  let finalSystemPrompt :=
    if truthy personalizationProfile
    then finalSystemPrompt ++ profile_section personalizationProfile
    else finalSystemPrompt in
  let finalSystemPrompt :=
    if truthy conversationSummary
    then finalSystemPrompt ++ summary_section conversationSummary
    else finalSystemPrompt in
  let finalSystemPrompt :=
    if truthy context && negb (JS.eqb context no_context)
    then finalSystemPrompt ++ context_section context
    else finalSystemPrompt in
  match memoryChanges with
  | Some changes =>
      if has_items (added changes) || has_items (updated changes)
      then finalSystemPrompt ++ notice_section stringify changes
      else finalSystemPrompt
  | None => finalSystemPrompt
  end.

End SystemPrompt.

(* ===================================================================== *)
(** ** documentProcessor.js: ingestion of one file                        *)
(* ===================================================================== *)

Module Ingestion.

(** The [options] of [processFile]. *)
Record Options := mkOptions {
  originalName : jsstring;
  opt_userId : jsstring;
  opt_fileId : jsstring
}.

(** A document handed to the vector store: the chunk's content and
    metadata, with the owner, the file and the file name added. *)
Record StoredDocument := mkStored {
  doc_pageContent : jsstring;
  doc_source : jsstring;
  doc_chunkId : jsstring;
  doc_userId : jsstring;
  doc_fileId : jsstring;
  doc_fileName : jsstring
}.

Record ProcessResult := mkProcessed {
  success : bool;
  chunksAdded : Z;
  note : option jsstring            (* the [message] property, when present *)
}.

(** What [parseFile] reads a file with. Each reader answers with the text
    it extracted, [None] when the library gave none, or throws an Error. *)
Record Readers := mkReaders {
  (** [path.extname(filePath).toLowerCase()] *)
  lower_extname : jsstring -> jsstring;
  (** [fs.readFileSync(filePath, 'utf-8')] *)
  readFileSync_utf8 : jsstring -> result jsstring;
  (** [fs.readFileSync(filePath)], then [pdf] on the buffer with at most
      20 pages, then the [text] of the data. *)
  pdf_text : jsstring -> result (option jsstring);
  (** [mammoth.extractRawText] on the path, then the [value] of the result. *)
  mammoth_value : jsstring -> result (option jsstring)
}.

(** [text || ''] *)
Definition text_or_empty (text : option jsstring) : jsstring :=
  match text with
  | Some t => if truthy t then t else []
  | None => []
  end.

(** Lines 20-50. The extension is taken before the [try]; whatever a
    reader throws is caught, and the empty string returned. *)
Definition parseFile (io : Readers) (filePath : jsstring) : jsstring :=
  let ext := lower_extname io filePath in
  if JS.eqb ext (lit ".txt") then
    match readFileSync_utf8 io filePath with
    | Ok text => text_or_empty (Some text)
    | Throw _ => []
    end
  else if JS.eqb ext (lit ".pdf") then
    match pdf_text io filePath with
    | Ok text => text_or_empty text
    | Throw _ => []
    end
  else if JS.eqb ext (lit ".docx") then
    match mammoth_value io filePath with
    | Ok text => text_or_empty text
    | Throw _ => []
    end
  else [].

(** The extraction gave nothing to index: the extension is not one of the
    three that are read, or the reader of the extension threw. *)
Definition extraction_failed (io : Readers) (filePath : jsstring) : Prop :=
  let ext := lower_extname io filePath in
  (ext = lit ".txt" /\ exists e, readFileSync_utf8 io filePath = Throw e)
  \/ (ext = lit ".pdf" /\ exists e, pdf_text io filePath = Throw e)
  \/ (ext = lit ".docx" /\ exists e, mammoth_value io filePath = Throw e)
  \/ (ext <> lit ".txt" /\ ext <> lit ".pdf" /\ ext <> lit ".docx").

(** Lines 111-119. *)
Definition documentsToStore (options : Options) (chunks : list DocumentProcessor.Chunk)
    : list StoredDocument :=
  map (fun chunk =>
         {| doc_pageContent := DocumentProcessor.pageContent chunk;
            doc_source := DocumentProcessor.source chunk;
            doc_chunkId := DocumentProcessor.chunkId chunk;
            doc_userId := opt_userId options;
            doc_fileId := opt_fileId options;
            doc_fileName := originalName options |})
      chunks.

(** Lines 94-128. [parsed] is what [this.parseFile(filePath)] answered,
    [Ok (parseFile io filePath)] for a path that is a string, and
    [addDocuments] is the vector store, answering with [result.count]. The
    outcome comes with the documents handed to the store, [None] when the
    store was not called; the outer [None] stands for a chunking loop that
    does not end. The [catch] rethrows the error it caught. *)
Definition processFile (dp : DocumentProcessor.t) (parsed : result jsstring)
    (addDocuments : list StoredDocument -> result Z) (options : Options)
    : option (result ProcessResult * option (list StoredDocument)) :=
  match parsed with
  | Throw e => Some (Throw e, None)
  | Ok text =>
      if negb (truthy text) then
        Some (Ok {| success := true; chunksAdded := 0;
                    note := Some (lit "File had no readable content.") |}, None)
      else
        match DocumentProcessor.chunkText dp text (originalName options) with
        | None => None
        | Some chunks =>
            if array_length chunks =? 0 then
              Some (Ok {| success := true; chunksAdded := 0;
                          note := Some (lit "File had no content to chunk.") |}, None)
            else
              let docs := documentsToStore options chunks in
              match addDocuments docs with
              | Ok count =>
                  Some (Ok {| success := true; chunksAdded := count; note := None |},
                        Some docs)
              | Throw e => Some (Throw e, Some docs)
              end
        end
  end.

End Ingestion.

(* ===================================================================== *)
(** ** The specification's wording, where it differs from the code        *)
(* ===================================================================== *)

Module Spec.

Import DocumentProcessor.

(** The specification's exception to the overlap rule: a word-boundary
    cut removed trailing content from the window. *)
Definition cut_removed_content (dp : t) (text : jsstring) (startIndex : Z) : bool :=
  JS.length (window dp text startIndex) <? JS.length (raw_window dp text startIndex).

(** The next start as the specification words it: the end of the window
    minus the overlap, except after a word-boundary cut, where the next
    window resumes at the end of the consumed span. *)
Definition claimed_next_start (dp : t) (text : jsstring) (startIndex : Z) : Z :=
  let window_end := startIndex + JS.length (window dp text startIndex) in
  if cut_removed_content dp text startIndex
  then window_end
  else window_end - chunkOverlap dp.

Definition next_start_as_specified (dp : t) (text : jsstring) (startIndex : Z) : Prop :=
  next_start dp startIndex (window dp text startIndex)
  = claimed_next_start dp text startIndex.

(** The cut as the specification words it, for a window that ends before
    the end of the text: whenever the window holds white space it is cut
    back to its last white-space unit, and the hard cut at the full window
    is kept only when the window holds no white space at all. *)
Definition word_cut_as_specified (dp : t) (text : jsstring) (startIndex : Z) : Prop :=
  endIndex dp text startIndex < JS.length text ->
  let raw := raw_window dp text startIndex in
  ((exists c, In c raw /\ is_whitespace c = true) ->
     exists c rest,
       raw = window dp text startIndex ++ c :: rest
       /\ is_whitespace c = true
       /\ Forall (fun x => is_whitespace x = false) rest)
  /\ (window dp text startIndex = raw ->
        forall c, In c raw -> is_whitespace c = false).

End Spec.

(* ===================================================================== *)
(** ** Reading traces                                                     *)
(* ===================================================================== *)

Arguments lit : simpl never.

Inductive handler : Type := Broad | Specific.

(** The handlers entered during a run, in order: each handler announces
    itself on the console as its first action. *)
Fixpoint handler_entries (es : trace) : list handler :=
  match es with
  | [] => []
  | Console LogHandlingBroad :: rest => Broad :: handler_entries rest
  | Console LogHandlingSpecific :: rest => Specific :: handler_entries rest
  | _ :: rest => handler_entries rest
  end.

(** A request to the generative model. *)
Definition is_llm_call (e : event) : bool :=
  match e with
  | GenerateContent _ _ => true
  | _ => false
  end.

(** A similarity search. *)
Definition is_search (e : event) : bool :=
  match e with
  | SearchDocuments _ _ _ _ => true
  | _ => false
  end.

(** A console line. *)
Definition is_console (e : event) : bool :=
  match e with
  | Console _ => true
  | _ => false
  end.

(** An interaction of the broad path that went wrong: the file lookup
    threw or found nothing, the parser threw, the model threw or gave a
    response that [_processApiResponse] rejects. *)
Definition broad_step_failed (e : event) : bool :=
  match e with
  | FileFindOne _ _ (Throw _) => true
  | FileFindOne _ _ (Ok None) => true
  | ParseFile _ (Throw _) => true
  | GenerateContent _ (Throw _) => true
  | GenerateContent _ (Ok response) =>
      match GeminiAI._processApiResponse response with
      | Throw _ => true
      | Ok _ => false
      end
  | _ => false
  end.


(** [s.startsWith(sub)] and [s.includes(sub)]. *)
Fixpoint startsWith (s sub : jsstring) : bool :=
  match sub, s with
  | [], _ => true
  | y :: sub', x :: s' => N.eqb x y && startsWith s' sub'
  | _ :: _, [] => false
  end.

Fixpoint includes (s sub : jsstring) : bool :=
  startsWith s sub
  || match s with
     | [] => false
     | _ :: s' => includes s' sub
     end.



(** The specification's data flow, corrector first: whenever the router
    runs, the classifier is asked about a query [corrected], and the
    corrector was asked about the user's query before that. *)
Definition corrector_runs_first (w : World) (query userId : jsstring)
    (fileId : option jsstring) (h : trace) : Prop :=
  forall r es,
    HybridRagService.processQuery w query userId fileId h = (r, es) ->
    exists corrected before after res,
      es = before ++ GenerateContent (GeminiAI.classification_prompt corrected) res :: after
      /\ exists res', In (GenerateContent (HybridRagService.correction_prompt query) res') before.

(** The log line of the router can print the analysis: neither the type
    nor the reason is a value whose conversion to a string throws. *)
Definition printable (queryAnalysis : object) : bool :=
  negb (interpolation_throws (get_prop queryAnalysis (lit "type")))
  && negb (interpolation_throws (get_prop queryAnalysis (lit "reason"))).


(** The console lines of a loop whose body only writes to the console. *)
Fixpoint console_lines {A} (line : A -> Z -> LogEntry) (items : list A) (i : Z) : trace :=
  match items with
  | [] => []
  | x :: rest => Console (line x i) :: console_lines line rest (i + 1)
  end.

(** A request to the model followed by [_processApiResponse], as the three
    methods of GeminiAI perform it: its outcome and the one event it adds. *)
Definition request (w : World) (prompt : jsstring) (h : trace) : result jsstring * trace :=
  match model_generateContent w h prompt with
  | Ok response =>
      (GeminiAI._processApiResponse response, [GenerateContent prompt (Ok response)])
  | Throw e => (Throw e, [GenerateContent prompt (Throw e)])
  end.

(* ===================================================================== *)
(** ** Quantities read off a run                                          *)
(* ===================================================================== *)

(** The start indices the chunking loop goes through, in order, with the
    same bound on the iterations as [chunk_loop]. *)
Fixpoint window_starts (fuel : nat) (dp : DocumentProcessor.t) (text : jsstring)
    (startIndex : Z) : option (list Z) :=
  if startIndex <? JS.length text then
    match fuel with
    | O => None
    | S fuel' =>
        option_map (cons startIndex)
          (window_starts fuel' dp text
             (DocumentProcessor.next_start dp startIndex
                (DocumentProcessor.window dp text startIndex)))
    end
  else Some [].

(** The chunks pushed for a list of start indices, numbered from
    [chunkIndex]. *)
Fixpoint chunks_at (dp : DocumentProcessor.t) (text filename : jsstring)
    (starts : list Z) (chunkIndex : nat) : list DocumentProcessor.Chunk :=
  match starts with
  | [] => []
  | s :: rest =>
      DocumentProcessor.make_chunk filename (DocumentProcessor.window dp text s) chunkIndex
        :: chunks_at dp text filename rest (S chunkIndex)
  end.

(** Line 151: the name a retrieved chunk is listed under. *)
Definition chunk_title (chunk : RetrievedChunk) : jsstring :=
  match fileName chunk with
  | Some n => if truthy n then n else lit "Unknown Document"
  | None => lit "Unknown Document"
  end.

(** The number of requests made to the generative model in a trace. *)
Definition llm_calls (es : trace) : nat := List.length (filter is_llm_call es).

(** The number of similarity searches in a trace. *)
Definition searches (es : trace) : nat := List.length (filter is_search es).

(* ===================================================================== *)
(** ** Scripted collaborators, for concrete runs                          *)
(* ===================================================================== *)

Module Scenario.

(** A response that finished normally with the given text. *)
Definition stop_response (t : jsstring) : ApiResponse :=
  {| candidates :=
       [ {| finishReason := Some (lit "STOP"); text := Some t; safetyRatings := None |} ] |}.

(** The JSON text of an analysis that says broad. *)
Definition broad_json : jsstring :=
  lit "{" ++ dq ++ lit "type" ++ dq ++ lit ": " ++ dq ++ lit "broad" ++ dq ++ lit ", "
  ++ dq ++ lit "reason" ++ dq ++ lit ": " ++ dq ++ lit "asks for an overview" ++ dq
  ++ lit "}".

(** [JSON.parse] on the text above, and a syntax error on any other. *)
Definition parse (s : jsstring) : result object :=
  if JS.eqb s broad_json
  then Ok [ (lit "type", JString (lit "broad"));
            (lit "reason", JString (lit "asks for an overview")) ]
  else Throw (lit "SyntaxError: Unexpected token").

(** Collaborators that answer every call the same way: the model, when
    set, replies with [reply]; the file lookup answers [file]; the
    parser gives an empty text; the search returns [chunks]; no user
    is found. *)
Definition world (enabled : bool) (reply : jsstring) (file : result (option File))
    (chunks : list RetrievedChunk) : World :=
  {| model_set := enabled;
     model_generateContent := fun _ _ => Ok (stop_response reply);
     JSON_parse := parse;
     handleGeminiError := fun e => e;
     File_findOne := fun _ _ _ => file;
     documentProcessor_parseFile := fun _ _ => Ok [];
     vectorStore_searchDocuments := fun _ _ _ _ => Ok chunks;
     User_findById := fun _ _ => Ok None |}.

Definition confident_chunk : RetrievedChunk :=
  {| content := lit "The schema has three tables."; score := 0.9%float;
     fileName := Some (lit "design.pdf") |}.

Definition weak_chunk : RetrievedChunk :=
  {| content := lit "Unrelated text."; score := 0.65%float;
     fileName := Some (lit "design.pdf") |}.

End Scenario.

(** Collaborators scripted answer by answer, for the runs in which the
    parser, the search or the user lookup matter. *)
Module Script.

Definition world (enabled : bool) (reply : jsstring) (file : result (option File))
    (parsed : result jsstring) (found : result (list RetrievedChunk))
    (user : result (option User)) : World :=
  {| model_set := enabled;
     model_generateContent := fun _ _ => Ok (Scenario.stop_response reply);
     JSON_parse := Scenario.parse;
     handleGeminiError := fun e => e;
     File_findOne := fun _ _ _ => file;
     documentProcessor_parseFile := fun _ _ => parsed;
     vectorStore_searchDocuments := fun _ _ _ _ => found;
     User_findById := fun _ _ => user |}.

Definition report : File :=
  {| path := lit "uploads/report.txt"; originalname := lit "report.txt" |}.




(** Readers of a folder with one text file, one blank text file and one
    PDF that cannot be read. *)
Definition readers : Ingestion.Readers :=
  {| Ingestion.lower_extname := fun p =>
       if JS.eqb p (lit "uploads/broken.pdf") then lit ".pdf"
       else if JS.eqb p (lit "uploads/archive.zip") then lit ".zip"
       else lit ".txt";
     Ingestion.readFileSync_utf8 := fun p =>
       if JS.eqb p (lit "uploads/blank.txt") then Ok (lit "   ")
       else if JS.eqb p (lit "uploads/report.txt") then Ok (lit "The schema has three tables.")
       else Throw (lit "ENOENT: no such file or directory");
     Ingestion.pdf_text := fun _ => Throw (lit "Invalid PDF structure");
     Ingestion.mammoth_value := fun _ => Throw (lit "Could not find file in options") |}.

End Script.

(* ===================================================================== *)
(** ** Facts about the string built-ins                                   *)
(* ===================================================================== *)

Section StringFacts.

Lemma length_nonneg (s : jsstring) : 0 <= JS.length s.
Proof. unfold JS.length. lia. Qed.

Lemma length_app_Z (a b : jsstring) : JS.length (a ++ b) = JS.length a + JS.length b.
Proof. unfold JS.length. rewrite length_app. lia. Qed.

(** Inside the string, [slice] is the plain sub-list. *)
Lemma slice_inside (s : jsstring) (a b : Z) :
  0 <= a <= b -> b <= JS.length s ->
  slice s a b = firstn (Z.to_nat (b - a)) (skipn (Z.to_nat a) s).
Proof.
  intros Ha Hb. unfold slice.
  destruct (Z.ltb_spec a 0); [lia|].
  destruct (Z.ltb_spec b 0); [lia|].
  rewrite !Z.min_l by lia. reflexivity.
Qed.

Lemma slice_length (s : jsstring) (a b : Z) :
  0 <= a <= b -> b <= JS.length s -> JS.length (slice s a b) = b - a.
Proof.
  intros Ha Hb. rewrite slice_inside by assumption.
  unfold JS.length in *. rewrite length_firstn, length_skipn. lia.
Qed.

(** A prefix taken with [substring]. *)
Lemma substring_prefix (s : jsstring) (k : Z) :
  0 <= k <= JS.length s -> substring s 0 k = firstn (Z.to_nat k) s.
Proof.
  intros Hk. unfold substring.
  rewrite (Z.max_l 0 0) by lia. rewrite (Z.min_l 0) by apply length_nonneg.
  rewrite (Z.max_l k 0) by lia. rewrite (Z.min_l k) by lia.
  rewrite Z.min_l by lia. rewrite Z.max_r by lia.
  rewrite Z.sub_0_r. reflexivity.
Qed.

(** [lastIndexOf] finds the last occurrence: the string splits around
    it, and nothing after it is the searched unit. *)
Lemma lastIndexOf_from_spec (c : code_unit) (s : jsstring) (i acc : Z) :
  (~ In c s /\ lastIndexOf_from c s i acc = acc)
  \/ (exists pre rest,
        s = pre ++ c :: rest /\ ~ In c rest
        /\ lastIndexOf_from c s i acc = i + JS.length pre).
Proof.
  revert i acc. induction s as [|x s IH]; intros i acc.
  - left. split; [intros []|reflexivity].
  - cbn [lastIndexOf_from].
    destruct (IH (i + 1) (if N.eqb x c then i else acc))
      as [[Hnot Heq]|(pre & rest & Hs & Hrest & Heq)].
    + destruct (N.eqb_spec x c) as [->|Hxc].
      * right. exists [], s. repeat split; auto.
        rewrite Heq. unfold JS.length. simpl. lia.
      * left. split; [|exact Heq].
        intros [H|H]; [congruence|auto].
    + right. exists (x :: pre), rest. subst s. repeat split; auto.
      rewrite Heq. unfold JS.length. simpl List.length. lia.
Qed.

Lemma lastIndexOf_spec (s : jsstring) (c : code_unit) :
  (~ In c s /\ lastIndexOf s c = -1)
  \/ (exists pre rest,
        s = pre ++ c :: rest /\ ~ In c rest
        /\ lastIndexOf s c = JS.length pre).
Proof.
  unfold lastIndexOf.
  destruct (lastIndexOf_from_spec c s 0 (-1)) as [H|(pre & rest & H1 & H2 & H3)].
  - left. exact H.
  - right. exists pre, rest. repeat split; auto.
Qed.

(** The split around the last occurrence is unique. *)
Lemma last_split_unique (c : code_unit) (p1 r1 p2 r2 : jsstring) :
  p1 ++ c :: r1 = p2 ++ c :: r2 -> ~ In c r1 -> ~ In c r2 -> p1 = p2 /\ r1 = r2.
Proof.
  revert p2. induction p1 as [|x p1 IH]; intros [|y p2] H N1 N2; simpl in H.
  - inversion H. auto.
  - inversion H; subst. exfalso. apply N1. apply in_or_app. right. left. reflexivity.
  - inversion H; subst. exfalso. apply N2. apply in_or_app. right. left. reflexivity.
  - inversion H; subst. destruct (IH p2 H2 N1 N2). subst. auto.
Qed.

End StringFacts.

(* ===================================================================== *)
(** ** The chunker                                                        *)
(* ===================================================================== *)

Module ChunkerFacts.

Import DocumentProcessor.

Section Windows.
Variable dp : t.
Variable text : jsstring.

Lemma endIndex_bounds (startIndex : Z) :
  0 < chunkSize dp -> 0 <= startIndex < JS.length text ->
  startIndex < endIndex dp text startIndex <= JS.length text.
Proof. intros Hs Hi. unfold endIndex. lia. Qed.

Lemma raw_window_length (startIndex : Z) :
  0 < chunkSize dp -> 0 <= startIndex < JS.length text ->
  JS.length (raw_window dp text startIndex) = endIndex dp text startIndex - startIndex.
Proof.
  intros Hs Hi. unfold raw_window.
  pose proof (endIndex_bounds startIndex Hs Hi).
  apply slice_length; lia.
Qed.

(** The three shapes of a window: the raw slice at the end of the text,
    the raw slice when no space sits at a positive index, the prefix
    before the last space otherwise. *)
Lemma window_cases (startIndex : Z) :
  let raw := raw_window dp text startIndex in
  (JS.length text <= endIndex dp text startIndex /\ window dp text startIndex = raw)
  \/ (endIndex dp text startIndex < JS.length text
      /\ lastIndexOf raw space <= 0 /\ window dp text startIndex = raw)
  \/ (endIndex dp text startIndex < JS.length text
      /\ exists pre rest,
           raw = pre ++ space :: rest /\ ~ In space rest /\ pre <> []
           /\ lastIndexOf raw space = JS.length pre
           /\ window dp text startIndex = pre).
Proof.
  intros raw. unfold window. fold raw.
  destruct (Z.ltb_spec (endIndex dp text startIndex) (JS.length text)) as [Hlt|Hge].
  2: { left. split; [lia|reflexivity]. }
  right.
  destruct (Z.gtb_spec (lastIndexOf raw space) 0) as [Hpos|Hnpos].
  2: { left. repeat split; auto. }
  right. split; [exact Hlt|].
  destruct (lastIndexOf_spec raw space) as [[_ Hm]|(pre & rest & Hraw & Hrest & Hk)]; [lia|].
  exists pre, rest. repeat split; auto.
  - intros ->. rewrite Hk in Hpos. unfold JS.length in Hpos. simpl in Hpos. lia.
  - rewrite Hk. rewrite substring_prefix.
    + unfold JS.length. rewrite Nat2Z.id. rewrite Hraw.
      rewrite firstn_app, Nat.sub_diag, firstn_all. simpl. apply app_nil_r.
    + rewrite Hraw, length_app_Z. pose proof (length_nonneg pre).
      pose proof (length_nonneg (space :: rest)). lia.
Qed.

(** A window that starts inside the text is never empty and never
    longer than the raw slice. *)
Lemma window_length (startIndex : Z) :
  0 < chunkSize dp -> 0 <= startIndex < JS.length text ->
  0 < JS.length (window dp text startIndex)
    <= endIndex dp text startIndex - startIndex.
Proof.
  intros Hs Hi.
  pose proof (raw_window_length startIndex Hs Hi) as Hraw.
  pose proof (endIndex_bounds startIndex Hs Hi) as He.
  destruct (window_cases startIndex)
    as [[_ ->]|[(_ & _ & ->)|(_ & pre & rest & Hsplit & _ & Hne & _ & ->)]];
    try lia.
  rewrite Hsplit, length_app_Z in Hraw.
  pose proof (length_nonneg (space :: rest)).
  destruct pre; [congruence|].
  unfold JS.length in *. simpl List.length in *. lia.
Qed.

(** Lines 84-88 in closed form. *)
Lemma next_start_closed_form (startIndex : Z) (chunkTextSlice : jsstring) :
  next_start dp startIndex chunkTextSlice
  = if JS.length chunkTextSlice <=? chunkOverlap dp
    then startIndex + JS.length chunkTextSlice
    else startIndex + JS.length chunkTextSlice - chunkOverlap dp.
Proof.
  unfold next_start.
  destruct (Z.leb_spec (startIndex + JS.length chunkTextSlice - chunkOverlap dp)
              (startIndex + JS.length chunkTextSlice - JS.length chunkTextSlice));
    destruct (Z.leb_spec (JS.length chunkTextSlice) (chunkOverlap dp)); lia.
Qed.

(** Forward progress of one iteration. *)
Lemma step_progress (startIndex : Z) :
  0 < chunkSize dp -> 0 <= chunkOverlap dp ->
  0 <= startIndex < JS.length text ->
  startIndex < next_start dp startIndex (window dp text startIndex) <= JS.length text.
Proof.
  intros Hs Ho Hi.
  pose proof (window_length startIndex Hs Hi) as Hw.
  pose proof (endIndex_bounds startIndex Hs Hi) as He.
  rewrite next_start_closed_form.
  destruct (Z.leb_spec (JS.length (window dp text startIndex)) (chunkOverlap dp)); lia.
Qed.

(** With enough iterations allowed the loop ends, the bound plays no
    role in its result, and each iteration added one chunk. *)
Lemma chunk_loop_terminates (filename : jsstring) :
  0 < chunkSize dp -> 0 <= chunkOverlap dp ->
  forall (n fuel : nat) (startIndex : Z) (chunkIndex : nat) (chunks : list Chunk),
    0 <= startIndex ->
    JS.length text - startIndex <= Z.of_nat n ->
    (n <= fuel)%nat ->
    exists out,
      chunk_loop fuel dp text filename startIndex chunkIndex chunks = Some out
      /\ chunk_loop n dp text filename startIndex chunkIndex chunks = Some out
      /\ (List.length chunks <= List.length out <= List.length chunks + n)%nat.
Proof.
  intros Hs Ho. induction n as [|n IH]; intros fuel startIndex chunkIndex chunks H0 Hn Hf.
  - exists chunks. destruct fuel; cbn [chunk_loop];
      destruct (Z.ltb_spec startIndex (JS.length text)); try lia; auto with arith.
  - destruct fuel as [|fuel]; [lia|]. cbn [chunk_loop].
    destruct (Z.ltb_spec startIndex (JS.length text)) as [Hlt|Hge].
    + pose proof (step_progress startIndex Hs Ho (conj H0 Hlt)) as Hp.
      destruct (IH fuel (next_start dp startIndex (window dp text startIndex))
                  (S chunkIndex)
                  (chunks ++ [make_chunk filename (window dp text startIndex) chunkIndex]))
        as (out & E1 & E2 & Hlen); try lia.
      exists out. repeat split; auto; rewrite length_app in Hlen; simpl in Hlen; lia.
    + exists chunks. repeat split; auto; lia.
Qed.

End Windows.

End ChunkerFacts.

Module ChunkerLoop.

Import DocumentProcessor ChunkerFacts.

(** The header makes every composed chunk non-empty, so the final
    filter of [chunkText] keeps every chunk. *)
Lemma final_filter_keeps_all (chunks : list Chunk) :
  Forall (fun c => exists s, pageContent c = 83%N :: s) chunks ->
  filter (fun chunk => JS.length (pageContent chunk) >? 0) chunks = chunks.
Proof.
  induction 1 as [|c l (s & Hc) _ IH]; [reflexivity|].
  cbn [filter]. rewrite Hc, IH. reflexivity.
Qed.

Lemma make_chunk_header (filename sl : jsstring) (i : nat) :
  exists s, pageContent (make_chunk filename sl i) = 83%N :: s.
Proof. eexists. reflexivity. Qed.

Lemma chunk_loop_done (fuel : nat) dp text filename startIndex i chunks :
  JS.length text <= startIndex ->
  chunk_loop fuel dp text filename startIndex i chunks = Some chunks.
Proof.
  intros H. destruct fuel; cbn [chunk_loop];
    destruct (Z.ltb_spec startIndex (JS.length text)); try lia; reflexivity.
Qed.

Lemma chunk_loop_step (fuel : nat) dp text filename startIndex i chunks :
  startIndex < JS.length text ->
  chunk_loop (S fuel) dp text filename startIndex i chunks
  = chunk_loop fuel dp text filename
      (next_start dp startIndex (window dp text startIndex)) (S i)
      (chunks ++ [make_chunk filename (window dp text startIndex) i]).
Proof.
  intros H. cbn [chunk_loop].
  destruct (Z.ltb_spec startIndex (JS.length text)); [reflexivity|lia].
Qed.

(** A window size of 0 never advances: the loop is still running
    whatever the number of iterations allowed. *)
Lemma zero_size_never_ends (fuel : nat) (overlap : Z) text filename startIndex i chunks :
  0 <= overlap -> 0 <= startIndex < JS.length text ->
  chunk_loop fuel (mk 0 overlap) text filename startIndex i chunks = None.
Proof.
  intros Ho Hi. revert i chunks.
  assert (Hw : window (mk 0 overlap) text startIndex = []).
  { unfold window, raw_window, endIndex. cbn [chunkSize].
    rewrite Z.add_0_r, Z.min_l by lia.
    assert (Hs : slice text startIndex startIndex = []).
    { rewrite slice_inside by lia. rewrite Z.sub_diag. reflexivity. }
    rewrite Hs. destruct (Z.ltb_spec startIndex (JS.length text)); reflexivity. }
  induction fuel as [|fuel IH]; intros i chunks.
  - cbn [chunk_loop]. destruct (Z.ltb_spec startIndex (JS.length text)); [reflexivity|lia].
  - rewrite chunk_loop_step by lia. rewrite Hw.
    replace (next_start (mk 0 overlap) startIndex []) with startIndex; [apply IH|].
    unfold next_start. cbn. destruct (Z.leb_spec (startIndex + 0 - overlap) (startIndex + 0 - 0)); lia.
Qed.

(** The whole text as one window, when it is shorter than the window
    size. *)
Lemma short_text_first_window dp text :
  0 < JS.length text < chunkSize dp -> window dp text 0 = text.
Proof.
  intros H. unfold window, raw_window, endIndex.
  rewrite Z.add_0_l, Z.min_r by lia.
  rewrite Z.ltb_irrefl.
  rewrite slice_inside by lia. rewrite Z.sub_0_r. cbn [Z.to_nat skipn].
  unfold JS.length. rewrite Nat2Z.id. apply firstn_all.
Qed.

(** The window that starts [overlap] units before the end of a short
    text has exactly [overlap] units. *)
Lemma short_text_tail_window dp text :
  0 < chunkOverlap dp < JS.length text -> JS.length text < chunkSize dp ->
  JS.length (window dp text (JS.length text - chunkOverlap dp)) = chunkOverlap dp.
Proof.
  intros Ho Hs.
  assert (He : endIndex dp text (JS.length text - chunkOverlap dp) = JS.length text)
    by (unfold endIndex; lia).
  unfold window. rewrite He, Z.ltb_irrefl.
  unfold raw_window. rewrite He. rewrite slice_length; lia.
Qed.

(** How many chunks a text shorter than the window size gives: one when
    the overlap is 0 or at least the length of the text, two otherwise
    (the whole text, then its last [overlap] units once more). *)
Lemma short_text_chunk_count dp text filename :
  0 <= chunkOverlap dp -> truthy (trim text) = true ->
  JS.length text < chunkSize dp ->
  exists out,
    chunkText dp text filename = Some out
    /\ List.length out
       = if (JS.length text <=? chunkOverlap dp) || (chunkOverlap dp =? 0)
         then 1%nat else 2%nat.
Proof.
  intros Ho Ht Hs.
  assert (Hlen : 0 < JS.length text).
  { destruct text; [discriminate|]. unfold JS.length. simpl. lia. }
  unfold chunkText, chunkText_fuel. rewrite Ht. cbn [negb].
  remember (List.length text) as n eqn:Hn.
  assert (HnZ : JS.length text = Z.of_nat n) by (unfold JS.length; congruence).
  destruct n as [|n]; [lia|].
  rewrite chunk_loop_step by lia.
  rewrite short_text_first_window by lia.
  rewrite next_start_closed_form. rewrite Z.add_0_l.
  destruct (Z.leb_spec (JS.length text) (chunkOverlap dp)) as [Hle|Hgt].
  - rewrite chunk_loop_done by lia. cbn [option_map orb].
    eexists. split; [reflexivity|].
    rewrite final_filter_keeps_all; [reflexivity|].
    repeat constructor. apply make_chunk_header.
  - destruct (Z.eqb_spec (chunkOverlap dp) 0) as [H0|Hpos].
    + rewrite chunk_loop_done by lia. cbn [option_map orb].
      eexists. split; [reflexivity|].
      rewrite final_filter_keeps_all; [reflexivity|].
      repeat constructor. apply make_chunk_header.
    + destruct n as [|n]; [lia|].
      rewrite chunk_loop_step by lia.
      rewrite chunk_loop_done.
      * cbn [option_map orb]. eexists. split; [reflexivity|].
        rewrite final_filter_keeps_all; [reflexivity|].
        repeat constructor; apply make_chunk_header.
      * rewrite next_start_closed_form.
        rewrite short_text_tail_window by lia.
        rewrite Z.leb_refl. lia.
Qed.

End ChunkerLoop.

(* ===================================================================== *)
(** ** Properties of the chunker                                          *)
(* ===================================================================== *)

Section ChunkerClaims.

Import DocumentProcessor ChunkerFacts ChunkerLoop.

(** C2. For every text, every window size greater than 0 and every
    overlap of at least 0 (an overlap of the window size or more
    included), each iteration of the chunking loop moves the start index
    strictly forward, so the loop ends after at most one iteration per
    code unit of the text: with that many iterations allowed or more, the
    loop returns, always with the same chunks, and [chunkText] returns. *)
Theorem chunking_progress_and_termination (dp : t) (text filename : jsstring) :
  0 < chunkSize dp -> 0 <= chunkOverlap dp ->
  (forall startIndex, 0 <= startIndex < JS.length text ->
      startIndex < next_start dp startIndex (window dp text startIndex)
                 <= JS.length text)
  /\ (exists chunks,
        (forall fuel, (List.length text <= fuel)%nat ->
            chunk_loop fuel dp text filename 0 0%nat [] = Some chunks)
        /\ (List.length chunks <= List.length text)%nat)
  /\ (exists out, chunkText dp text filename = Some out).
Proof.
  intros Hs Ho. split; [|split].
  - intros startIndex Hi. apply step_progress; assumption.
  - destruct (chunk_loop_terminates dp text filename Hs Ho (List.length text)
                (List.length text) 0 0%nat [])
      as (out & _ & E & Hlen); try (unfold JS.length; lia).
    exists out. split; [|simpl in Hlen; lia].
    intros fuel Hf.
    destruct (chunk_loop_terminates dp text filename Hs Ho (List.length text)
                fuel 0 0%nat [])
      as (out' & E1 & E2 & _); try (unfold JS.length; lia).
    congruence.
  - unfold chunkText, chunkText_fuel.
    destruct (negb (truthy (trim text))); [eexists; reflexivity|].
    destruct (chunk_loop_terminates dp text filename Hs Ho (List.length text)
                (List.length text) 0 0%nat [])
      as (out & E & _ & _); try (unfold JS.length; lia).
    rewrite E. eexists. reflexivity.
Qed.

(** C3, as the code has it: a text that is not empty after trimming,
    shorter than the window size and no longer than the overlap (or
    chunked with an overlap of 0) gives exactly one chunk. *)
Theorem short_text_within_overlap_is_one_chunk (dp : t) (text filename : jsstring) :
  truthy (trim text) = true ->
  JS.length text < chunkSize dp ->
  JS.length text <= chunkOverlap dp \/ chunkOverlap dp = 0 ->
  exists chunk, chunkText dp text filename = Some [chunk].
Proof.
  intros Ht Hs Ho.
  assert (Hlen : 0 < JS.length text).
  { destruct text; [discriminate|]. unfold JS.length. simpl. lia. }
  destruct (short_text_chunk_count dp text filename) as (out & E & Hn); try assumption.
  { lia. }
  assert (Hc : (JS.length text <=? chunkOverlap dp) || (chunkOverlap dp =? 0) = true).
  { apply orb_true_iff. destruct Ho; [left; apply Z.leb_le|right; apply Z.eqb_eq]; assumption. }
  rewrite Hc in Hn. destruct out as [|chunk [|? ?]]; try discriminate.
  exists chunk. exact E.
Qed.

(** C4, as the code has it: the next window starts at the end of the
    current slice (where the word-boundary cut left it, before any
    trimming of white space) minus the overlap, except when the slice is
    not longer than the overlap, in which case it starts exactly at the
    end of the slice. Whether a word-boundary cut took place plays no
    role. *)
Theorem next_start_rule (dp : t) (text : jsstring) (startIndex : Z) :
  let chunkTextSlice := window dp text startIndex in
  let slice_end := startIndex + JS.length chunkTextSlice in
  next_start dp startIndex chunkTextSlice
  = if JS.length chunkTextSlice <=? chunkOverlap dp
    then slice_end
    else slice_end - chunkOverlap dp.
Proof. cbv zeta. apply next_start_closed_form. Qed.

(** Any occurrence of the space in a string is at or before the index
    that [lastIndexOf] returns. *)
Lemma occurrence_before_last (s pre rest : jsstring) :
  s = pre ++ space :: rest -> JS.length pre <= lastIndexOf s space.
Proof.
  intros Hs.
  destruct (lastIndexOf_spec s space) as [[Hnot _]|(p & r & Hp & Hr & ->)].
  - exfalso. apply Hnot. rewrite Hs. apply in_or_app. right. left. reflexivity.
  - rewrite Hp in Hs. clear Hp. revert pre Hs.
    induction p as [|x p IH]; intros [|y pre] Hs; simpl in Hs.
    + unfold JS.length. simpl. lia.
    + inversion Hs; subst. exfalso. apply Hr. apply in_or_app. right. left. reflexivity.
    + unfold JS.length. simpl. lia.
    + inversion Hs; subst. specialize (IH pre H1).
      unfold JS.length in *. simpl List.length. lia.
Qed.

(** C5, as the code has it: a window that ends before the end of the
    text is cut just before its last space (the code unit U+0020; no
    other white space counts) when that space is at a positive index of
    the window, and the cut window is then not empty; the hard cut at the
    full window is kept when every space of the window is at index 0, in
    particular when the window holds no space. *)
Theorem word_cut_rule (dp : t) (text : jsstring) (startIndex : Z) :
  endIndex dp text startIndex < JS.length text ->
  let raw := raw_window dp text startIndex in
  (exists pre rest,
      raw = pre ++ space :: rest /\ ~ In space rest /\ pre <> []
      /\ window dp text startIndex = pre)
  \/ ((forall pre rest, raw = pre ++ space :: rest -> pre = [])
      /\ window dp text startIndex = raw).
Proof.
  intros Hlt raw.
  destruct (window_cases dp text startIndex)
    as [[Hge _]|[(_ & Hk & Hw)|(_ & pre & rest & H1 & H2 & H3 & _ & H4)]].
  - lia.
  - right. split; [|exact Hw].
    intros pre rest Hsplit.
    pose proof (occurrence_before_last _ pre rest Hsplit) as Hocc.
    fold raw in Hk. destruct pre; [reflexivity|].
    unfold JS.length in Hocc. simpl in Hocc. fold raw in Hocc. lia.
  - left. exists pre, rest. auto.
Qed.

End ChunkerClaims.

(** C2 at the processor as constructed and an eleven-unit text. *)
Lemma chunking_progress_and_termination_witness :
  0 < DocumentProcessor.chunkSize DocumentProcessor.new
  /\ 0 <= DocumentProcessor.chunkOverlap DocumentProcessor.new
  /\ exists out,
       DocumentProcessor.chunkText DocumentProcessor.new
         (lit "hello world") (lit "a.txt") = Some out.
Proof.
  assert (H1 : 0 < DocumentProcessor.chunkSize DocumentProcessor.new) by reflexivity.
  assert (H2 : 0 <= DocumentProcessor.chunkOverlap DocumentProcessor.new)
    by (simpl; lia).
  split; [exact H1|split; [exact H2|]].
  exact (proj2 (proj2 (chunking_progress_and_termination DocumentProcessor.new
                         (lit "hello world") (lit "a.txt") H1 H2))).
Defined.

(** C3 refuted as worded: 200 letters, not empty after trimming and shorter
    than the window of 512, are chunked into two chunks by the processor as
    constructed (window 512, overlap 100): the whole text, then its last 100
    units once more. *)
Lemma short_text_one_chunk_fails :
  let text := repeat 97%N 200 in
  truthy (trim text) = true
  /\ JS.length text < DocumentProcessor.chunkSize DocumentProcessor.new
  /\ option_map (@List.length DocumentProcessor.Chunk)
       (DocumentProcessor.chunkText DocumentProcessor.new text (lit "notes.txt"))
     = Some 2%nat
  /\ ~ (exists chunk,
          DocumentProcessor.chunkText DocumentProcessor.new text (lit "notes.txt")
          = Some [chunk]).
Proof.
  cbv zeta. repeat split; try (vm_compute; reflexivity).
  intros [chunk H].
  apply (f_equal (option_map (@List.length DocumentProcessor.Chunk))) in H.
  vm_compute in H. discriminate.
Qed.

(** C3's rule at the processor as constructed and a five-unit text. *)
Lemma short_text_within_overlap_is_one_chunk_witness :
  truthy (trim (lit "hello")) = true
  /\ JS.length (lit "hello") < DocumentProcessor.chunkSize DocumentProcessor.new
  /\ exists chunk,
       DocumentProcessor.chunkText DocumentProcessor.new (lit "hello") (lit "a.txt")
       = Some [chunk].
Proof.
  assert (H1 : truthy (trim (lit "hello")) = true) by reflexivity.
  assert (H2 : JS.length (lit "hello") < DocumentProcessor.chunkSize DocumentProcessor.new)
    by reflexivity.
  assert (H3 : JS.length (lit "hello") <= DocumentProcessor.chunkOverlap DocumentProcessor.new
               \/ DocumentProcessor.chunkOverlap DocumentProcessor.new = 0)
    by (left; vm_compute; discriminate).
  split; [exact H1|split; [exact H2|]].
  exact (short_text_within_overlap_is_one_chunk DocumentProcessor.new
           (lit "hello") (lit "a.txt") H1 H2 H3).
Defined.

(** C4 refuted as worded: 300 letters, a space, 300 letters. The first
    window of 512 is cut at the space, so a word-boundary cut took place,
    and the next window starts at 200, not at 300 where the slice ends (and
    not at 512 where the uncut window ends): it takes up again the last 100
    units of the slice. *)
Lemma next_start_as_specified_fails :
  let text := repeat 97%N 300 ++ [space] ++ repeat 98%N 300 in
  Spec.cut_removed_content DocumentProcessor.new text 0 = true
  /\ DocumentProcessor.next_start DocumentProcessor.new 0
       (DocumentProcessor.window DocumentProcessor.new text 0) = 200
  /\ Spec.claimed_next_start DocumentProcessor.new text 0 = 300
  /\ ~ Spec.next_start_as_specified DocumentProcessor.new text 0.
Proof.
  cbv zeta. unfold Spec.next_start_as_specified.
  repeat split; try (vm_compute; reflexivity).
  vm_compute. discriminate.
Qed.

(** C5 refuted as worded: a space followed by 600 letters. The first
    window of 512 ends before the end of the text and holds white space (its
    first unit), yet the hard cut is kept. *)
Lemma word_cut_as_specified_fails :
  ~ Spec.word_cut_as_specified DocumentProcessor.new (space :: repeat 97%N 600) 0.
Proof.
  intros H. unfold Spec.word_cut_as_specified in H.
  destruct H as [_ H]; [vm_compute; reflexivity|].
  assert (Hw : DocumentProcessor.window DocumentProcessor.new (space :: repeat 97%N 600) 0
               = DocumentProcessor.raw_window DocumentProcessor.new (space :: repeat 97%N 600) 0)
    by (vm_compute; reflexivity).
  specialize (H Hw space).
  assert (Hin : In space (DocumentProcessor.raw_window DocumentProcessor.new
                            (space :: repeat 97%N 600) 0))
    by (vm_compute; left; reflexivity).
  specialize (H Hin). vm_compute in H. discriminate.
Qed.

(** The same with a line feed in the middle of the window: white space
    other than the space never triggers the cut. *)
Lemma line_feed_is_no_boundary :
  let text := repeat 97%N 300 ++ [10%N] ++ repeat 98%N 300 in
  DocumentProcessor.window DocumentProcessor.new text 0
  = DocumentProcessor.raw_window DocumentProcessor.new text 0
  /\ is_whitespace 10%N = true.
Proof. vm_compute. split; reflexivity. Qed.

(** C5's rule at the processor as constructed and a 601-unit text. *)
Lemma word_cut_rule_witness :
  let text := repeat 97%N 300 ++ [space] ++ repeat 98%N 300 in
  DocumentProcessor.endIndex DocumentProcessor.new text 0 < JS.length text
  /\ ((exists pre rest,
          DocumentProcessor.raw_window DocumentProcessor.new text 0 = pre ++ space :: rest
          /\ ~ In space rest /\ pre <> []
          /\ DocumentProcessor.window DocumentProcessor.new text 0 = pre)
      \/ ((forall pre rest,
              DocumentProcessor.raw_window DocumentProcessor.new text 0
              = pre ++ space :: rest -> pre = [])
          /\ DocumentProcessor.window DocumentProcessor.new text 0
             = DocumentProcessor.raw_window DocumentProcessor.new text 0)).
Proof.
  cbv zeta.
  assert (H : DocumentProcessor.endIndex DocumentProcessor.new
                (repeat 97%N 300 ++ [space] ++ repeat 98%N 300) 0
              < JS.length (repeat 97%N 300 ++ [space] ++ repeat 98%N 300))
    by (vm_compute; reflexivity).
  split; [exact H|].
  exact (word_cut_rule DocumentProcessor.new
           (repeat 97%N 300 ++ [space] ++ repeat 98%N 300) 0 H).
Defined.

(* ===================================================================== *)
(** ** Running computations                                               *)
(* ===================================================================== *)

Section MonadFacts.

Lemma handler_entries_app (a b : trace) :
  handler_entries (a ++ b) = handler_entries a ++ handler_entries b.
Proof.
  induction a as [|e a IH]; [reflexivity|].
  destruct e as [| | | | |[]]; simpl; rewrite IH; reflexivity.
Qed.

Lemma bind_inv {A B} (m : M A) (f : A -> M B) (h : trace) r es :
  bind m f h = (r, es) ->
  (exists e, m h = (Throw e, es) /\ r = Throw e)
  \/ (exists a es1 es2,
        m h = (Ok a, es1) /\ f a (h ++ es1) = (r, es2) /\ es = es1 ++ es2).
Proof.
  unfold bind. destruct (m h) as [[a|e] es1].
  - destruct (f a (h ++ es1)) as [r' es2] eqn:E. intros H. inversion H; subst.
    right. exists a, es1, es2. auto.
  - intros H. inversion H; subst. left. exists e. auto.
Qed.

Lemma bind_ok {A B} (m : M A) (f : A -> M B) (h : trace) a es1 :
  m h = (Ok a, es1) ->
  bind m f h = (fst (f a (h ++ es1)), es1 ++ snd (f a (h ++ es1))).
Proof.
  intros E. unfold bind. rewrite E. destruct (f a (h ++ es1)). reflexivity.
Qed.

Lemma bind_throw {A B} (m : M A) (f : A -> M B) (h : trace) e es1 :
  m h = (Throw e, es1) -> bind m f h = (Throw e, es1).
Proof. intros E. unfold bind. rewrite E. reflexivity. Qed.

Lemma forEach_console {A} (line : A -> Z -> LogEntry) (items : list A) (i : Z) (h : trace) :
  forEach_from (fun x i => console (line x i)) items i h
  = (Ok tt, console_lines line items i).
Proof.
  revert i h. induction items as [|x items IH]; intros i h; [reflexivity|].
  cbn [forEach_from console_lines]. unfold bind at 1. unfold console at 1.
  rewrite IH. reflexivity.
Qed.

Lemma console_lines_all_console {A} (line : A -> Z -> LogEntry) items i :
  Forall (fun e => is_console e = true) (console_lines line items i).
Proof.
  revert i. induction items; intros i; constructor; auto.
Qed.

End MonadFacts.

(* ===================================================================== *)
(** ** The generative model behind the services                           *)
(* ===================================================================== *)

Module GeminiFacts.

Import GeminiAI.

Section WithWorld.
Variable w : World.

Lemma request_run (prompt : jsstring) (h : trace) :
  bind (generateContent w prompt) (fun response => lift (_processApiResponse response)) h
  = request w prompt h.
Proof.
  unfold bind, generateContent, call, lift, request.
  destruct (model_generateContent w h prompt); reflexivity.
Qed.

(** A request adds one event, the call of the model with the prompt. *)
Lemma request_events (prompt : jsstring) (h : trace) :
  exists res, snd (request w prompt h) = [GenerateContent prompt res].
Proof.
  unfold request. destruct (model_generateContent w h prompt); eexists; reflexivity.
Qed.

(** A request throws exactly when its interaction is a failed one. *)
Lemma request_throw (prompt : jsstring) (h : trace) e es :
  request w prompt h = (Throw e, es) ->
  exists res, es = [GenerateContent prompt res]
              /\ broad_step_failed (GenerateContent prompt res) = true.
Proof.
  unfold request. destruct (model_generateContent w h prompt) as [response|e'].
  - destruct (_processApiResponse response) eqn:E; intros H; inversion H; subst.
    eexists. split; [reflexivity|]. simpl. rewrite E. reflexivity.
  - intros H; inversion H; subst. eexists. split; reflexivity.
Qed.

Lemma request_ok (prompt : jsstring) (h : trace) t es :
  request w prompt h = (Ok t, es) ->
  exists res, es = [GenerateContent prompt res]
              /\ broad_step_failed (GenerateContent prompt res) = false.
Proof.
  unfold request. destruct (model_generateContent w h prompt) as [response|e'].
  - destruct (_processApiResponse response) eqn:E; intros H; inversion H; subst.
    eexists. split; [reflexivity|]. simpl. rewrite E. reflexivity.
  - intros H; inversion H.
Qed.

(** Lines 184-196, run. *)
Lemma generateText_run (prompt : jsstring) (h : trace) :
  generateText w prompt h
  = if negb (model_set w) then (Throw (lit "AI service is not available."), [])
    else match request w prompt h with
         | (Ok t, es) => (Ok t, es)
         | (Throw e, es) =>
             (Throw (lit "Failed to generate text response"),
              es ++ [Console (LogGenerateTextError e)])
         end.
Proof.
  unfold generateText, isEnabled. destruct (negb (model_set w)); [reflexivity|].
  unfold try_catch. rewrite request_run.
  destruct (request w prompt h) as [[t|e] es]; reflexivity.
Qed.

(** Lines 152-173, run. *)
Lemma summarizeDocumentContent_run (content query : jsstring) (h : trace) :
  summarizeDocumentContent w content query h
  = if negb (model_set w) then (Ok (lit "AI service is unavailable."), [])
    else match request w (summarization_prompt content query) h with
         | (Ok t, es) => (Ok t, es)
         | (Throw e, es) =>
             (Throw (handleGeminiError w e), es ++ [Console (LogSummarizeError e)])
         end.
Proof.
  unfold summarizeDocumentContent, isEnabled. destruct (negb (model_set w)); [reflexivity|].
  unfold try_catch. rewrite request_run.
  destruct (request w (summarization_prompt content query) h) as [[t|e] es]; reflexivity.
Qed.

(** Lines 126-149, run. *)
Lemma determineQueryType_run (query : jsstring) (h : trace) :
  determineQueryType w query h
  = if negb (model_set w) then (Ok (specific_because "AI disabled"), [])
    else match request w (classification_prompt query) h with
         | (Ok response_text, es) =>
             match match_braces response_text with
             | Some jsonMatch =>
                 match JSON_parse w jsonMatch with
                 | Ok parsed => (Ok parsed, es)
                 | Throw e =>
                     (Ok (specific_because "Error during analysis."),
                      es ++ [Console (LogQueryTypeError e)])
                 end
             | None =>
                 (Ok (specific_because "Could not parse AI response for query type."), es)
             end
         | (Throw e, es) =>
             (Ok (specific_because "Error during analysis."),
              es ++ [Console (LogQueryTypeError e)])
         end.
Proof.
  unfold determineQueryType, isEnabled. destruct (negb (model_set w)); [reflexivity|].
  unfold try_catch, bind, generateContent, call, lift, request.
  destruct (model_generateContent w h (classification_prompt query)) as [response|e];
    [|reflexivity].
  destruct (_processApiResponse response) as [response_text|e]; [|reflexivity].
  destruct (match_braces response_text) as [jsonMatch|]; [|reflexivity].
  destruct (JSON_parse w jsonMatch); simpl; rewrite ?app_nil_r; reflexivity.
Qed.

End WithWorld.






End GeminiFacts.

(* ===================================================================== *)
(** ** The router, run                                                    *)
(* ===================================================================== *)

Module RouterFacts.

Import GeminiAI GeminiFacts HybridRagService.

Section WithWorld.
Variable w : World.

(** Lines 134-146, run: the corrector never throws. *)
Lemma correctAndClarifyQuery_run (query : jsstring) (h : trace) :
  correctAndClarifyQuery w query h
  = if negb (model_set w)
    then (Ok query, [Console (LogCorrectionError (lit "AI service is not available."))])
    else match request w (correction_prompt query) h with
         | (Ok t, es) =>
             (Ok (strip_quotes_and_stars (trim t)),
              es ++ [Console (LogCorrection query (strip_quotes_and_stars (trim t)))])
         | (Throw e, es) =>
             (Ok query,
              es ++ [Console (LogGenerateTextError e);
                     Console (LogCorrectionError (lit "Failed to generate text response"))])
         end.
Proof.
  unfold correctAndClarifyQuery, try_catch, bind. rewrite generateText_run.
  destruct (negb (model_set w)); [reflexivity|].
  destruct (request w (correction_prompt query) h) as [[t|e] es]; simpl.
  - reflexivity.
  - rewrite <- app_assoc. reflexivity.
Qed.

(** The corrector returns, asks the model at most once, with the
    correction prompt for the query it was given, and otherwise only
    writes to the console. *)
Lemma correctAndClarifyQuery_total (query : jsstring) (h : trace) :
  exists corrected es,
    correctAndClarifyQuery w query h = (Ok corrected, es)
    /\ handler_entries es = []
    /\ ((Forall (fun e => is_console e = true) es)
        \/ exists res rest,
             es = GenerateContent (correction_prompt query) res :: rest
             /\ Forall (fun e => is_console e = true) rest).
Proof.
  rewrite correctAndClarifyQuery_run.
  destruct (negb (model_set w)).
  - eexists _, _. split; [reflexivity|]. split; [reflexivity|]. left. repeat constructor.
  - destruct (request_events w (correction_prompt query) h) as [res Hev].
    destruct (request w (correction_prompt query) h) as [[t|e] es]; simpl in Hev; subst es;
      eexists _, _; (split; [reflexivity|]); (split; [reflexivity|]);
      right; eexists _, _; (split; [reflexivity|]); repeat constructor.
Qed.

(** Lines 100-131 when the gate refuses. *)
Lemma fallback_run (correctedQuery userId : jsstring) (fileId : option jsstring)
    (relevantChunks : list RetrievedChunk) (h : trace) :
  isContextSufficient relevantChunks = false ->
  answer_or_fallback w correctedQuery userId fileId relevantChunks h
  = (Ok {| message := if fileId_truthy fileId
                      then file_scoped_fallback else library_wide_fallback;
           searchType := rag_fallback;
           sources := [];
           source_count := None |},
     [Console (LogInsufficient
                 match relevantChunks with
                 | [] => NoRelevantChunks
                 | top :: _ => TopScoreBelowThreshold (score top)
                 end)]).
Proof. intros H. unfold answer_or_fallback. rewrite H. reflexivity. Qed.

(** Lines 100-119 when the gate accepts: the user is looked up, then the
    answer is generated; the result, when there is one, is a RAG answer. *)
Lemma answer_run (correctedQuery userId : jsstring) (fileId : option jsstring)
    (relevantChunks : list RetrievedChunk) (h : trace) :
  isContextSufficient relevantChunks = true ->
  exists r user_res rest,
    answer_or_fallback w correctedQuery userId fileId relevantChunks h
    = (r, Console (LogSufficient (option_map score (hd_error relevantChunks)))
            :: UserFindById userId user_res :: rest)
    /\ handler_entries rest = []
    /\ Forall (fun e => is_search e = false) rest
    /\ (forall res, r = Ok res ->
          searchType res = rag
          /\ sources res = formatSources relevantChunks
          /\ source_count res = Some (array_length relevantChunks)
          /\ exists prompt, In (GenerateContent prompt (* the answer *)
                                  (model_generateContent w
                                     (h ++ [Console (LogSufficient (option_map score (hd_error relevantChunks)));
                                            UserFindById userId user_res]) prompt)) rest).
Proof.
  intros H. unfold answer_or_fallback. rewrite H.
  unfold bind at 1. unfold console at 1.
  unfold bind at 1. unfold call at 1.
  destruct (User_findById w (h ++ [Console (LogSufficient (option_map score (hd_error relevantChunks)))]) userId)
    as [user|e] eqn:Eu.
  - unfold bind at 1. rewrite generateText_run.
    destruct (negb (model_set w)).
    + eexists _, _, _. split; [reflexivity|]. split; [reflexivity|].
      split; [repeat constructor|].
      intros res Hres. discriminate.
    + unfold request.
      match goal with |- context [model_generateContent w ?hh ?pp] =>
        set (h2 := hh); set (prompt := pp) end.
      assert (Hh2 : h2 = h ++ [Console (LogSufficient (option_map score (hd_error relevantChunks)));
                               UserFindById userId (Ok user)]).
      { subst h2. rewrite <- app_assoc. reflexivity. }
      destruct (model_generateContent w h2 prompt) as [response|e] eqn:Eg.
      * destruct (_processApiResponse response) as [t|e] eqn:Ep.
        -- eexists _, _, _. split; [reflexivity|]. split; [reflexivity|].
      split; [repeat constructor|].
           intros res Hres. inversion Hres; subst res. cbn.
           repeat split. exists prompt. left. rewrite <- Hh2, Eg. reflexivity.
        -- eexists _, _, _. split; [reflexivity|]. split; [reflexivity|].
      split; [repeat constructor|].
           intros res Hres. discriminate.
      * eexists _, _, _. split; [reflexivity|]. split; [reflexivity|].
      split; [repeat constructor|].
        intros res Hres. discriminate.
  - eexists _, _, _. split; [reflexivity|]. split; [reflexivity|].
      split; [repeat constructor|].
    intros res Hres. discriminate.
Qed.

End WithWorld.

End RouterFacts.

Module SpecificPath.

Import GeminiAI GeminiFacts HybridRagService RouterFacts.

(** Split a run of [m ;; k] into the run of [m] and the run of [k]. *)
Ltac split_bind H e a es1 es2 Hm Hk :=
  apply bind_inv in H;
  destruct H as [(e & Hm & ->)|(a & es1 & es2 & Hm & Hk & ->)].

Ltac console_ran Hm :=
  unfold console in Hm; inversion Hm; subst; clear Hm.

Section WithWorld.
Variable w : World.

Lemma chunk_lines_enter_no_handler (items : list RetrievedChunk) (i : Z) :
  handler_entries
    (console_lines
       (fun chunk i => LogChunk (i + 1) (score chunk) (substring (content chunk) 0 80))
       items i) = [].
Proof. revert i. induction items; intros i; simpl; auto. Qed.

(** The lines written between the search and the gate, lines 92-98. *)
Lemma report_lines (relevantChunks : list RetrievedChunk) (h : trace) r es :
  (if array_length relevantChunks >? 0 then
     bind (console LogTopChunks)
       (fun _ => forEach (fun chunk i =>
                    console (LogChunk (i + 1) (score chunk) (substring (content chunk) 0 80)))
                  relevantChunks)
   else ret tt) h = (r, es) ->
  r = Ok tt /\ Forall (fun e => is_console e = true) es /\ handler_entries es = [].
Proof.
  destruct (array_length relevantChunks >? 0).
  - unfold bind, console at 1, forEach.
    rewrite (forEach_console
               (fun chunk i => LogChunk (i + 1) (score chunk) (substring (content chunk) 0 80))).
    intros H. inversion H; subst. split; [reflexivity|]. split.
    + constructor; [reflexivity|]. apply console_lines_all_console.
    + cbn [app handler_entries]. apply chunk_lines_enter_no_handler.
  - intros H. inversion H. repeat split; constructor.
Qed.

(** A run of the specific handler: the corrector, the scope line, the
    search; then either the search threw and the error propagates, or
    the chunks are reported and the gate decides. *)
Lemma _handleSpecificQuery_shape (query userId : jsstring) (fileId : option jsstring)
    (h : trace) r es :
  _handleSpecificQuery w query userId fileId h = (r, es) ->
  exists correctedQuery es_c,
    correctAndClarifyQuery w query (h ++ [Console LogHandlingSpecific])
      = (Ok correctedQuery, es_c)
    /\ let filters :=
         {| filter_userId := userId;
            filter_fileId := if fileId_truthy fileId then fileId else None |} in
       let before :=
         Console LogHandlingSpecific
           :: es_c ++ [Console (if fileId_truthy fileId
                                then LogScoping (the_fileId fileId)
                                else LogSearchingAll userId)] in
       (exists e,
          r = Throw e
          /\ es = before ++ [SearchDocuments correctedQuery 5 filters (Throw e)])
       \/ (exists relevantChunks lines h' es2,
             es = before
                  ++ SearchDocuments correctedQuery 5 filters (Ok relevantChunks)
                  :: lines ++ es2
             /\ Forall (fun e => is_console e = true) lines
             /\ handler_entries lines = []
             /\ answer_or_fallback w correctedQuery userId fileId relevantChunks h'
                = (r, es2)).
Proof.
  intros H. unfold _handleSpecificQuery in H.
  split_bind H e0 a0 t0 k0 Hm Hk; [console_ran Hm|]. console_ran Hm.
  destruct (correctAndClarifyQuery_total w query (h ++ [Console LogHandlingSpecific]))
    as (cq & es_c & Ec & _ & _).
  exists cq, es_c. split; [exact Ec|]. cbv zeta.
  split_bind Hk e1 a1 t1 k1 Hm Hk2; [congruence|].
  rewrite Ec in Hm. inversion Hm; subst a1 t1; clear Hm.
  split_bind Hk2 e2 a2 t2 k2 Hm Hk3; [console_ran Hm|]. console_ran Hm.
  split_bind Hk3 e3 chunks t3 k3 Hm Hk4.
  - left. exists e3. split; [reflexivity|].
    unfold call in Hm. inversion Hm as [[Hr He]]. rewrite Hr.
    cbn [app]. rewrite <- app_assoc. reflexivity.
  - right. unfold call in Hm. inversion Hm as [[Hr He]]. clear Hm.
    split_bind Hk4 e4 a4 t4 k4 Hm Hk5; [console_ran Hm|]. console_ran Hm.
    split_bind Hk5 e5 a5 t5 k5 Hm Hk6.
    + apply report_lines in Hm. destruct Hm as [Hm _]. discriminate.
    + apply report_lines in Hm. destruct Hm as (_ & Hc & Hh).
      eexists chunks, (Console (LogFound (array_length chunks)) :: t5), _, k5.
      split; [|split; [|split; [|exact Hk6]]].
      * rewrite Hr. cbn [app]. rewrite <- !app_assoc. reflexivity.
      * constructor; [reflexivity|exact Hc].
      * cbn [handler_entries]. exact Hh.
Qed.

End WithWorld.

End SpecificPath.

Module Retrieval.

Import GeminiAI GeminiFacts HybridRagService RouterFacts SpecificPath.

Lemma console_is_no_search (es : trace) :
  Forall (fun e => is_console e = true) es -> Forall (fun e => is_search e = false) es.
Proof.
  apply Forall_impl. intros [] H; try discriminate; reflexivity.
Qed.

Lemma console_is_no_llm_call (es : trace) :
  Forall (fun e => is_console e = true) es -> Forall (fun e => is_llm_call e = false) es.
Proof.
  apply Forall_impl. intros [] H; try discriminate; reflexivity.
Qed.

Section WithWorld.
Variable w : World.

(** The gate and the answers never search. *)
Lemma answer_or_fallback_no_search cq u f chunks h r es :
  answer_or_fallback w cq u f chunks h = (r, es) ->
  Forall (fun e => is_search e = false) es.
Proof.
  intros H. destruct (isContextSufficient chunks) eqn:G.
  - destruct (answer_run w cq u f chunks h G) as (r' & ures & rest & E & _ & Hs & _).
    rewrite E in H. inversion H; subst. repeat constructor. exact Hs.
  - rewrite (fallback_run w cq u f chunks h G) in H. inversion H. repeat constructor.
Qed.

(** The events of the corrector: an optional request with the
    correction prompt, and console lines. *)
Lemma corrector_events (query : jsstring) (h : trace) cq es_c :
  correctAndClarifyQuery w query h = (Ok cq, es_c) ->
  Forall (fun e => is_search e = false) es_c
  /\ forall p res, In (GenerateContent p res) es_c -> p = correction_prompt query.
Proof.
  intros E.
  destruct (correctAndClarifyQuery_total w query h) as (cq' & es' & E' & _ & Hev).
  rewrite E in E'. inversion E'; subst cq' es'; clear E'.
  destruct Hev as [Hc|(res & rest & -> & Hc)].
  - split; [apply console_is_no_search; exact Hc|].
    intros p res Hin. rewrite Forall_forall in Hc. apply Hc in Hin. discriminate.
  - split; [constructor; [reflexivity|apply console_is_no_search; exact Hc]|].
    intros p res' [Hin|Hin]; [congruence|].
    rewrite Forall_forall in Hc. apply Hc in Hin. discriminate.
Qed.

(** A successful retrieval seen in a run of the specific handler is the
    one search of that run: the corrector ran before it, and after it
    the chunks are reported and the gate decides the outcome. *)
Lemma retrieval_in_run (query userId : jsstring) (fileId : option jsstring) (h : trace)
    r es cq limit filters relevantChunks :
  _handleSpecificQuery w query userId fileId h = (r, es) ->
  In (SearchDocuments cq limit filters (Ok relevantChunks)) es ->
  exists es_c scope_line lines h' es2,
    correctAndClarifyQuery w query (h ++ [Console LogHandlingSpecific]) = (Ok cq, es_c)
    /\ es = (Console LogHandlingSpecific :: es_c ++ [Console scope_line])
            ++ SearchDocuments cq limit filters (Ok relevantChunks) :: lines ++ es2
    /\ Forall (fun e => is_console e = true) lines
    /\ answer_or_fallback w cq userId fileId relevantChunks h' = (r, es2).
Proof.
  intros Hrun Hin.
  destruct (_handleSpecificQuery_shape w query userId fileId h r es Hrun)
    as (cq0 & es_c & Ec & Hshape). cbv zeta in Hshape.
  destruct (corrector_events query _ cq0 es_c Ec) as [Hns _].
  assert (Hbefore : forall scope,
             ~ In (SearchDocuments cq limit filters (Ok relevantChunks))
                 (Console LogHandlingSpecific :: es_c ++ [Console scope])).
  { intros scope [Hx|Hx]; [discriminate|].
    apply in_app_or in Hx. destruct Hx as [Hx|[Hx|[]]]; [|discriminate].
    rewrite Forall_forall in Hns. apply Hns in Hx. discriminate. }
  destruct Hshape as [(e & -> & ->)|(chunks0 & lines & h' & es2 & -> & Hl & _ & Ha)].
  - apply in_app_or in Hin. destruct Hin as [Hx|[Hx|[]]].
    + exfalso. eapply Hbefore; eauto.
    + discriminate.
  - apply in_app_or in Hin. destruct Hin as [Hx|[Hx|Hx]].
    + exfalso. eapply Hbefore; eauto.
    + inversion Hx; subst. eexists es_c, _, lines, h', es2. auto.
    + exfalso. apply in_app_or in Hx. destruct Hx as [Hx|Hx].
      * apply console_is_no_search in Hl. rewrite Forall_forall in Hl.
        apply Hl in Hx. discriminate.
      * pose proof (answer_or_fallback_no_search _ _ _ _ _ _ _ Ha) as Hn.
        rewrite Forall_forall in Hn. apply Hn in Hx. discriminate.
Qed.

End WithWorld.

(** The gate in words: at least one chunk, and a top score strictly
    above the threshold. *)
Lemma gate_iff (relevantChunks : list RetrievedChunk) :
  isContextSufficient relevantChunks = true
  <-> exists top rest,
        relevantChunks = top :: rest
        /\ gt (score top) RAG_CONFIDENCE_THRESHOLD = true.
Proof.
  unfold isContextSufficient. split.
  - destruct relevantChunks as [|top rest].
    + rewrite andb_false_r. discriminate.
    + intros H. apply andb_prop in H. exists top, rest. tauto.
  - intros (top & rest & -> & H). rewrite H.
    unfold array_length. simpl List.length.
    destruct (Z.gtb_spec (Z.of_nat (S (List.length rest))) 0); [reflexivity|lia].
Qed.

End Retrieval.

(* ===================================================================== *)
(** ** Properties of the specific path                                    *)
(* ===================================================================== *)

Section SpecificClaims.

Import GeminiAI GeminiFacts HybridRagService RouterFacts SpecificPath Retrieval.

Variable w : World.

(** C1. In every run of the specific handler in which the retriever
    returned chunks, retrieval is sufficient if and only if there is at
    least one chunk and the score of the first chunk is strictly greater
    than the threshold, which is 0.65. When it is not sufficient the
    result is the fallback; when it is, the answer branch is taken (the
    user is looked up for the personalised prompt) and a result, if any,
    is a RAG answer. A top score of exactly 0.65 is not sufficient, a top
    score of 0.6501 is. *)
Theorem confidence_gate (query userId : jsstring) (fileId : option jsstring) (h : trace)
    r es correctedQuery limit filters relevantChunks :
  _handleSpecificQuery w query userId fileId h = (r, es) ->
  In (SearchDocuments correctedQuery limit filters (Ok relevantChunks)) es ->
  RAG_CONFIDENCE_THRESHOLD = 0.65%float
  /\ (isContextSufficient relevantChunks = true
      <-> exists top rest,
            relevantChunks = top :: rest
            /\ gt (score top) RAG_CONFIDENCE_THRESHOLD = true)
  /\ (isContextSufficient relevantChunks = false ->
        (exists res, r = Ok res /\ searchType res = rag_fallback)
        /\ forall user_res, ~ In (UserFindById userId user_res) es)
  /\ (isContextSufficient relevantChunks = true ->
        (exists user_res, In (UserFindById userId user_res) es)
        /\ forall res, r = Ok res -> searchType res = rag)
  /\ (forall top rest,
        relevantChunks = top :: rest -> score top = 0.65%float ->
        isContextSufficient relevantChunks = false)
  /\ (forall top rest,
        relevantChunks = top :: rest -> score top = 0.6501%float ->
        isContextSufficient relevantChunks = true).
Proof.
  intros Hrun Hin.
  destruct (retrieval_in_run w query userId fileId h r es correctedQuery limit filters
              relevantChunks Hrun Hin)
    as (es_c & scope_line & lines & h' & es2 & Ec & Hes & Hl & Ha).
  split; [reflexivity|]. split; [apply gate_iff|].
  split; [|split; [|split]].
  - intros G. rewrite (fallback_run w _ _ _ _ h' G) in Ha. inversion Ha; subst r es2.
    split; [eexists; split; reflexivity|].
    intros user_res Hu. rewrite Hes in Hu.
    apply in_app_or in Hu. destruct Hu as [[Hu|Hu]|[Hu|Hu]]; try discriminate.
    + apply in_app_or in Hu. destruct Hu as [Hu|[Hu|[]]]; [|discriminate].
      destruct (correctAndClarifyQuery_total w query (h ++ [Console LogHandlingSpecific]))
        as (cq' & es' & E' & _ & Hev).
      rewrite Ec in E'. inversion E'; subst cq' es'.
      destruct Hev as [Hc|(res & rest & -> & Hc)].
      * rewrite Forall_forall in Hc. apply Hc in Hu. discriminate.
      * destruct Hu as [Hu|Hu]; [discriminate|].
        rewrite Forall_forall in Hc. apply Hc in Hu. discriminate.
    + apply in_app_or in Hu. destruct Hu as [Hu|[Hu|[]]]; [|discriminate].
      rewrite Forall_forall in Hl. apply Hl in Hu. discriminate.
  - intros G.
    destruct (answer_run w correctedQuery userId fileId relevantChunks h' G)
      as (r' & user_res & rest & E & _ & _ & Hres).
    rewrite E in Ha. inversion Ha; subst r' es2. split.
    + exists user_res. rewrite Hes. apply in_or_app. right. right.
      apply in_or_app. right. right. left. reflexivity.
    + intros res Hr. apply (Hres res Hr).
  - intros top rest -> Hs. unfold isContextSufficient. rewrite Hs.
    apply andb_false_r.
  - intros top rest -> Hs. apply gate_iff. exists top, rest.
    split; [reflexivity|]. rewrite Hs. reflexivity.
Qed.

(** C6. In every run of the specific handler in which the retriever
    returned chunks that the gate judges insufficient, the result is the
    fallback: search type [rag_fallback], no sources, and a fixed message
    which names the selected document when a [fileId] is given and the
    uploaded documents otherwise. Nothing is asked of the generative
    model after the search; the only request of the run, if any, is the
    corrector's, made before the search. *)
Theorem fallback_without_generation (query userId : jsstring) (fileId : option jsstring)
    (h : trace) r es correctedQuery limit filters relevantChunks :
  _handleSpecificQuery w query userId fileId h = (r, es) ->
  In (SearchDocuments correctedQuery limit filters (Ok relevantChunks)) es ->
  isContextSufficient relevantChunks = false ->
  r = Ok {| message := if fileId_truthy fileId
                       then file_scoped_fallback else library_wide_fallback;
            searchType := rag_fallback;
            sources := [];
            source_count := None |}
  /\ (exists before after,
        es = before ++ SearchDocuments correctedQuery limit filters (Ok relevantChunks)
                    :: after
        /\ Forall (fun e => is_llm_call e = false) after)
  /\ (forall prompt res,
        In (GenerateContent prompt res) es -> prompt = correction_prompt query)
  /\ includes file_scoped_fallback (lit "selected document") = true
  /\ includes file_scoped_fallback (lit "uploaded documents") = false
  /\ includes library_wide_fallback (lit "uploaded documents") = true
  /\ includes library_wide_fallback (lit "selected document") = false.
Proof.
  intros Hrun Hin G.
  destruct (retrieval_in_run w query userId fileId h r es correctedQuery limit filters
              relevantChunks Hrun Hin)
    as (es_c & scope_line & lines & h' & es2 & Ec & Hes & Hl & Ha).
  rewrite (fallback_run w _ _ _ _ h' G) in Ha. inversion Ha; subst r es2.
  split; [reflexivity|]. split; [|split].
  - eexists _, _. split; [exact Hes|].
    apply Forall_app. split; [apply console_is_no_llm_call; exact Hl|].
    repeat constructor.
  - intros prompt res Hp. rewrite Hes in Hp.
    destruct (corrector_events w query _ _ _ Ec) as [_ Hprompt].
    apply in_app_or in Hp. destruct Hp as [[Hp|Hp]|[Hp|Hp]]; try discriminate.
    + apply in_app_or in Hp. destruct Hp as [Hp|[Hp|[]]]; [|discriminate].
      eapply Hprompt; eauto.
    + apply in_app_or in Hp. destruct Hp as [Hp|[Hp|[]]]; [|discriminate].
      rewrite Forall_forall in Hl. apply Hl in Hp. discriminate.
  - repeat split; vm_compute; reflexivity.
Qed.

End SpecificClaims.

(* ===================================================================== *)
(** ** The broad path and the classifier, run                             *)
(* ===================================================================== *)

Module BroadPath.

Import GeminiAI GeminiFacts HybridRagService RouterFacts.

Section WithWorld.
Variable w : World.

(** Without a usable [fileId] the broad handler asks for one. *)
Lemma _handleBroadQuery_requires_file (query userId : jsstring) (fileId : option jsstring)
    (h : trace) :
  fileId_truthy fileId = false ->
  exists res,
    _handleBroadQuery w query userId fileId h = (Ok res, [Console LogHandlingBroad])
    /\ searchType res = summary_requires_file.
Proof.
  intros Hf. unfold _handleBroadQuery, bind, console. rewrite Hf. cbn.
  eexists. split; reflexivity.
Qed.

(** With a [fileId]: the handler always returns a result; it enters no
    other handler; it asks the model with the summarization prompt only;
    and a failed interaction makes the result the error answer. *)
Lemma _handleBroadQuery_scoped (query userId : jsstring) (fileId : option jsstring)
    (h : trace) :
  fileId_truthy fileId = true ->
  exists res es,
    _handleBroadQuery w query userId fileId h = (Ok res, es)
    /\ handler_entries es = [Broad]
    /\ (forall prompt r, In (GenerateContent prompt r) es ->
          exists fileContent, prompt = summarization_prompt fileContent query)
    /\ (Exists (fun e => broad_step_failed e = true) es ->
          searchType res = summary_error
          /\ sources res = []
          /\ message res
             = lit "I encountered an error while trying to summarize the document. Please try again.").
Proof.
  intros Hf. unfold _handleBroadQuery. unfold bind at 1. unfold console at 1.
  rewrite Hf. cbn [negb]. unfold try_catch, bind at 1. unfold call at 1.
  set (h1 := h ++ [Console LogHandlingBroad]).
  destruct (File_findOne w h1 (the_fileId fileId) userId) as [[file|]|e] eqn:Ef.
  2, 3: (eexists _, _; split; [reflexivity|]; split; [reflexivity|]; split;
         [intros prompt r [Hx|[Hx|[Hx|[]]]]; discriminate
         |intros _; repeat split]).
  unfold bind at 1. unfold call at 1.
  set (h2 := h1 ++ _).
  destruct (documentProcessor_parseFile w h2 (path file)) as [fileContent|e] eqn:Ep.
  2: (eexists _, _; split; [reflexivity|]; split; [reflexivity|]; split;
      [intros prompt r [Hx|[Hx|[Hx|[Hx|[]]]]]; discriminate
      |intros _; repeat split]).
  destruct (negb (truthy fileContent) || (JS.length (trim fileContent) <? 100)) eqn:Ec.
  { eexists _, _. split; [reflexivity|]. split; [reflexivity|]. split.
    - intros prompt r [Hx|[Hx|[Hx|[]]]]; discriminate.
    - intros Hex. exfalso.
      inversion Hex as [? ? H1|? ? H1]; subst; [discriminate|].
      inversion H1 as [? ? H2|? ? H2]; subst; [discriminate|].
      inversion H2 as [? ? H3|? ? H3]; subst; [discriminate|].
      inversion H3. }
  unfold bind at 1. rewrite summarizeDocumentContent_run.
  destruct (negb (model_set w)).
  { eexists _, _. split; [reflexivity|]. split; [reflexivity|]. split.
    - intros prompt r [Hx|[Hx|[Hx|[]]]]; discriminate.
    - intros Hex. exfalso.
      inversion Hex as [? ? H1|? ? H1]; subst; [discriminate|].
      inversion H1 as [? ? H2|? ? H2]; subst; [discriminate|].
      inversion H2 as [? ? H3|? ? H3]; subst; [discriminate|].
      inversion H3. }
  set (h3 := h2 ++ _).
  destruct (request w (summarization_prompt fileContent query) h3) as [[t|e] es] eqn:Er.
  - destruct (request_ok w _ _ _ _ Er) as (res & -> & Hok).
    eexists _, _. split; [reflexivity|]. split; [reflexivity|]. split.
    + intros prompt r [Hx|[Hx|[Hx|[Hx|[]]]]]; try discriminate.
      inversion Hx. exists fileContent. reflexivity.
    + intros Hex. exfalso.
      inversion Hex as [? ? H1|? ? H1]; subst; [discriminate|].
      inversion H1 as [? ? H2|? ? H2]; subst; [discriminate|].
      inversion H2 as [? ? H3|? ? H3]; subst; [discriminate|].
      inversion H3 as [? ? H4|? ? H4]; subst; [congruence|].
      inversion H4.
  - destruct (request_throw w _ _ _ _ Er) as (res & -> & Hbad).
    eexists _, _. split; [reflexivity|]. split; [reflexivity|]. split.
    + intros prompt r [Hx|[Hx|[Hx|[Hx|[Hx|[Hx|[]]]]]]]; try discriminate.
      inversion Hx. exists fileContent. reflexivity.
    + intros _. repeat split.
Qed.

(** Whatever the [fileId], the broad handler returns a result and is the
    only handler entered. *)
Lemma _handleBroadQuery_total (query userId : jsstring) (fileId : option jsstring)
    (h : trace) :
  exists res es,
    _handleBroadQuery w query userId fileId h = (Ok res, es)
    /\ handler_entries es = [Broad]
    /\ (forall prompt r, In (GenerateContent prompt r) es ->
          exists fileContent, prompt = summarization_prompt fileContent query).
Proof.
  destruct (fileId_truthy fileId) eqn:Hf.
  - destruct (_handleBroadQuery_scoped query userId fileId h Hf)
      as (res & es & E & He & Hp & _). eauto 6.
  - destruct (_handleBroadQuery_requires_file query userId fileId h Hf) as (res & E & _).
    exists res, [Console LogHandlingBroad]. split; [exact E|]. split; [reflexivity|].
    intros prompt r [Hx|[]]. discriminate.
Qed.

(** The classifier always returns an analysis; it enters no handler and
    asks the model with the classification prompt for the query it was
    given, as its first action when the model is set. *)
Lemma determineQueryType_total (query : jsstring) (h : trace) :
  exists queryAnalysis es,
    determineQueryType w query h = (Ok queryAnalysis, es)
    /\ handler_entries es = []
    /\ (forall prompt r, In (GenerateContent prompt r) es ->
          prompt = classification_prompt query)
    /\ (if model_set w
        then exists r rest, es = GenerateContent (classification_prompt query) r :: rest
        else es = []).
Proof.
  rewrite determineQueryType_run.
  destruct (model_set w) eqn:Hm; cbn [negb].
  2: { eexists _, _. split; [reflexivity|]. split; [reflexivity|].
       split; [intros ? ? []|reflexivity]. }
  destruct (request_events w (classification_prompt query) h) as [res Hev].
  destruct (request w (classification_prompt query) h) as [[t|e] es];
    simpl in Hev; subst es.
  - destruct (match_braces t) as [m|].
    + destruct (JSON_parse w m);
        (eexists _, _; split; [reflexivity|]; split; [reflexivity|]; split;
         [intros prompt r [Hx|Hx];
            [inversion Hx; reflexivity|try destruct Hx as [Hx|[]]; try discriminate; destruct Hx]
         |eexists _, _; reflexivity]).
    + eexists _, _. split; [reflexivity|]. split; [reflexivity|]. split.
      * intros prompt r [Hx|[]]. inversion Hx; reflexivity.
      * eexists _, _. reflexivity.
  - eexists _, _. split; [reflexivity|]. split; [reflexivity|]. split.
    + intros prompt r [Hx|[Hx|[]]]; [inversion Hx; reflexivity|discriminate].
    + eexists _, _. reflexivity.
Qed.

End WithWorld.

End BroadPath.

Module Routing.

Import GeminiAI GeminiFacts HybridRagService RouterFacts SpecificPath Retrieval BroadPath.

Lemma eqb_eq (a b : jsstring) : JS.eqb a b = true <-> a = b.
Proof.
  revert b. induction a as [|x a IH]; intros [|y b]; simpl; split; try congruence; auto.
  - intros H. apply andb_prop in H. destruct H as [H1 H2].
    apply N.eqb_eq in H1. apply IH in H2. congruence.
  - intros H. inversion H; subst. rewrite N.eqb_refl. apply IH. reflexivity.
Qed.

(** The strict comparison with a string literal holds for that very
    string and for nothing else. *)
Lemma strict_eq_string_iff (v : option json) (s : jsstring) :
  strict_eq_string v s = true <-> v = Some (JString s).
Proof.
  unfold strict_eq_string. destruct v as [[]|]; split; try congruence.
  - intros H. apply eqb_eq in H. congruence.
  - intros H. inversion H. apply eqb_eq. reflexivity.
Qed.

(** The three prompts differ by their first code unit already. *)
Lemma correction_is_not_classification (x query : jsstring) :
  correction_prompt x <> classification_prompt query.
Proof. intros H. apply (f_equal (hd 0%N)) in H. vm_compute in H. discriminate. Qed.

Lemma correction_is_not_summarization (x fileContent query : jsstring) :
  correction_prompt x <> summarization_prompt fileContent query.
Proof. intros H. apply (f_equal (hd 0%N)) in H. vm_compute in H. discriminate. Qed.

Section WithWorld.
Variable w : World.

Lemma answer_or_fallback_entries cq u f chunks h r es :
  answer_or_fallback w cq u f chunks h = (r, es) -> handler_entries es = [].
Proof.
  intros H. destruct (isContextSufficient chunks) eqn:G.
  - destruct (answer_run w cq u f chunks h G) as (r' & ures & rest & E & He & _).
    rewrite E in H. inversion H; subst. exact He.
  - rewrite (fallback_run w cq u f chunks h G) in H. inversion H. reflexivity.
Qed.

(** A run of the specific handler enters that handler and no other, and
    starts with the corrector, asked about the query as the handler
    received it. *)
Lemma _handleSpecificQuery_entries (query userId : jsstring) (fileId : option jsstring)
    (h : trace) r es :
  _handleSpecificQuery w query userId fileId h = (r, es) ->
  handler_entries es = [Specific]
  /\ exists cq es_c rest,
       correctAndClarifyQuery w query (h ++ [Console LogHandlingSpecific]) = (Ok cq, es_c)
       /\ es = Console LogHandlingSpecific :: es_c ++ rest.
Proof.
  intros H.
  destruct (_handleSpecificQuery_shape w query userId fileId h r es H)
    as (cq & es_c & Ec & Hshape). cbv zeta in Hshape.
  destruct (correctAndClarifyQuery_total w query (h ++ [Console LogHandlingSpecific]))
    as (cq' & es' & E' & Hent & _).
  rewrite Ec in E'. inversion E'; subst cq' es'; clear E'.
  assert (Hscope : handler_entries
                     [Console (if fileId_truthy fileId
                               then LogScoping (the_fileId fileId)
                               else LogSearchingAll userId)] = [])
    by (destruct (fileId_truthy fileId); reflexivity).
  destruct Hshape as [(e & -> & ->)|(chunks & lines & h' & es2 & -> & _ & Hl & Ha)].
  - split.
    + cbn [app handler_entries]. rewrite !handler_entries_app, Hent, Hscope. reflexivity.
    + exists cq, es_c. eexists. split; [exact Ec|].
      cbn [app]. rewrite <- app_assoc. reflexivity.
  - split.
    + cbn [app handler_entries]. rewrite !handler_entries_app, Hent, Hscope.
      cbn [app handler_entries]. rewrite handler_entries_app, Hl.
      rewrite (answer_or_fallback_entries _ _ _ _ _ _ _ Ha). reflexivity.
    + exists cq, es_c. eexists. split; [exact Ec|].
      cbn [app]. rewrite <- app_assoc. reflexivity.
Qed.

(** The two outcomes of line 16. *)
Lemma printable_true (queryAnalysis : object) :
  printable queryAnalysis = true ->
  interpolation_throws (get_prop queryAnalysis (lit "type"))
  || interpolation_throws (get_prop queryAnalysis (lit "reason")) = false.
Proof.
  unfold printable.
  destruct (interpolation_throws (get_prop queryAnalysis (lit "type")));
    destruct (interpolation_throws (get_prop queryAnalysis (lit "reason")));
    cbn; congruence.
Qed.

Lemma printable_false (queryAnalysis : object) :
  printable queryAnalysis = false ->
  interpolation_throws (get_prop queryAnalysis (lit "type"))
  || interpolation_throws (get_prop queryAnalysis (lit "reason")) = true.
Proof.
  unfold printable.
  destruct (interpolation_throws (get_prop queryAnalysis (lit "type")));
    destruct (interpolation_throws (get_prop queryAnalysis (lit "reason")));
    cbn; congruence.
Qed.

(** Lines 11-24, run: the classifier, the console line, one handler. *)
Lemma processQuery_run (query userId : jsstring) (fileId : option jsstring) (h : trace)
    queryAnalysis es0 :
  determineQueryType w query h = (Ok queryAnalysis, es0) ->
  printable queryAnalysis = true ->
  let line := Console (LogClassified (get_prop queryAnalysis (lit "type"))
                                     (get_prop queryAnalysis (lit "reason"))) in
  let chosen :=
    if strict_eq_string (get_prop queryAnalysis (lit "type")) (lit "broad")
    then _handleBroadQuery w query userId fileId
    else _handleSpecificQuery w query userId fileId in
  processQuery w query userId fileId h
  = (fst (chosen ((h ++ es0) ++ [line])), es0 ++ line :: snd (chosen ((h ++ es0) ++ [line]))).
Proof.
  intros E Hp. cbv zeta. unfold processQuery.
  rewrite (bind_ok _ _ _ _ _ E). unfold bind at 1 2. unfold log_classification.
  rewrite (printable_true _ Hp). unfold console at 1 2.
  destruct (strict_eq_string (get_prop queryAnalysis (lit "type")) (lit "broad"));
    match goal with |- context [let (_, _) := ?x in _] => destruct x end; reflexivity.
Qed.

(** Lines 11-16, run: the classifier, then the TypeError of the log line;
    neither handler is reached. *)
Lemma processQuery_unprintable (query userId : jsstring) (fileId : option jsstring)
    (h : trace) queryAnalysis es0 :
  determineQueryType w query h = (Ok queryAnalysis, es0) ->
  printable queryAnalysis = false ->
  processQuery w query userId fileId h = (Throw cannot_convert, es0).
Proof.
  intros E Hp. unfold processQuery.
  rewrite (bind_ok _ _ _ _ _ E). unfold bind at 1. unfold log_classification.
  rewrite (printable_false _ Hp). unfold throw. rewrite app_nil_r. reflexivity.
Qed.

End WithWorld.

End Routing.

(* ===================================================================== *)
(** ** Properties of the router and of the classifier                     *)
(* ===================================================================== *)

Section RouterClaims.

Import GeminiAI GeminiFacts HybridRagService RouterFacts SpecificPath Retrieval.
Import BroadPath Routing.

Variable w : World.

(** C7. A broad query that carries a [fileId] always gets a result from
    the handler, never an exception; and when resolving the file, reading
    its text or summarizing it went wrong (the lookup threw or found
    nothing, the parser threw, the model threw or its response was
    rejected), that result has search type [summary_error], no sources
    and the fixed apology as its message. *)
Theorem broad_failure_becomes_summary_error (query userId : jsstring)
    (fileId : option jsstring) (h : trace) :
  fileId_truthy fileId = true ->
  exists res es,
    _handleBroadQuery w query userId fileId h = (Ok res, es)
    /\ (Exists (fun e => broad_step_failed e = true) es ->
          searchType res = summary_error
          /\ sources res = []
          /\ message res
             = lit "I encountered an error while trying to summarize the document. Please try again.").
Proof.
  intros Hf.
  destruct (_handleBroadQuery_scoped w query userId fileId h Hf)
    as (res & es & E & _ & _ & Herr).
  exists res, es. split; assumption.
Qed.

(** C8, as the code has it: the classifier runs first and is asked about
    the query as the user wrote it; nothing is corrected before or during
    classification. The corrector runs only when the specific handler is
    chosen, as the first action of that handler, and is asked about the
    same uncorrected query; when the broad handler is chosen no
    correction is requested at all. When the analysis cannot be printed,
    the log line that follows the classification throws its TypeError:
    the run is the classification alone, and no correction is requested
    either. *)
Theorem classifier_runs_before_corrector (query userId : jsstring)
    (fileId : option jsstring) (h : trace) :
  exists queryAnalysis es0,
    determineQueryType w query h = (Ok queryAnalysis, es0)
    /\ (if model_set w
        then exists r rest, es0 = GenerateContent (classification_prompt query) r :: rest
        else es0 = [])
    /\ (forall x r, ~ In (GenerateContent (correction_prompt x) r) es0)
    /\ let line := Console (LogClassified (get_prop queryAnalysis (lit "type"))
                                          (get_prop queryAnalysis (lit "reason"))) in
       let es := snd (processQuery w query userId fileId h) in
       if negb (printable queryAnalysis)
       then processQuery w query userId fileId h = (Throw cannot_convert, es0)
            /\ forall x r, ~ In (GenerateContent (correction_prompt x) r) es
       else if strict_eq_string (get_prop queryAnalysis (lit "type")) (lit "broad")
       then (exists rest, es = es0 ++ line :: rest)
            /\ forall x r, ~ In (GenerateContent (correction_prompt x) r) es
       else exists corrected es_c rest,
              correctAndClarifyQuery w query
                (((h ++ es0) ++ [line]) ++ [Console LogHandlingSpecific])
              = (Ok corrected, es_c)
              /\ es = es0 ++ line :: Console LogHandlingSpecific :: es_c ++ rest.
Proof.
  destruct (determineQueryType_total w query h) as (qa & es0 & E & _ & Hp & Hfirst).
  exists qa, es0. split; [exact E|]. split; [exact Hfirst|].
  assert (Hnc : forall x r, ~ In (GenerateContent (correction_prompt x) r) es0).
  { intros x r Hin. apply Hp in Hin. exact (correction_is_not_classification _ _ Hin). }
  split; [exact Hnc|]. cbv zeta.
  destruct (printable qa) eqn:Hq; cbn [negb].
  2: { rewrite (processQuery_unprintable w query userId fileId h qa es0 E Hq).
       split; [reflexivity|exact Hnc]. }
  rewrite (processQuery_run w query userId fileId h qa es0 E Hq). cbv zeta. cbn [snd].
  destruct (strict_eq_string (get_prop qa (lit "type")) (lit "broad")).
  - split; [eexists; reflexivity|].
    intros x r Hin.
    match type of Hin with context [_handleBroadQuery w query userId fileId ?hh] =>
      destruct (_handleBroadQuery_total w query userId fileId hh)
        as (res & esb & Eb & _ & Hsum) end.
    rewrite Eb in Hin. cbn [snd] in Hin.
    apply in_app_or in Hin. destruct Hin as [Hin|[Hin|Hin]].
    + exact (Hnc _ _ Hin).
    + discriminate.
    + apply Hsum in Hin. destruct Hin as [fileContent Hin].
      exact (correction_is_not_summarization _ _ _ Hin).
  - match goal with |- context [_handleSpecificQuery w query userId fileId ?hh] =>
      destruct (_handleSpecificQuery w query userId fileId hh) as [r es1] eqn:Es end.
    destruct (_handleSpecificQuery_entries w _ _ _ _ _ _ Es)
      as (_ & cq & es_c & rest & Ec & ->).
    exists cq, es_c, rest. split; [exact Ec|reflexivity].
Qed.



End RouterClaims.

(* ===================================================================== *)
(** ** Concrete runs                                                      *)
(* ===================================================================== *)

(** C1 on a run: the model corrects the query, the search returns one chunk
    with score 0.9, the gate accepts and the user is looked up. *)
Lemma confidence_gate_witness :
  let w := Scenario.world true (lit "database schema") (Ok None)
             [Scenario.confident_chunk] in
  let run := HybridRagService._handleSpecificQuery w (lit "databse schema") (lit "u1")
               None [] in
  In (SearchDocuments (lit "database schema") 5
        {| filter_userId := lit "u1"; filter_fileId := None |}
        (Ok [Scenario.confident_chunk])) (snd run)
  /\ HybridRagService.isContextSufficient [Scenario.confident_chunk] = true
  /\ exists user_res, In (UserFindById (lit "u1") user_res) (snd run).
Proof.
  cbv zeta.
  set (w := Scenario.world true (lit "database schema") (Ok None)
              [Scenario.confident_chunk]).
  set (run := HybridRagService._handleSpecificQuery w (lit "databse schema") (lit "u1")
                None []).
  assert (Hin : In (SearchDocuments (lit "database schema") 5
                      {| filter_userId := lit "u1"; filter_fileId := None |}
                      (Ok [Scenario.confident_chunk])) (snd run))
    by (vm_compute; repeat (first [left; reflexivity | right])).
  assert (Hgate : HybridRagService.isContextSufficient [Scenario.confident_chunk] = true)
    by reflexivity.
  split; [exact Hin|split; [exact Hgate|]].
  destruct (confidence_gate w (lit "databse schema") (lit "u1") None [] (fst run) (snd run)
              _ _ _ _ (surjective_pairing run) Hin)
    as (_ & _ & _ & Hsuff & _).
  exact (proj1 (Hsuff Hgate)).
Defined.

(** C6 on a run: a file-scoped query, one chunk with score 0.65 exactly. *)
Lemma fallback_without_generation_witness :
  let w := Scenario.world true (lit "database schema") (Ok None) [Scenario.weak_chunk] in
  let run := HybridRagService._handleSpecificQuery w (lit "databse schema") (lit "u1")
               (Some (lit "f1")) [] in
  In (SearchDocuments (lit "database schema") 5
        {| filter_userId := lit "u1"; filter_fileId := Some (lit "f1") |}
        (Ok [Scenario.weak_chunk])) (snd run)
  /\ HybridRagService.isContextSufficient [Scenario.weak_chunk] = false
  /\ fst run = Ok {| message := HybridRagService.file_scoped_fallback;
                     searchType := rag_fallback;
                     sources := [];
                     source_count := None |}.
Proof.
  cbv zeta.
  set (w := Scenario.world true (lit "database schema") (Ok None) [Scenario.weak_chunk]).
  set (run := HybridRagService._handleSpecificQuery w (lit "databse schema") (lit "u1")
                (Some (lit "f1")) []).
  assert (Hin : In (SearchDocuments (lit "database schema") 5
                      {| filter_userId := lit "u1"; filter_fileId := Some (lit "f1") |}
                      (Ok [Scenario.weak_chunk])) (snd run))
    by (vm_compute; repeat (first [left; reflexivity | right])).
  assert (Hgate : HybridRagService.isContextSufficient [Scenario.weak_chunk] = false)
    by reflexivity.
  split; [exact Hin|split; [exact Hgate|]].
  exact (proj1 (fallback_without_generation w (lit "databse schema") (lit "u1")
                  (Some (lit "f1")) [] (fst run) (snd run) _ _ _ _
                  (surjective_pairing run) Hin Hgate)).
Defined.

(** C7 on a run: the file lookup throws. *)
Lemma broad_failure_becomes_summary_error_witness :
  let w := Scenario.world true Scenario.broad_json (Throw (lit "connection lost")) [] in
  HybridRagService.fileId_truthy (Some (lit "f1")) = true
  /\ exists res es,
       HybridRagService._handleBroadQuery w (lit "summarize this") (lit "u1")
         (Some (lit "f1")) [] = (Ok res, es)
       /\ Exists (fun e => broad_step_failed e = true) es
       /\ searchType res = summary_error.
Proof.
  cbv zeta.
  assert (Hf : HybridRagService.fileId_truthy (Some (lit "f1")) = true) by reflexivity.
  split; [exact Hf|].
  destruct (broad_failure_becomes_summary_error
              (Scenario.world true Scenario.broad_json (Throw (lit "connection lost")) [])
              (lit "summarize this") (lit "u1") (Some (lit "f1")) [] Hf)
    as (res & es & E & Herr).
  exists res, es. split; [exact E|].
  assert (Hex : Exists (fun e => broad_step_failed e = true) es).
  { vm_compute in E. inversion E. apply Exists_cons_tl. apply Exists_cons_hd. reflexivity. }
  split; [exact Hex|]. exact (proj1 (Herr Hex)).
Defined.


(** C8 refuted as worded: the model answers that the query is broad and no
    file is selected. The run is the classification request, made with the
    query as the user wrote it, and two console lines; the corrector is
    never asked. *)
Lemma corrector_runs_first_fails :
  ~ corrector_runs_first
      (Scenario.world true Scenario.broad_json (Ok None) [])
      (lit "sumarize this") (lit "u1") None [].
Proof.
  intros H.
  set (w := Scenario.world true Scenario.broad_json (Ok None) []) in *.
  destruct (H _ _ (surjective_pairing
                     (HybridRagService.processQuery w (lit "sumarize this") (lit "u1")
                        None [])))
    as (corrected & before & after & res & Hes & res' & Hin).
  assert (Hrun : snd (HybridRagService.processQuery w (lit "sumarize this") (lit "u1") None [])
                 = [ GenerateContent (GeminiAI.classification_prompt (lit "sumarize this"))
                       (Ok (Scenario.stop_response Scenario.broad_json));
                     Console (LogClassified (Some (JString (lit "broad")))
                                (Some (JString (lit "asks for an overview"))));
                     Console LogHandlingBroad ])
    by (vm_compute; reflexivity).
  rewrite Hrun in Hes. clear Hrun.
  destruct before as [|e0 before]; [destruct Hin|].
  destruct before as [|e1 before]; [discriminate Hes|].
  destruct before as [|e2 before]; [discriminate Hes|].
  destruct before as [|e3 before]; discriminate Hes.
Qed.



(* ===================================================================== *)
(** ** More on the chunker                                                *)
(* ===================================================================== *)

Module ChunkerWindows.

Import DocumentProcessor ChunkerFacts ChunkerLoop.

Lemma trimStart_length (s : jsstring) : JS.length (trimStart s) <= JS.length s.
Proof.
  induction s as [|c s IH]; [unfold JS.length; simpl; lia|].
  cbn [trimStart]. destruct (is_whitespace c); [|lia].
  unfold JS.length in *. simpl List.length. lia.
Qed.

Lemma trim_length (s : jsstring) : JS.length (trim s) <= JS.length s.
Proof.
  unfold trim, trimEnd.
  pose proof (trimStart_length s) as H1.
  pose proof (trimStart_length (rev (trimStart s))) as H2.
  unfold JS.length in *. rewrite length_rev in *. lia.
Qed.

Lemma trim_blank (s : jsstring) :
  Forall (fun c => is_whitespace c = true) s -> trim s = [].
Proof.
  intros H. assert (Hs : trimStart s = []).
  { induction H as [|c s Hc _ IH]; [reflexivity|]. cbn [trimStart]. rewrite Hc. exact IH. }
  unfold trim, trimEnd. rewrite Hs. reflexivity.
Qed.

(** The header has 30 code units besides the file name. *)
Lemma chunkWithContext_length (filename sl : jsstring) :
  JS.length (chunkWithContext filename sl)
  = 30 + JS.length filename + JS.length (trim sl).
Proof.
  unfold chunkWithContext. rewrite !length_app_Z.
  change (JS.length (lit "Source Document: ")) with 17.
  change (JS.length (lit "Content: ")) with 9.
  change (JS.length dq) with 1. change (JS.length nl) with 1. lia.
Qed.

(** The loop pushes one chunk per start index it goes through. *)
Lemma chunk_loop_follows_starts (fuel : nat) dp text filename startIndex i chunks :
  chunk_loop fuel dp text filename startIndex i chunks
  = option_map (fun starts => chunks ++ chunks_at dp text filename starts i)
      (window_starts fuel dp text startIndex).
Proof.
  revert startIndex i chunks. induction fuel as [|fuel IH]; intros startIndex i chunks.
  - cbn [chunk_loop window_starts].
    destruct (startIndex <? JS.length text); [reflexivity|].
    cbn. rewrite app_nil_r. reflexivity.
  - cbn [chunk_loop window_starts].
    destruct (startIndex <? JS.length text).
    + rewrite IH.
      destruct (window_starts fuel dp text
                  (next_start dp startIndex (window dp text startIndex))) as [starts|];
        [|reflexivity].
      cbn [option_map chunks_at]. rewrite <- app_assoc. reflexivity.
    + cbn. rewrite app_nil_r. reflexivity.
Qed.

Lemma chunks_at_nth dp text filename (starts : list Z) (i k : nat) :
  nth_error (chunks_at dp text filename starts i) k
  = option_map (fun s => make_chunk filename (window dp text s) (i + k))
      (nth_error starts k).
Proof.
  revert i k. induction starts as [|s starts IH]; intros i [|k]; try reflexivity.
  - cbn. rewrite Nat.add_0_r. reflexivity.
  - cbn [chunks_at nth_error]. rewrite IH. rewrite Nat.add_succ_r. reflexivity.
Qed.

Lemma chunks_at_length dp text filename (starts : list Z) (i : nat) :
  List.length (chunks_at dp text filename starts i) = List.length starts.
Proof. revert i. induction starts; intros i; simpl; auto. Qed.

Lemma chunks_at_headers dp text filename (starts : list Z) (i : nat) :
  Forall (fun c => exists s, pageContent c = 83%N :: s) (chunks_at dp text filename starts i).
Proof.
  revert i. induction starts; intros i; constructor; auto. apply make_chunk_header.
Qed.

(** The start indices of a loop that ends stay inside the text, and the
    windows at these indices leave no index of the text out. *)
Lemma window_starts_cover (dp : t) (text : jsstring) :
  0 < chunkSize dp -> 0 <= chunkOverlap dp ->
  forall (fuel : nat) (startIndex : Z) (starts : list Z),
    0 <= startIndex ->
    window_starts fuel dp text startIndex = Some starts ->
    Forall (fun s => startIndex <= s < JS.length text) starts
    /\ forall i, startIndex <= i < JS.length text ->
         exists s, In s starts /\ s <= i < s + JS.length (window dp text s).
Proof.
  intros Hs Ho. induction fuel as [|fuel IH]; intros startIndex starts H0 E.
  - cbn [window_starts] in E.
    destruct (Z.ltb_spec startIndex (JS.length text)); [discriminate|].
    inversion E. split; [constructor|]. intros i Hi. lia.
  - cbn [window_starts] in E.
    destruct (Z.ltb_spec startIndex (JS.length text)) as [Hlt|Hge].
    2: { inversion E. split; [constructor|]. intros i Hi. lia. }
    pose proof (step_progress dp text startIndex Hs Ho (conj H0 Hlt)) as Hp.
    pose proof (window_length dp text startIndex Hs (conj H0 Hlt)) as Hw.
    assert (Hnext : next_start dp startIndex (window dp text startIndex)
                    <= startIndex + JS.length (window dp text startIndex)).
    { rewrite next_start_closed_form.
      destruct (Z.leb_spec (JS.length (window dp text startIndex)) (chunkOverlap dp)); lia. }
    destruct (window_starts fuel dp text
                (next_start dp startIndex (window dp text startIndex)))
      as [rest|] eqn:Er; [|discriminate].
    inversion E; subst starts; clear E.
    assert (Hn0 : 0 <= next_start dp startIndex (window dp text startIndex)) by lia.
    destruct (IH _ _ Hn0 Er) as [Hin Hcov]. split.
    + constructor; [lia|]. eapply Forall_impl; [|exact Hin]. cbn. intros s Hs'. lia.
    + intros i Hi.
      destruct (Z.lt_ge_cases i (startIndex + JS.length (window dp text startIndex))).
      * exists startIndex. split; [left; reflexivity|lia].
      * assert (Hi' : next_start dp startIndex (window dp text startIndex) <= i
                      < JS.length text) by lia.
        destruct (Hcov i Hi') as (s & Hin' & Hs'). exists s. split; [right|]; auto.
Qed.

(** A blank text never enters the loop. *)
Lemma blank_text_never_enters_the_loop (dp : t) (text filename : jsstring) :
  Forall (fun c => is_whitespace c = true) text ->
  chunkText dp text filename = Some [].
Proof.
  intros H. unfold chunkText, chunkText_fuel. rewrite (trim_blank text H). reflexivity.
Qed.

End ChunkerWindows.

Section ChunkerExtras.

Import DocumentProcessor ChunkerFacts ChunkerLoop ChunkerWindows.

(** The chunks of a text that is not blank, for a positive window size:
    the loop ends, the final filter drops nothing, and the chunks are the
    windows the loop went through, in order. *)
Lemma chunkText_of_starts (dp : t) (text filename : jsstring) :
  0 < chunkSize dp -> 0 <= chunkOverlap dp -> truthy (trim text) = true ->
  exists starts,
    window_starts (List.length text) dp text 0 = Some starts
    /\ chunkText dp text filename = Some (chunks_at dp text filename starts 0)
    /\ starts <> [].
Proof.
  intros Hs Ho Ht.
  destruct (chunk_loop_terminates dp text filename Hs Ho (List.length text)
              (List.length text) 0 0%nat [])
    as (out & E & _ & _); try (unfold JS.length; lia).
  rewrite chunk_loop_follows_starts in E.
  destruct (window_starts (List.length text) dp text 0) as [starts|] eqn:Ew;
    [|discriminate].
  exists starts. split; [reflexivity|]. split.
  - unfold chunkText, chunkText_fuel. rewrite Ht. cbn [negb].
    rewrite chunk_loop_follows_starts, Ew. cbn [option_map app].
    rewrite final_filter_keeps_all; [reflexivity|apply chunks_at_headers].
  - intros ->. destruct text as [|c text]; [discriminate|].
    cbn [List.length window_starts] in Ew.
    destruct (Z.ltb_spec 0 (JS.length (c :: text))) as [_|Hge].
    + destruct (window_starts _ _ _ _); discriminate.
    + unfold JS.length in Hge. simpl in Hge. lia.
Qed.

(** X1. For a text that is not blank (window size positive, overlap not
    negative) [chunkText] returns at least one chunk, one per iteration of
    the loop and in the order of the iterations: the chunk at position [k]
    is built from the window of the [k]-th start index, its [source] is the
    file name and its [chunkId] is the file name, [_chunk_] and [k] in
    decimal. *)
Theorem chunks_are_numbered_in_order (dp : t) (text filename : jsstring) :
  0 < chunkSize dp -> 0 <= chunkOverlap dp -> truthy (trim text) = true ->
  exists starts out,
    window_starts (List.length text) dp text 0 = Some starts
    /\ chunkText dp text filename = Some out
    /\ List.length out = List.length starts
    /\ (0 < List.length out)%nat
    /\ forall k s, nth_error starts k = Some s ->
         exists chunk,
           nth_error out k = Some chunk
           /\ chunkId chunk = filename ++ lit "_chunk_" ++ JS.of_nat k
           /\ source chunk = filename
           /\ pageContent chunk = chunkWithContext filename (window dp text s).
Proof.
  intros Hs Ho Ht.
  destruct (chunkText_of_starts dp text filename Hs Ho Ht) as (starts & Ew & Ec & Hne).
  exists starts, (chunks_at dp text filename starts 0).
  split; [exact Ew|]. split; [exact Ec|].
  split; [apply chunks_at_length|]. split.
  - rewrite chunks_at_length. destruct starts; [congruence|simpl; lia].
  - intros k s Hk. eexists. rewrite chunks_at_nth, Hk. cbn [option_map].
    split; [reflexivity|]. repeat split.
Qed.

(** X2. For a positive window size and an overlap that is not negative,
    the windows of the loop leave no gap: every start index lies inside the
    text, and every index of the text lies in the window (after the
    word-boundary cut, before trimming) of some start index. *)
Theorem windows_cover_the_text (dp : t) (text : jsstring) :
  0 < chunkSize dp -> 0 <= chunkOverlap dp ->
  exists starts,
    window_starts (List.length text) dp text 0 = Some starts
    /\ Forall (fun s => 0 <= s < JS.length text) starts
    /\ forall i, 0 <= i < JS.length text ->
         exists s, In s starts /\ s <= i < s + JS.length (window dp text s).
Proof.
  intros Hs Ho.
  destruct (chunk_loop_terminates dp text [] Hs Ho (List.length text)
              (List.length text) 0 0%nat [])
    as (out & E & _ & _); try (unfold JS.length; lia).
  rewrite chunk_loop_follows_starts in E.
  destruct (window_starts (List.length text) dp text 0) as [starts|] eqn:Ew;
    [|discriminate].
  exists starts. split; [reflexivity|].
  apply (window_starts_cover dp text Hs Ho (List.length text) 0 starts); [lia|exact Ew].
Qed.

(** X3. For a positive window size and an overlap that is not negative,
    the content of every chunk is the 30 code units of the header, the file
    name and at most one window of text. *)
Theorem chunk_content_is_bounded (dp : t) (text filename : jsstring)
    (out : list Chunk) :
  0 < chunkSize dp -> 0 <= chunkOverlap dp ->
  chunkText dp text filename = Some out ->
  forall chunk, In chunk out ->
    JS.length (pageContent chunk) <= 30 + JS.length filename + chunkSize dp.
Proof.
  intros Hs Ho E chunk Hin.
  destruct (truthy (trim text)) eqn:Ht.
  2: { unfold chunkText, chunkText_fuel in E. rewrite Ht in E. inversion E; subst.
       destruct Hin. }
  destruct (chunkText_of_starts dp text filename Hs Ho Ht) as (starts & Ew & Ec & _).
  rewrite Ec in E. inversion E; subst out; clear E.
  destruct (In_nth_error _ _ Hin) as [k Hk].
  rewrite chunks_at_nth in Hk.
  destruct (nth_error starts k) as [s|] eqn:Es; [|discriminate].
  inversion Hk; subst chunk; clear Hk.
  assert (Hs0 : 0 <= 0) by lia.
  destruct (window_starts_cover dp text Hs Ho _ 0 starts Hs0 Ew) as [Hrange _].
  rewrite Forall_forall in Hrange.
  pose proof (Hrange s (nth_error_In _ _ Es)) as Hr.
  pose proof (window_length dp text s Hs Hr) as Hw.
  cbn [pageContent make_chunk]. rewrite chunkWithContext_length.
  pose proof (trim_length (window dp text s)).
  unfold endIndex in Hw. lia.
Qed.

(** X4. A text made of white space only (the empty text included) gives no
    chunk, whatever the window size and the overlap. *)
Theorem blank_text_gives_no_chunk (dp : t) (text filename : jsstring) :
  Forall (fun c => is_whitespace c = true) text ->
  chunkText dp text filename = Some [].
Proof. apply blank_text_never_enters_the_loop. Qed.

(** X5. With a window size of 0 and an overlap that is not negative, the
    loop never ends on a text that is not blank: whatever the number of
    iterations allowed, it is still running. *)
Theorem zero_window_never_terminates (overlap : Z) (text filename : jsstring) :
  0 <= overlap -> truthy (trim text) = true ->
  forall fuel, chunkText_fuel fuel (mk 0 overlap) text filename = None.
Proof.
  intros Ho Ht fuel. unfold chunkText_fuel. rewrite Ht. cbn [negb].
  rewrite zero_size_never_ends; [reflexivity|exact Ho|].
  destruct text; [discriminate|]. unfold JS.length. simpl. lia.
Qed.

(** X6. A text that is not blank, shorter than the window size and longer
    than a positive overlap gives exactly two chunks: the whole text, then
    its last [overlap] code units once more. *)
Theorem short_text_tail_is_chunked_twice (dp : t) (text filename : jsstring) :
  truthy (trim text) = true ->
  0 < chunkOverlap dp < JS.length text ->
  JS.length text < chunkSize dp ->
  chunkText dp text filename
  = Some [ make_chunk filename text 0;
           make_chunk filename
             (skipn (Z.to_nat (JS.length text - chunkOverlap dp)) text) 1 ].
Proof.
  intros Ht Ho Hs.
  assert (Htail : window dp text (JS.length text - chunkOverlap dp)
                  = skipn (Z.to_nat (JS.length text - chunkOverlap dp)) text).
  { assert (He : endIndex dp text (JS.length text - chunkOverlap dp) = JS.length text)
      by (unfold endIndex; lia).
    unfold window. rewrite He, Z.ltb_irrefl. unfold raw_window. rewrite He.
    rewrite slice_inside by lia. apply firstn_all2.
    rewrite length_skipn. unfold JS.length in *. lia. }
  unfold chunkText, chunkText_fuel. rewrite Ht. cbn [negb].
  remember (List.length text) as n eqn:Hn.
  assert (HnZ : JS.length text = Z.of_nat n) by (unfold JS.length; congruence).
  destruct n as [|[|n]]; try lia.
  rewrite chunk_loop_step by lia.
  rewrite short_text_first_window by lia.
  assert (Hn1 : next_start dp 0 text = JS.length text - chunkOverlap dp).
  { rewrite next_start_closed_form.
    destruct (Z.leb_spec (JS.length text) (chunkOverlap dp)); lia. }
  rewrite Hn1. rewrite chunk_loop_step by lia. rewrite Htail.
  rewrite chunk_loop_done.
  - cbn [option_map app]. rewrite final_filter_keeps_all; [reflexivity|].
    repeat constructor; apply make_chunk_header.
  - rewrite next_start_closed_form.
    assert (Hl : JS.length (skipn (Z.to_nat (JS.length text - chunkOverlap dp)) text)
                 = chunkOverlap dp).
    { unfold JS.length in *. rewrite length_skipn. lia. }
    rewrite Hl, Z.leb_refl. lia.
Qed.

End ChunkerExtras.

(* ===================================================================== *)
(** ** Ingestion of a file                                                *)
(* ===================================================================== *)

Section IngestionExtras.

Import DocumentProcessor ChunkerFacts ChunkerLoop ChunkerWindows Ingestion.

Lemma chunks_at_sources dp text filename (starts : list Z) (i : nat) :
  Forall (fun c => source c = filename) (chunks_at dp text filename starts i).
Proof. revert i. induction starts; intros i; constructor; auto. Qed.

(** A failed extraction is caught inside [parseFile], which answers the
    empty string. *)
Lemma parseFile_failed (io : Readers) (filePath : jsstring) :
  extraction_failed io filePath -> parseFile io filePath = [].
Proof.
  unfold extraction_failed, parseFile. cbv zeta.
  intros [[E [e He]]|[[E [e He]]|[[E [e He]]|(H1 & H2 & H3)]]].
  - rewrite E, He. reflexivity.
  - rewrite E, He. reflexivity.
  - rewrite E, He. reflexivity.
  - destruct (JS.eqb (lower_extname io filePath) (lit ".txt")) eqn:E1.
    { apply Routing.eqb_eq in E1. contradiction. }
    destruct (JS.eqb (lower_extname io filePath) (lit ".pdf")) eqn:E2.
    { apply Routing.eqb_eq in E2. contradiction. }
    destruct (JS.eqb (lower_extname io filePath) (lit ".docx")) eqn:E3.
    { apply Routing.eqb_eq in E3. contradiction. }
    reflexivity.
Qed.

(** X7. Nothing is handed to the vector store when the file cannot be read
    (its extension is not one of the three that are parsed, or its reader
    throws: [parseFile] catches the error and answers the empty string), or
    when the text extracted from it is blank. The file is then reported as
    processed, with no chunk added and a message; no error is raised. *)
Theorem blank_file_is_not_indexed (dp : t) (io : Readers) (filePath : jsstring)
    (addDocuments : list StoredDocument -> result Z) (options : Options) :
  extraction_failed io filePath
  \/ Forall (fun c => is_whitespace c = true) (parseFile io filePath) ->
  exists message,
    processFile dp (Ok (parseFile io filePath)) addDocuments options
    = Some (Ok {| success := true; chunksAdded := 0; note := Some message |}, None).
Proof.
  intros H.
  assert (Hb : Forall (fun c => is_whitespace c = true) (parseFile io filePath)).
  { destruct H as [H|H]; [|exact H]. rewrite (parseFile_failed io filePath H). constructor. }
  unfold processFile. destruct (truthy (parseFile io filePath)); cbn [negb].
  - rewrite (blank_text_never_enters_the_loop dp _ (originalName options) Hb).
    cbn. eexists. reflexivity.
  - eexists. reflexivity.
Qed.

(** X8. For a text that is not blank (window size positive, overlap not
    negative) the vector store is called once, with one document per chunk
    and in the order of the chunks; every document carries the content, the
    source and the id of its chunk, and the user id, the file id and the
    file name of the options. The result reports the count the store
    answered, and an error of the store is rethrown. *)
Theorem indexed_documents_are_tagged (dp : t)
    (addDocuments : list StoredDocument -> result Z) (options : Options)
    (text : jsstring) :
  0 < chunkSize dp -> 0 <= chunkOverlap dp -> truthy (trim text) = true ->
  exists chunks docs,
    chunkText dp text (originalName options) = Some chunks
    /\ processFile dp (Ok text) addDocuments options
       = Some (match addDocuments docs with
               | Ok count => Ok {| success := true; chunksAdded := count; note := None |}
               | Throw e => Throw e
               end, Some docs)
    /\ docs <> []
    /\ map doc_pageContent docs = map pageContent chunks
    /\ map doc_chunkId docs = map chunkId chunks
    /\ Forall (fun d => doc_userId d = opt_userId options
                        /\ doc_fileId d = opt_fileId options
                        /\ doc_fileName d = originalName options
                        /\ doc_source d = originalName options) docs.
Proof.
  intros Hs Ho Ht.
  destruct (chunkText_of_starts dp text (originalName options) Hs Ho Ht)
    as (starts & Ew & Ec & Hne).
  exists (chunks_at dp text (originalName options) starts 0),
         (documentsToStore options (chunks_at dp text (originalName options) starts 0)).
  split; [exact Ec|].
  assert (Htext : truthy text = true).
  { destruct text; [discriminate|reflexivity]. }
  assert (Hlen : (array_length (chunks_at dp text (originalName options) starts 0) =? 0)
                 = false).
  { unfold array_length. rewrite chunks_at_length.
    destruct starts; [congruence|]. simpl List.length.
    destruct (Z.eqb_spec (Z.of_nat (S (List.length starts))) 0); [lia|reflexivity]. }
  split.
  { unfold processFile. rewrite Htext. cbn [negb]. rewrite Ec, Hlen.
    destruct (addDocuments _); reflexivity. }
  split.
  { destruct starts; [congruence|]. discriminate. }
  unfold documentsToStore. rewrite !map_map. cbn.
  split; [reflexivity|]. split; [reflexivity|].
  apply Forall_map.
  eapply Forall_impl; [|apply (chunks_at_sources dp text (originalName options) starts 0)].
  cbn. intros c Hc. auto.
Qed.

End IngestionExtras.

(* ===================================================================== *)
(** ** Sources, responses and prompts                                     *)
(* ===================================================================== *)

Module PureFacts.

Import GeminiAI HybridRagService Routing.

Lemma existsb_eqb_In (name : jsstring) (seen : list jsstring) :
  existsb (JS.eqb name) seen = true <-> In name seen.
Proof.
  rewrite existsb_exists. split.
  - intros (x & Hin & Hx). apply eqb_eq in Hx. congruence.
  - intros Hin. exists name. split; [exact Hin|]. apply eqb_eq. reflexivity.
Qed.

Lemma formatSources_from_step (seen : list jsstring) (chunk : RetrievedChunk)
    (rest : list RetrievedChunk) :
  formatSources_from seen (chunk :: rest)
  = if existsb (JS.eqb (chunk_title chunk)) seen
    then formatSources_from seen rest
    else document_source (chunk_title chunk)
           :: formatSources_from (chunk_title chunk :: seen) rest.
Proof. reflexivity. Qed.

(** What [formatSources_from] lists: names not seen before, each once,
    each the name of one of the chunks, and every name of a chunk that was
    not seen before. *)
Lemma formatSources_from_spec (chunks : list RetrievedChunk) :
  forall seen,
    NoDup (map title (formatSources_from seen chunks))
    /\ (forall s, In s (formatSources_from seen chunks) ->
          ~ In (title s) seen
          /\ type s = lit "document"
          /\ exists chunk, In chunk chunks /\ title s = chunk_title chunk)
    /\ (forall chunk, In chunk chunks ->
          In (chunk_title chunk) seen
          \/ In (document_source (chunk_title chunk)) (formatSources_from seen chunks))
    /\ (List.length (formatSources_from seen chunks) <= List.length chunks)%nat.
Proof.
  induction chunks as [|chunk rest IH]; intros seen.
  - cbn. split; [constructor|]. split; [intros ? []|]. split; [intros ? []|lia].
  - rewrite formatSources_from_step.
    destruct (existsb (JS.eqb (chunk_title chunk)) seen) eqn:Es.
    + apply existsb_eqb_In in Es.
      destruct (IH seen) as (Hnd & Hin & Hall & Hlen).
      split; [exact Hnd|]. split; [|split].
      * intros s Hs. destruct (Hin s Hs) as (H1 & H2 & c & Hc & Ht).
        repeat split; auto. exists c. split; [right|]; auto.
      * intros c [<-|Hc]; [left; exact Es|apply Hall; exact Hc].
      * simpl. lia.
    + assert (Hnot : ~ In (chunk_title chunk) seen).
      { intros H. apply existsb_eqb_In in H. congruence. }
      destruct (IH (chunk_title chunk :: seen)) as (Hnd & Hin & Hall & Hlen).
      split; [|split; [|split]].
      * cbn [map title document_source]. constructor; [|exact Hnd].
        intros Hx. apply in_map_iff in Hx. destruct Hx as (s & Hs & Hin').
        destruct (Hin s Hin') as (Hn & _). apply Hn. left. congruence.
      * intros s [<-|Hs].
        -- repeat split; auto. exists chunk. split; [left|]; reflexivity.
        -- destruct (Hin s Hs) as (H1 & H2 & c & Hc & Ht).
           repeat split; auto.
           ++ intros Hx. apply H1. right. exact Hx.
           ++ exists c. split; [right|]; auto.
      * intros c [<-|Hc]; [right; left; reflexivity|].
        destruct (Hall c Hc) as [[Hx|Hx]|Hx].
        -- right. left. rewrite Hx. reflexivity.
        -- left. exact Hx.
        -- right. right. exact Hx.
      * simpl. lia.
Qed.

(** Chunks added at the end only add sources at the end. *)
Lemma formatSources_from_app (a b : list RetrievedChunk) :
  forall seen, exists seen',
    formatSources_from seen (a ++ b)
    = formatSources_from seen a ++ formatSources_from seen' b.
Proof.
  induction a as [|chunk a IH]; intros seen.
  - exists seen. reflexivity.
  - cbn [app]. rewrite !formatSources_from_step.
    destruct (existsb (JS.eqb (chunk_title chunk)) seen).
    + apply IH.
    + destruct (IH (chunk_title chunk :: seen)) as [seen' E].
      exists seen'. rewrite E. reflexivity.
Qed.

Lemma startsWith_app (a b : jsstring) : startsWith (a ++ b) a = true.
Proof. induction a as [|x a IH]; [destruct b; reflexivity|]. cbn. rewrite N.eqb_refl. exact IH. Qed.

(** A prefix taken with [substring] from index 0, whatever the bound. *)
Lemma substring_from_0 (s : jsstring) (n : Z) :
  0 <= n -> substring s 0 n = firstn (Z.to_nat n) s.
Proof.
  intros Hn. destruct (Z.le_gt_cases n (JS.length s)) as [Hle|Hgt].
  - apply substring_prefix. lia.
  - unfold substring. pose proof (length_nonneg s).
    rewrite (Z.max_l 0 0) by lia. rewrite (Z.min_l 0) by lia.
    rewrite (Z.max_l n 0) by lia. rewrite (Z.min_r n) by lia.
    rewrite Z.min_l by lia. rewrite Z.max_r by lia. rewrite Z.sub_0_r.
    cbn [Z.to_nat skipn]. unfold JS.length. rewrite Nat2Z.id.
    rewrite firstn_all. symmetry. apply firstn_all2. unfold JS.length in Hgt. lia.
Qed.

End PureFacts.

Section PureExtras.

Import GeminiAI HybridRagService Routing PureFacts SystemPrompt.

(** X9. [formatSources] lists each file name once, in the order in which
    the names first occur among the chunks: every source is a document named
    after one of the chunks, every chunk's name (or the name used for a chunk
    without one) is listed, there are no more sources than chunks, and
    chunks added at the end only add sources at the end. *)
Theorem sources_are_deduplicated (chunks : list RetrievedChunk) :
  NoDup (map title (formatSources chunks))
  /\ (forall s, In s (formatSources chunks) ->
        type s = lit "document"
        /\ exists chunk, In chunk chunks /\ title s = chunk_title chunk)
  /\ (forall chunk, In chunk chunks ->
        In (document_source (chunk_title chunk)) (formatSources chunks))
  /\ (List.length (formatSources chunks) <= List.length chunks)%nat
  /\ (forall more, exists added,
        formatSources (chunks ++ more) = formatSources chunks ++ added).
Proof.
  unfold formatSources.
  destruct (formatSources_from_spec chunks []) as (Hnd & Hin & Hall & Hlen).
  split; [exact Hnd|]. split; [|split; [|split]].
  - intros s Hs. destruct (Hin s Hs) as (_ & Ht & Hc). auto.
  - intros chunk Hc. destruct (Hall chunk Hc) as [[]|H]. exact H.
  - exact Hlen.
  - intros more. destruct (formatSources_from_app chunks more []) as [seen' E].
    eexists. exact E.
Qed.

(** X10. [_processApiResponse] returns a text exactly when the first
    candidate of the response finished with STOP or MAX_TOKENS and carries a
    text, and then returns that text; in every other case (no candidate,
    another finish reason, no text) it throws an error whose message starts
    with the fixed failure sentence. Later candidates are never read. *)
Theorem api_response_is_accepted_iff (response : ApiResponse) :
  (forall t,
      _processApiResponse response = Ok t
      <-> exists c rest,
            candidates response = c :: rest
            /\ (finishReason c = Some (lit "STOP")
                \/ finishReason c = Some (lit "MAX_TOKENS"))
            /\ text c = Some t)
  /\ (forall e,
        _processApiResponse response = Throw e ->
        startsWith e (lit "AI response generation failed. Reason: ") = true).
Proof.
  assert (Hstop : forall r, is_STOP_or_MAX_TOKENS r = true
                            <-> r = Some (lit "STOP") \/ r = Some (lit "MAX_TOKENS")).
  { intros [r|]; cbn [is_STOP_or_MAX_TOKENS].
    - rewrite orb_true_iff, !eqb_eq. split; intros [H|H]; [left|right|left|right]; congruence.
    - split; [discriminate|intros [H|H]; discriminate]. }
  assert (Hfail : forall candidate e,
             (let reason :=
                match candidate with
                | Some c =>
                    match finishReason c with
                    | Some r => if truthy r then r else lit "Unknown"
                    | None => lit "Unknown"
                    end
                | None => lit "Unknown"
                end in
              let blockMessage :=
                lit "AI response generation failed. Reason: " ++ reason ++ lit "." in
              match blockedCategories candidate with
              | Some cats =>
                  if truthy cats
                  then Throw (blockMessage ++ lit " Blocked Categories: " ++ cats ++ lit ".")
                  else Throw blockMessage
              | None => Throw blockMessage
              end) = @Throw jsstring e ->
             startsWith e (lit "AI response generation failed. Reason: ") = true).
  { intros candidate e. cbv zeta.
    destruct (blockedCategories candidate) as [cats|]; [destruct (truthy cats)|];
      intros H;
      apply (f_equal (fun r : result jsstring =>
                        match r with Throw x => x | Ok _ => [] end)) in H;
      cbv beta iota in H; rewrite <- H, <- ?app_assoc; apply startsWith_app. }
  unfold _processApiResponse. destruct response as [cands]. cbn [candidates].
  destruct cands as [|c rest]; cbn [hd_error].
  - split.
    + intros t. split; [intros H; exfalso|intros (c & r & H & _); discriminate].
      revert H. cbv zeta. cbn [blockedCategories]. discriminate.
    + intros e. apply (Hfail None).
  - destruct (is_STOP_or_MAX_TOKENS (finishReason c)) eqn:Es.
    + destruct (text c) as [t0|] eqn:Et.
      * split; [|discriminate].
        intros t. split.
        -- intros H. inversion H; subst. exists c, rest. rewrite <- Hstop. auto.
        -- intros (c' & r' & Hc & _ & Ht). inversion Hc; subst. congruence.
      * split; [|intros e; apply (Hfail (Some c))].
        intros t. split.
        -- intros H. exfalso. revert H. cbv zeta.
           destruct (blockedCategories (Some c)) as [cats|];
             [destruct (truthy cats)|]; discriminate.
        -- intros (c' & r' & Hc & _ & Ht). inversion Hc; subst. congruence.
    + split; [|intros e; apply (Hfail (Some c))].
      intros t. split.
      * intros H. exfalso. revert H. cbv zeta.
        destruct (blockedCategories (Some c)) as [cats|];
          [destruct (truthy cats)|]; discriminate.
      * intros (c' & r' & Hc & Hr & _). inversion Hc; subst.
        apply Hstop in Hr. congruence.
Qed.

(** X11. The summarization prompt embeds the first 10,000 code units of
    the document and nothing else of it: whatever the document, the prompt
    is the same opening text (which holds the query), the two fence lines
    with exactly that prefix of the document between them, and the same
    closing text. Hence the part of a document beyond its first 10,000
    units has no effect on the prompt, whose length is that of the fixed
    text, plus the length of the query, plus the length of the document
    capped at 10,000. *)
Theorem summarization_prompt_is_bounded (query : jsstring) :
  exists opening closing,
    forall fileContent,
      summarization_prompt fileContent query
      = opening ++ (lit "Document Content:" ++ nl ++ lit "---" ++ nl)
        ++ firstn (Z.to_nat 10000) fileContent
        ++ (nl ++ lit "---" ++ nl) ++ closing
      /\ summarization_prompt fileContent query
         = summarization_prompt (firstn (Z.to_nat 10000) fileContent) query
      /\ JS.length (summarization_prompt fileContent query)
         = JS.length (summarization_prompt [] []) + JS.length query
           + Z.min (JS.length fileContent) 10000.
Proof.
  exists (nl ++ lit "You are an expert summarizer. Based on the full document content provided below, generate a comprehensive answer to the user's original query." ++ nl
          ++ nl ++ lit "Original Query: " ++ dq ++ query ++ dq ++ nl ++ nl),
         (nl ++ lit "Provide a detailed and well-structured summary that directly addresses the user's request. Use markdown for formatting." ++ nl).
  intros fileContent. split; [|split].
  - unfold summarization_prompt. rewrite substring_from_0 by lia.
    rewrite <- !app_assoc. reflexivity.
  - unfold summarization_prompt. rewrite !substring_from_0 by lia.
    rewrite firstn_firstn, Nat.min_id. reflexivity.
  - unfold summarization_prompt. rewrite !length_app_Z.
    rewrite !substring_from_0 by lia.
    assert (H0 : JS.length (@firstn code_unit (Z.to_nat 10000) []) = 0) by reflexivity.
    assert (He : JS.length (@nil code_unit) = 0) by reflexivity.
    rewrite H0, He.
    assert (Hf : JS.length (firstn (Z.to_nat 10000) fileContent)
                 = Z.min (JS.length fileContent) 10000).
    { unfold JS.length. rewrite length_firstn. lia. }
    rewrite Hf. lia.
Qed.

(** X12. The document section of the system prompt is present exactly
    when there are document chunks: with no chunk, [buildContext] gives the
    sentinel text and [buildSystemPrompt] builds the same prompt as for an
    empty context; with at least one chunk the prompt holds the section with
    the whole context block. *)
Theorem document_section_iff_chunks (stringify : json -> jsstring)
    (systemPrompt personalizationProfile conversationSummary : jsstring)
    (userMemories : list jsstring) (memoryChanges : option MemoryChanges)
    (documentChunks : list RetrievedChunk) :
  match documentChunks with
  | [] =>
      buildSystemPrompt stringify systemPrompt (buildContext []) personalizationProfile
        conversationSummary userMemories memoryChanges
      = buildSystemPrompt stringify systemPrompt [] personalizationProfile
          conversationSummary userMemories memoryChanges
  | _ :: _ =>
      exists before after,
        buildSystemPrompt stringify systemPrompt (buildContext documentChunks)
          personalizationProfile conversationSummary userMemories memoryChanges
        = before ++ context_section (buildContext documentChunks) ++ after
  end.
Proof.
  destruct documentChunks as [|chunk rest].
  - unfold buildSystemPrompt. cbn [buildContext].
    assert (Hs : truthy no_context && negb (JS.eqb no_context no_context) = false)
      by (vm_compute; reflexivity).
    rewrite Hs. reflexivity.
  - assert (Hc : exists tail, buildContext (chunk :: rest) = 68%N :: tail).
    { unfold buildContext. cbn [map]. destruct rest; cbn [join]; eexists; reflexivity. }
    destruct Hc as [tail Hc].
    unfold buildSystemPrompt.
    assert (Hs : truthy (buildContext (chunk :: rest))
                 && negb (JS.eqb (buildContext (chunk :: rest)) no_context) = true).
    { rewrite Hc. reflexivity. }
    rewrite Hs.
    destruct memoryChanges as [changes|];
      [destruct (has_items (added changes) || has_items (updated changes))|].
    + eexists _, _. rewrite <- app_assoc. reflexivity.
    + eexists _, []. rewrite app_nil_r. reflexivity.
    + eexists _, []. rewrite app_nil_r. reflexivity.
Qed.

(** X13. The memory notice of the system prompt depends on the arrays
    [added] and [updated] only through whether one of them has an item: it
    prints the properties [add] and [update], so two change records that have
    items and agree on [add] and [update] give the same prompt, whatever was
    added or updated; with [add] and [update] absent the notice prints the
    empty array twice. *)
Theorem notice_ignores_what_changed (stringify : json -> jsstring)
    (systemPrompt context personalizationProfile conversationSummary : jsstring)
    (userMemories : list jsstring) (added1 updated1 added2 updated2 : option (list json))
    (add0 update0 : option json) :
  has_items added1 || has_items updated1 = true ->
  has_items added2 || has_items updated2 = true ->
  buildSystemPrompt stringify systemPrompt context personalizationProfile
    conversationSummary userMemories (Some (mkChanges added1 updated1 add0 update0))
  = buildSystemPrompt stringify systemPrompt context personalizationProfile
      conversationSummary userMemories (Some (mkChanges added2 updated2 add0 update0))
  /\ exists before,
       buildSystemPrompt stringify systemPrompt context personalizationProfile
         conversationSummary userMemories (Some (mkChanges added1 updated1 None None))
       = before ++ lit "- Added: " ++ stringify (JArray []) ++ nl
                ++ lit "- Updated: " ++ stringify (JArray []).
Proof.
  intros H1 H2. unfold buildSystemPrompt. cbn [added updated].
  rewrite H1, H2. split; [reflexivity|].
  unfold notice_section. cbn [add update or_empty_array].
  eexists. rewrite !app_assoc. reflexivity.
Qed.

End PureExtras.

(* ===================================================================== *)
(** ** The two handlers, case by case                                     *)
(* ===================================================================== *)

Module RouterRuns.

Import GeminiAI GeminiFacts HybridRagService RouterFacts SpecificPath Retrieval.
Import BroadPath Routing.

Section WithWorld.
Variable w : World.

(** Lines 102-119, run: the user lookup, then the answer. *)
Lemma answer_run_exact (correctedQuery userId : jsstring) (fileId : option jsstring)
    (relevantChunks : list RetrievedChunk) (h : trace) :
  isContextSufficient relevantChunks = true ->
  let e1 := Console (LogSufficient (option_map score (hd_error relevantChunks))) in
  answer_or_fallback w correctedQuery userId fileId relevantChunks h
  = match User_findById w (h ++ [e1]) userId with
    | Throw e => (Throw e, [e1; UserFindById userId (Throw e)])
    | Ok user =>
        let e2 := UserFindById userId (Ok user) in
        let prompt :=
          buildRagPrompt correctedQuery
            (join (nl ++ nl) (map content relevantChunks))
            match user with
            | Some u => personalizationProfile u
            | None => []
            end in
        if negb (model_set w)
        then (Throw (lit "AI service is not available."), [e1; e2])
        else
          match request w prompt ((h ++ [e1]) ++ [e2]) with
          | (Ok t, es) =>
              (Ok {| message := t;
                     searchType := rag;
                     sources := formatSources relevantChunks;
                     source_count := Some (array_length relevantChunks) |},
               e1 :: e2 :: es)
          | (Throw e, es) =>
              (Throw (lit "Failed to generate text response"),
               e1 :: e2 :: es ++ [Console (LogGenerateTextError e)])
          end
    end.
Proof.
  intros G. cbv zeta. unfold answer_or_fallback. rewrite G.
  unfold bind at 1. unfold console at 1.
  unfold bind at 1. unfold call at 1.
  destruct (User_findById w
              (h ++ [Console (LogSufficient (option_map score (hd_error relevantChunks)))])
              userId) as [user|e]; [|reflexivity].
  unfold bind at 1. rewrite generateText_run.
  destruct (negb (model_set w)); [reflexivity|].
  match goal with |- context [request w ?p ?hh] => destruct (request w p hh) as [[t|e] es] end.
  - cbn. rewrite app_nil_r. reflexivity.
  - reflexivity.
Qed.

(** Lines 27-70 with a [fileId], run. *)
Lemma _handleBroadQuery_run (query userId : jsstring) (fileId : option jsstring)
    (h : trace) :
  fileId_truthy fileId = true ->
  let e0 := Console LogHandlingBroad in
  let fid := the_fileId fileId in
  let failed :=
    {| message := lit "I encountered an error while trying to summarize the document. Please try again.";
       searchType := summary_error;
       sources := [];
       source_count := None |} in
  _handleBroadQuery w query userId fileId h
  = match File_findOne w (h ++ [e0]) fid userId with
    | Throw e =>
        (Ok failed, [e0; FileFindOne fid userId (Throw e); Console (LogBroadError e)])
    | Ok None =>
        (Ok failed,
         [e0; FileFindOne fid userId (Ok None);
          Console (LogBroadError (lit "File not found for summarization."))])
    | Ok (Some file) =>
        let e1 := FileFindOne fid userId (Ok (Some file)) in
        match documentProcessor_parseFile w ((h ++ [e0]) ++ [e1]) (path file) with
        | Throw e =>
            (Ok failed, [e0; e1; ParseFile (path file) (Throw e); Console (LogBroadError e)])
        | Ok fileContent =>
            let e2 := ParseFile (path file) (Ok fileContent) in
            if negb (truthy fileContent) || (JS.length (trim fileContent) <? 100) then
              (Ok {| message := lit "The selected document doesn't have enough content to generate a summary.";
                     searchType := summary_insufficient_content;
                     sources := [document_source (originalname file)];
                     source_count := None |},
               [e0; e1; e2])
            else if negb (model_set w) then
              (Ok {| message := lit "AI service is unavailable.";
                     searchType := summary;
                     sources := [document_source (originalname file)];
                     source_count := None |},
               [e0; e1; e2])
            else
              match request w (summarization_prompt fileContent query)
                      (((h ++ [e0]) ++ [e1]) ++ [e2]) with
              | (Ok t, es) =>
                  (Ok {| message := t;
                         searchType := summary;
                         sources := [document_source (originalname file)];
                         source_count := None |},
                   e0 :: e1 :: e2 :: es)
              | (Throw e, es) =>
                  (Ok failed,
                   e0 :: e1 :: e2
                      :: es ++ [Console (LogSummarizeError e);
                                Console (LogBroadError (handleGeminiError w e))])
              end
        end
    end.
Proof.
  intros Hf. cbv zeta. unfold _handleBroadQuery. unfold bind at 1. unfold console at 1.
  rewrite Hf. cbn [negb]. unfold try_catch, bind at 1. unfold call at 1.
  destruct (File_findOne w (h ++ [Console LogHandlingBroad]) (the_fileId fileId) userId)
    as [[file|]|e]; [|reflexivity|reflexivity].
  unfold bind at 1. unfold call at 1.
  match goal with |- context [documentProcessor_parseFile w ?hh ?p] =>
    destruct (documentProcessor_parseFile w hh p) as [fileContent|e] end; [|reflexivity].
  destruct (negb (truthy fileContent) || (JS.length (trim fileContent) <? 100));
    [reflexivity|].
  unfold bind at 1. rewrite summarizeDocumentContent_run.
  destruct (negb (model_set w)); [reflexivity|].
  match goal with |- context [request w ?p ?hh] => destruct (request w p hh) as [[t|e] es] end.
  - cbn. rewrite app_nil_r. reflexivity.
  - cbn. rewrite <- !app_assoc. reflexivity.
Qed.

Lemma llm_calls_app (a b : trace) : llm_calls (a ++ b) = (llm_calls a + llm_calls b)%nat.
Proof. unfold llm_calls. rewrite filter_app, length_app. reflexivity. Qed.

Lemma searches_app (a b : trace) : searches (a ++ b) = (searches a + searches b)%nat.
Proof. unfold searches. rewrite filter_app, length_app. reflexivity. Qed.

Lemma console_only_counts (es : trace) :
  Forall (fun e => is_console e = true) es -> llm_calls es = 0%nat /\ searches es = 0%nat.
Proof.
  induction 1 as [|e es He _ IH]; [split; reflexivity|].
  destruct e; try discriminate. exact IH.
Qed.

(** A request is one call of the model. *)
Lemma request_counts (prompt : jsstring) (h : trace) :
  llm_calls (snd (request w prompt h)) = 1%nat /\ searches (snd (request w prompt h)) = 0%nat.
Proof.
  destruct (request_events w prompt h) as [res E]. rewrite E. split; reflexivity.
Qed.

End WithWorld.

End RouterRuns.

(* ===================================================================== *)
(** ** More on the specific path                                          *)
(* ===================================================================== *)

Section SpecificExtras.

Import GeminiAI GeminiFacts HybridRagService RouterFacts SpecificPath Retrieval.
Import BroadPath Routing RouterRuns.

Variable w : World.

Lemma no_search_count (es : trace) :
  Forall (fun e => is_search e = false) es -> searches es = 0%nat.
Proof.
  induction 1 as [|e es He _ IH]; [reflexivity|].
  unfold searches in *. cbn [filter]. rewrite He. exact IH.
Qed.

(** The corrector asks the model at most once and never searches. *)
Lemma corrector_counts (query : jsstring) (h : trace) cq es_c :
  correctAndClarifyQuery w query h = (Ok cq, es_c) ->
  (llm_calls es_c <= 1)%nat /\ searches es_c = 0%nat.
Proof.
  intros E.
  destruct (correctAndClarifyQuery_total w query h) as (cq' & es' & E' & _ & Hev).
  rewrite E in E'. inversion E'; subst cq' es'; clear E'.
  destruct Hev as [Hc|(res & rest & -> & Hc)].
  - destruct (console_only_counts es_c Hc) as [H1 H2]. rewrite H1, H2. split; lia.
  - destruct (console_only_counts rest Hc) as [H1 H2].
    unfold llm_calls, searches in *. cbn [filter is_llm_call is_search List.length].
    rewrite H1, H2. split; lia.
Qed.

(** The gate and the answers ask the model at most once, and not at all
    for the fallback. *)
Lemma answer_or_fallback_counts cq u f chunks h r es :
  answer_or_fallback w cq u f chunks h = (r, es) ->
  (llm_calls es <= 1)%nat
  /\ (isContextSufficient chunks = false -> llm_calls es = 0%nat)
  /\ (forall res, r = Ok res -> searchType res <> rag -> llm_calls es = 0%nat).
Proof.
  intros H. destruct (isContextSufficient chunks) eqn:G.
  - rewrite (answer_run_exact w cq u f chunks h G) in H. cbv zeta in H.
    destruct (User_findById w _ u) as [user|e].
    + destruct (negb (model_set w)).
      * inversion H; subst. repeat split; try (cbn; lia); try discriminate.
      * match type of H with context [request w ?p ?hh] =>
          destruct (request_events w p hh) as [res Hev];
          destruct (request w p hh) as [[t|e] es0] end;
          cbn [snd] in Hev; subst es0; inversion H; subst; clear H.
        -- split; [cbn; lia|]. split; [discriminate|].
           intros res' Hr Hn. inversion Hr; subst res'. cbn in Hn. congruence.
        -- split; [cbn; lia|]. split; discriminate.
    + inversion H; subst. repeat split; try (cbn; lia); try discriminate.
  - rewrite (fallback_run w cq u f chunks h G) in H. inversion H; subst.
    repeat split; cbn; lia.
Qed.

(** X14. When the similarity search throws, the specific handler throws
    the same error: the failed search is the last thing that happens in the
    run, and no fallback answer is made up. *)
Theorem retriever_error_propagates (query userId : jsstring) (fileId : option jsstring)
    (h : trace) r es q limit filters e :
  _handleSpecificQuery w query userId fileId h = (r, es) ->
  In (SearchDocuments q limit filters (Throw e)) es ->
  r = Throw e
  /\ exists before, es = before ++ [SearchDocuments q limit filters (Throw e)].
Proof.
  intros Hrun Hin.
  destruct (_handleSpecificQuery_shape w query userId fileId h r es Hrun)
    as (cq0 & es_c & Ec & Hshape). cbv zeta in Hshape.
  destruct (corrector_events w query _ cq0 es_c Ec) as [Hns _].
  assert (Hbefore : forall scope,
             ~ In (SearchDocuments q limit filters (Throw e))
                 (Console LogHandlingSpecific :: es_c ++ [Console scope])).
  { intros scope [Hx|Hx]; [discriminate|].
    apply in_app_or in Hx. destruct Hx as [Hx|[Hx|[]]]; [|discriminate].
    rewrite Forall_forall in Hns. apply Hns in Hx. discriminate. }
  destruct Hshape as [(e' & -> & ->)|(chunks0 & lines & h' & es2 & -> & Hl & _ & Ha)].
  - apply in_app_or in Hin. destruct Hin as [Hx|[Hx|[]]].
    + exfalso. eapply Hbefore; eauto.
    + inversion Hx; subst. split; [reflexivity|]. eexists. reflexivity.
  - exfalso. apply in_app_or in Hin. destruct Hin as [Hx|[Hx|Hx]].
    + eapply Hbefore; eauto.
    + discriminate.
    + apply in_app_or in Hx. destruct Hx as [Hx|Hx].
      * apply console_is_no_search in Hl. rewrite Forall_forall in Hl.
        apply Hl in Hx. discriminate.
      * pose proof (answer_or_fallback_no_search w _ _ _ _ _ _ _ Ha) as Hn.
        rewrite Forall_forall in Hn. apply Hn in Hx. discriminate.
Qed.

(** Every run of the specific handler makes exactly one search. *)
Lemma one_search_per_run (query userId : jsstring)
    (fileId : option jsstring) (h : trace) r es :
  _handleSpecificQuery w query userId fileId h = (r, es) -> searches es = 1%nat.
Proof.
  intros Hrun.
  destruct (_handleSpecificQuery_shape w query userId fileId h r es Hrun)
    as (cq0 & es_c & Ec & Hshape). cbv zeta in Hshape.
  destruct (corrector_counts query _ cq0 es_c Ec) as [_ Hsc].
  destruct Hshape as [(e' & -> & ->)|(chunks0 & lines & h' & es2 & -> & Hl & _ & Ha)].
  - rewrite searches_app. change (Console LogHandlingSpecific :: es_c ++ ?l)
      with ([Console LogHandlingSpecific] ++ es_c ++ l).
    rewrite !searches_app, Hsc. reflexivity.
  - pose proof (answer_or_fallback_no_search w _ _ _ _ _ _ _ Ha) as Hn.
    pose proof (console_is_no_search _ Hl) as Hln.
    rewrite searches_app. change (Console LogHandlingSpecific :: es_c ++ ?l)
      with ([Console LogHandlingSpecific] ++ es_c ++ l).
    change (SearchDocuments cq0 5 ?f (Ok chunks0) :: lines ++ es2)
      with ([SearchDocuments cq0 5 f (Ok chunks0)] ++ lines ++ es2).
    rewrite !searches_app, Hsc, (no_search_count _ Hn), (no_search_count _ Hln).
    reflexivity.
Qed.

(** X15. Every run of the specific handler makes exactly one similarity
    search: for the query as the corrector returned it, with a limit of 5,
    filtered by the user id of the request, and by the [fileId] when one is
    given and by no file otherwise. *)
Theorem search_is_scoped_to_the_user (query userId : jsstring) (fileId : option jsstring)
    (h : trace) r es :
  _handleSpecificQuery w query userId fileId h = (r, es) ->
  searches es = 1%nat
  /\ forall q limit filters res,
       In (SearchDocuments q limit filters res) es ->
       limit = 5
       /\ filter_userId filters = userId
       /\ filter_fileId filters = (if fileId_truthy fileId then fileId else None)
       /\ exists es_c,
            correctAndClarifyQuery w query (h ++ [Console LogHandlingSpecific])
            = (Ok q, es_c).
Proof.
  intros Hrun. split; [exact (one_search_per_run _ _ _ _ _ _ Hrun)|].
  destruct (_handleSpecificQuery_shape w query userId fileId h r es Hrun)
    as (cq0 & es_c & Ec & Hshape). cbv zeta in Hshape.
  destruct (corrector_events w query _ cq0 es_c Ec) as [Hns _].
  assert (Hbefore : forall scope q limit filters res,
             ~ In (SearchDocuments q limit filters res)
                 (Console LogHandlingSpecific :: es_c ++ [Console scope])).
  { intros scope q limit filters res [Hx|Hx]; [discriminate|].
    apply in_app_or in Hx. destruct Hx as [Hx|[Hx|[]]]; [|discriminate].
    rewrite Forall_forall in Hns. apply Hns in Hx. discriminate. }
  intros q limit filters res Hin.
  destruct Hshape as [(e' & -> & ->)|(chunks0 & lines & h' & es2 & -> & Hl & _ & Ha)].
  - apply in_app_or in Hin. destruct Hin as [Hx|[Hx|[]]].
    + exfalso. eapply Hbefore; eauto.
    + inversion Hx; subst. repeat split. exists es_c. exact Ec.
  - pose proof (answer_or_fallback_no_search w _ _ _ _ _ _ _ Ha) as Hn.
    pose proof (console_is_no_search _ Hl) as Hln.
    apply in_app_or in Hin. destruct Hin as [Hx|[Hx|Hx]].
    + exfalso. eapply Hbefore; eauto.
    + inversion Hx; subst. repeat split. exists es_c. exact Ec.
    + exfalso. apply in_app_or in Hx. destruct Hx as [Hx|Hx].
      * rewrite Forall_forall in Hln. apply Hln in Hx. discriminate.
      * rewrite Forall_forall in Hn. apply Hn in Hx. discriminate.
Qed.

End SpecificExtras.

(** Go through the events of a trace that is written out, leaving the
    ones the hypothesis can be about. *)
Ltac sift H :=
  repeat match type of H with
         | False => destruct H
         | In _ [] => destruct H
         | In _ (_ :: _) => destruct H as [H|H]; [try discriminate H|]
         | In _ (_ ++ _) => apply in_app_or in H
         | _ \/ _ => destruct H as [H|H]; [try discriminate H|]
         end.

Section RouterExtras.

Import GeminiAI GeminiFacts HybridRagService RouterFacts SpecificPath Retrieval.
Import BroadPath Routing RouterRuns.

Variable w : World.

Lemma strip_has_no_quote_or_star (s : jsstring) :
  ~ In 34%N (strip_quotes_and_stars s) /\ ~ In 42%N (strip_quotes_and_stars s).
Proof.
  unfold strip_quotes_and_stars. split; intros H; apply filter_In in H;
    destruct H as [_ H]; discriminate.
Qed.

(** X16. The corrector never throws and asks the model at most once. It
    returns either the query unchanged (the model is not set, the request
    throws or the response is rejected) or the text the model answered,
    trimmed and with every double quote and asterisk removed. *)
Theorem corrector_recovers_locally (query : jsstring) (h : trace) :
  exists corrected es,
    correctAndClarifyQuery w query h = (Ok corrected, es)
    /\ (llm_calls es <= 1)%nat
    /\ (if model_set w
        then match model_generateContent w h (correction_prompt query) with
             | Ok response =>
                 match _processApiResponse response with
                 | Ok t =>
                     corrected = strip_quotes_and_stars (trim t)
                     /\ ~ In 34%N corrected /\ ~ In 42%N corrected
                 | Throw _ => corrected = query
                 end
             | Throw _ => corrected = query
             end
        else corrected = query /\ llm_calls es = 0%nat).
Proof.
  rewrite correctAndClarifyQuery_run. unfold request.
  destruct (model_set w); cbn [negb].
  - destruct (model_generateContent w h (correction_prompt query)) as [response|e].
    + destruct (_processApiResponse response) as [t|e].
      * eexists _, _. split; [reflexivity|]. split; [cbn; lia|].
        split; [reflexivity|apply strip_has_no_quote_or_star].
      * eexists _, _. split; [reflexivity|]. split; [cbn; lia|reflexivity].
    + eexists _, _. split; [reflexivity|]. split; [cbn; lia|reflexivity].
  - eexists _, _. split; [reflexivity|]. split; [cbn; lia|]. split; reflexivity.
Qed.

(** X17. When the gate accepts, the user is looked up and the model is
    asked once more. A result is a RAG answer: its message is the text of the
    model's response to the prompt built from the corrected query, the
    contents of the chunks joined by blank lines in the order retrieved, and
    the user's profile (empty when there is no such user); its sources are
    those of the chunks and its count is their number. Otherwise the handler
    throws: the error of the user lookup, or one of the two errors of
    [generateText]. *)
Theorem answer_is_grounded_in_the_chunks (query userId : jsstring)
    (fileId : option jsstring) (h : trace) r es correctedQuery limit filters relevantChunks :
  _handleSpecificQuery w query userId fileId h = (r, es) ->
  In (SearchDocuments correctedQuery limit filters (Ok relevantChunks)) es ->
  isContextSufficient relevantChunks = true ->
  exists user_res,
    In (UserFindById userId user_res) es
    /\ match r with
       | Ok res =>
           exists user response,
             user_res = Ok user
             /\ In (GenerateContent
                      (buildRagPrompt correctedQuery
                         (join (nl ++ nl) (map content relevantChunks))
                         match user with
                         | Some u => personalizationProfile u
                         | None => []
                         end)
                      (Ok response)) es
             /\ _processApiResponse response = Ok (message res)
             /\ searchType res = rag
             /\ sources res = formatSources relevantChunks
             /\ source_count res = Some (array_length relevantChunks)
       | Throw e =>
           user_res = Throw e
           \/ e = lit "AI service is not available."
           \/ e = lit "Failed to generate text response"
       end.
Proof.
  intros Hrun Hin G.
  destruct (retrieval_in_run w query userId fileId h r es correctedQuery limit filters
              relevantChunks Hrun Hin)
    as (es_c & scope_line & lines & h' & es2 & Ec & Hes & Hl & Ha).
  rewrite (answer_run_exact w _ _ _ _ h' G) in Ha. cbv zeta in Ha.
  assert (Htail : forall x, In x es2 -> In x es).
  { intros x Hx. rewrite Hes. apply in_or_app. right. right.
    apply in_or_app. right. exact Hx. }
  destruct (User_findById w _ userId) as [user|e] eqn:Eu.
  - exists (Ok user).
    destruct (negb (model_set w)).
    + inversion Ha; subst r es2. split; [apply Htail; right; left; reflexivity|].
      right. left. reflexivity.
    + unfold request in Ha.
      match type of Ha with context [model_generateContent w ?hh ?pp] =>
        destruct (model_generateContent w hh pp) as [response|e] end.
      * destruct (_processApiResponse response) as [t|e] eqn:Ep;
          inversion Ha; subst r es2; clear Ha.
        -- split; [apply Htail; right; left; reflexivity|].
           exists user, response. split; [reflexivity|].
           split; [apply Htail; right; right; left; reflexivity|].
           cbn. auto.
        -- split; [apply Htail; right; left; reflexivity|]. right. right. reflexivity.
      * inversion Ha; subst r es2.
        split; [apply Htail; right; left; reflexivity|]. right. right. reflexivity.
  - exists (Throw e). inversion Ha; subst r es2.
    split; [apply Htail; right; left; reflexivity|]. left. reflexivity.
Qed.

(** X18. In a run of the broad handler with a [fileId], a parsed text
    that is shorter than 100 code units once trimmed (the empty text
    included) is not summarized: the model is not asked, and the result has
    search type [summary_insufficient_content] and names the file as its
    only source. *)
Theorem thin_document_is_not_summarized (query userId : jsstring)
    (fileId : option jsstring) (h : trace) r es p fileContent :
  fileId_truthy fileId = true ->
  _handleBroadQuery w query userId fileId h = (r, es) ->
  In (ParseFile p (Ok fileContent)) es ->
  JS.length (trim fileContent) < 100 ->
  llm_calls es = 0%nat
  /\ exists file,
       In (FileFindOne (the_fileId fileId) userId (Ok (Some file))) es
       /\ r = Ok {| message := lit "The selected document doesn't have enough content to generate a summary.";
                    searchType := summary_insufficient_content;
                    sources := [document_source (originalname file)];
                    source_count := None |}.
Proof.
  intros Hf Hrun Hin Hthin.
  rewrite (_handleBroadQuery_run w query userId fileId h Hf) in Hrun. cbv zeta in Hrun.
  destruct (File_findOne w _ (the_fileId fileId) userId) as [[file|]|e].
  2, 3: (inversion Hrun; subst; sift Hin).
  destruct (documentProcessor_parseFile w _ (path file)) as [content0|e].
  2: (inversion Hrun; subst; sift Hin).
  assert (Hsame : fileContent = content0).
  { destruct (negb (truthy content0) || (JS.length (trim content0) <? 100)).
    - inversion Hrun; subst. sift Hin. inversion Hin. reflexivity.
    - destruct (negb (model_set w)).
      + inversion Hrun; subst. sift Hin. inversion Hin. reflexivity.
      + match type of Hrun with context [request w ?pp ?hh] =>
          destruct (request_events w pp hh) as [res Hev];
          destruct (request w pp hh) as [[t|e] es0] end;
          cbn [snd] in Hev; subst es0; inversion Hrun; subst;
          sift Hin; inversion Hin; reflexivity. }
  subst content0.
  assert (Hc : negb (truthy fileContent) || (JS.length (trim fileContent) <? 100) = true).
  { apply orb_true_iff. right. apply Z.ltb_lt. exact Hthin. }
  rewrite Hc in Hrun. inversion Hrun; subst. split; [reflexivity|].
  exists file. split; [right; left; reflexivity|reflexivity].
Qed.

End RouterExtras.

Section RoutingExtras.

Import GeminiAI GeminiFacts HybridRagService RouterFacts SpecificPath Retrieval.
Import BroadPath Routing RouterRuns.

Variable w : World.

(** The broad handler asks the model at most once and never searches. *)
Lemma _handleBroadQuery_counts (query userId : jsstring) (fileId : option jsstring)
    (h : trace) r es :
  _handleBroadQuery w query userId fileId h = (r, es) ->
  (llm_calls es <= 1)%nat /\ searches es = 0%nat
  /\ forall res, r = Ok res -> searchType res <> rag.
Proof.
  intros Hrun. destruct (fileId_truthy fileId) eqn:Hf.
  - rewrite (_handleBroadQuery_run w query userId fileId h Hf) in Hrun. cbv zeta in Hrun.
    destruct (File_findOne w _ (the_fileId fileId) userId) as [[file|]|e].
    2, 3: (inversion Hrun; subst; repeat split; try (cbn; lia);
           intros res Hr; inversion Hr; subst; discriminate).
    destruct (documentProcessor_parseFile w _ (path file)) as [content0|e].
    2: (inversion Hrun; subst; repeat split; try (cbn; lia);
        intros res Hr; inversion Hr; subst; discriminate).
    destruct (negb (truthy content0) || (JS.length (trim content0) <? 100)).
    { inversion Hrun; subst; repeat split; try (cbn; lia).
      intros res Hr; inversion Hr; subst; discriminate. }
    destruct (negb (model_set w)).
    { inversion Hrun; subst; repeat split; try (cbn; lia).
      intros res Hr; inversion Hr; subst; discriminate. }
    match type of Hrun with context [request w ?pp ?hh] =>
      destruct (request_events w pp hh) as [res Hev];
      destruct (request w pp hh) as [[t|e] es0] end;
      cbn [snd] in Hev; subst es0; inversion Hrun; subst;
      (repeat split; try (cbn; lia); intros res' Hr; inversion Hr; subst; discriminate).
  - destruct (_handleBroadQuery_requires_file w query userId fileId h Hf) as (res & E & Ht).
    rewrite E in Hrun. inversion Hrun; subst. repeat split; try (cbn; lia).
    intros res' Hr. inversion Hr; subst. rewrite Ht. discriminate.
Qed.

(** The specific handler asks the model at most twice, the second time
    only for a RAG answer. *)
Lemma _handleSpecificQuery_counts (query userId : jsstring) (fileId : option jsstring)
    (h : trace) r es :
  _handleSpecificQuery w query userId fileId h = (r, es) ->
  (llm_calls es <= 2)%nat
  /\ forall res, r = Ok res -> searchType res <> rag -> (llm_calls es <= 1)%nat.
Proof.
  intros Hrun.
  destruct (_handleSpecificQuery_shape w query userId fileId h r es Hrun)
    as (cq0 & es_c & Ec & Hshape). cbv zeta in Hshape.
  destruct (corrector_counts w query _ cq0 es_c Ec) as [Hlc _].
  destruct Hshape as [(e' & -> & ->)|(chunks0 & lines & h' & es2 & -> & Hl & _ & Ha)].
  - change (Console LogHandlingSpecific :: es_c ++ ?l)
      with ([Console LogHandlingSpecific] ++ es_c ++ l).
    rewrite !llm_calls_app. cbn. split; [lia|]. intros res Hr. discriminate.
  - destruct (answer_or_fallback_counts w _ _ _ _ _ _ _ Ha) as (Ha1 & _ & Ha3).
    destruct (console_only_counts lines Hl) as [Hl1 _].
    change (Console LogHandlingSpecific :: es_c ++ ?l)
      with ([Console LogHandlingSpecific] ++ es_c ++ l).
    change (SearchDocuments cq0 5 ?f (Ok chunks0) :: lines ++ es2)
      with ([SearchDocuments cq0 5 f (Ok chunks0)] ++ lines ++ es2).
    rewrite !llm_calls_app, Hl1. cbn. split; [lia|].
    intros res Hr Hn. rewrite (Ha3 res Hr Hn). lia.
Qed.

(** X19. A run of the router asks the generative model at most three
    times (to classify, to correct, to answer) and searches at most once; the
    third request is made only for a RAG answer, so every other result costs
    at most two requests. *)
Theorem router_cost_is_bounded (query userId : jsstring) (fileId : option jsstring)
    (h : trace) r es :
  processQuery w query userId fileId h = (r, es) ->
  (llm_calls es <= 3)%nat
  /\ (searches es <= 1)%nat
  /\ forall res, r = Ok res -> searchType res <> rag -> (llm_calls es <= 2)%nat.
Proof.
  intros Hrun.
  destruct (determineQueryType_total w query h) as (qa & es0 & E & _ & _ & Hfirst).
  assert (H0 : (llm_calls es0 <= 1)%nat /\ searches es0 = 0%nat).
  { rewrite determineQueryType_run in E.
    destruct (negb (model_set w)); [inversion E; split; cbn; lia|].
    destruct (request_events w (classification_prompt query) h) as [res Hev].
    destruct (request w (classification_prompt query) h) as [[t|e] es1];
      cbn [snd] in Hev; subst es1.
    - destruct (match_braces t); [destruct (JSON_parse w _)|];
        inversion E; subst; split; cbn; lia.
    - inversion E; subst; split; cbn; lia. }
  destruct H0 as [H0 H0s].
  destruct (printable qa) eqn:Hq.
  2: { rewrite (processQuery_unprintable w query userId fileId h qa es0 E Hq) in Hrun.
       inversion Hrun; subst r es. rewrite H0s.
       split; [lia|]. split; [lia|]. intros res Hr. discriminate. }
  rewrite (processQuery_run w query userId fileId h qa es0 E Hq) in Hrun. cbv zeta in Hrun.
  destruct (strict_eq_string (get_prop qa (lit "type")) (lit "broad")).
  - match type of Hrun with context [_handleBroadQuery w query userId fileId ?hh] =>
      destruct (_handleBroadQuery w query userId fileId hh) as [rb esb] eqn:Eb end.
    cbn [fst snd] in Hrun. inversion Hrun; subst r es.
    destruct (_handleBroadQuery_counts _ _ _ _ _ _ Eb) as (Hb & Hbs & _).
    change (es0 ++ ?x :: esb) with (es0 ++ [x] ++ esb).
    rewrite !llm_calls_app, !searches_app, H0s, Hbs. cbn. repeat split; lia.
  - match type of Hrun with context [_handleSpecificQuery w query userId fileId ?hh] =>
      destruct (_handleSpecificQuery w query userId fileId hh) as [rs ess] eqn:Es end.
    cbn [fst snd] in Hrun. inversion Hrun; subst r es.
    destruct (_handleSpecificQuery_counts _ _ _ _ _ _ Es) as (Hs1 & Hs2).
    pose proof (one_search_per_run w _ _ _ _ _ _ Es) as Hss.
    change (es0 ++ ?x :: ess) with (es0 ++ [x] ++ ess).
    rewrite !llm_calls_app, !searches_app, H0s, Hss. cbn. split; [lia|]. split; [lia|].
    intros res Hr Hn. specialize (Hs2 res Hr Hn). lia.
Qed.

(** X20. With the model not set, a run of the router asks nothing of the
    model, takes the specific path and searches with the query as the user
    wrote it. Its only result is the fallback; when the gate accepts the
    chunks it throws that the service is not available (or the error of the
    user lookup), and an error of the search is thrown as it is. *)
Theorem router_without_model (query userId : jsstring) (fileId : option jsstring)
    (h : trace) r es :
  model_set w = false ->
  processQuery w query userId fileId h = (r, es) ->
  llm_calls es = 0%nat
  /\ handler_entries es = [Specific]
  /\ (exists res,
        In (SearchDocuments query 5
              {| filter_userId := userId;
                 filter_fileId := if fileId_truthy fileId then fileId else None |}
              res) es)
  /\ match r with
     | Ok res => searchType res = rag_fallback
     | Throw e =>
         (exists q limit filters, In (SearchDocuments q limit filters (Throw e)) es)
         \/ In (UserFindById userId (Throw e)) es
         \/ e = lit "AI service is not available."
     end.
Proof.
  intros Hm Hrun.
  assert (E : determineQueryType w query h = (Ok (specific_because "AI disabled"), [])).
  { rewrite determineQueryType_run, Hm. reflexivity. }
  rewrite (processQuery_run w query userId fileId h _ _ E eq_refl) in Hrun.
  cbv zeta in Hrun.
  assert (Hsp : strict_eq_string (get_prop (specific_because "AI disabled") (lit "type"))
                  (lit "broad") = false) by (vm_compute; reflexivity).
  rewrite Hsp in Hrun.
  match type of Hrun with context [_handleSpecificQuery w query userId fileId ?hh] =>
    set (h1 := hh) in *;
    destruct (_handleSpecificQuery w query userId fileId h1) as [rs ess] eqn:Es end.
  cbn [fst snd app] in Hrun. inversion Hrun; subst r es; clear Hrun.
  destruct (_handleSpecificQuery_entries w _ _ _ _ _ _ Es) as [Hent _].
  destruct (_handleSpecificQuery_shape w query userId fileId h1 rs ess Es)
    as (cq0 & es_c & Ec & Hshape). cbv zeta in Hshape.
  rewrite correctAndClarifyQuery_run, Hm in Ec. cbn [negb] in Ec.
  inversion Ec; subst cq0 es_c; clear Ec.
  split; [|split; [exact Hent|]].
  - destruct Hshape as [(e' & -> & ->)|(chunks0 & lines & h' & es2 & -> & Hl & _ & Ha)];
      [reflexivity|].
    destruct (console_only_counts lines Hl) as [Hl1 _].
    assert (H2 : llm_calls es2 = 0%nat).
    { destruct (isContextSufficient chunks0) eqn:G.
      - rewrite (answer_run_exact w _ _ _ _ h' G) in Ha. cbv zeta in Ha.
        rewrite Hm in Ha. cbn [negb] in Ha.
        destruct (User_findById w _ userId); inversion Ha; reflexivity.
      - rewrite (fallback_run w _ _ _ _ h' G) in Ha. inversion Ha. reflexivity. }
    cbn [app]. unfold llm_calls in *. cbn [filter is_llm_call].
    rewrite filter_app, length_app, Hl1, H2. reflexivity.
  - destruct Hshape as [(e' & -> & ->)|(chunks0 & lines & h' & es2 & -> & Hl & _ & Ha)].
    + split.
      * eexists. cbn [app In]. repeat first [left; reflexivity | right].
      * left. eexists _, _, _. cbn [app In]. repeat first [left; reflexivity | right].
    + split; [eexists; cbn [app In]; repeat first [left; reflexivity | right]|].
      destruct (isContextSufficient chunks0) eqn:G.
      * rewrite (answer_run_exact w _ _ _ _ h' G) in Ha. cbv zeta in Ha.
        rewrite Hm in Ha. cbn [negb] in Ha.
        destruct (User_findById w _ userId) as [user|e]; inversion Ha; subst rs es2.
        -- right. right. reflexivity.
        -- right. left. cbn [app In]. do 5 right.
           apply in_or_app. right. right. left. reflexivity.
      * rewrite (fallback_run w _ _ _ _ h' G) in Ha. inversion Ha. reflexivity.
Qed.

(** X21. With the model not set, the broad handler still answers a query
    about a file whose text has at least 100 code units once trimmed: it asks
    nothing of the model and returns a result of search type [summary] whose
    message says that the service is unavailable. *)
Theorem summary_without_model (query userId : jsstring) (fileId : option jsstring)
    (h : trace) r es p fileContent :
  model_set w = false ->
  fileId_truthy fileId = true ->
  _handleBroadQuery w query userId fileId h = (r, es) ->
  In (ParseFile p (Ok fileContent)) es ->
  100 <= JS.length (trim fileContent) ->
  llm_calls es = 0%nat
  /\ exists file,
       In (FileFindOne (the_fileId fileId) userId (Ok (Some file))) es
       /\ r = Ok {| message := lit "AI service is unavailable.";
                    searchType := summary;
                    sources := [document_source (originalname file)];
                    source_count := None |}.
Proof.
  intros Hm Hf Hrun Hin Hlong.
  rewrite (_handleBroadQuery_run w query userId fileId h Hf) in Hrun. cbv zeta in Hrun.
  rewrite Hm in Hrun. cbn [negb] in Hrun.
  destruct (File_findOne w _ (the_fileId fileId) userId) as [[file|]|e].
  2, 3: (inversion Hrun; subst; sift Hin).
  destruct (documentProcessor_parseFile w _ (path file)) as [content0|e].
  2: (inversion Hrun; subst; sift Hin).
  assert (Hsame : fileContent = content0).
  { destruct (negb (truthy content0) || (JS.length (trim content0) <? 100));
      inversion Hrun; subst; sift Hin; inversion Hin; reflexivity. }
  subst content0.
  assert (Hc : negb (truthy fileContent) || (JS.length (trim fileContent) <? 100) = false).
  { apply orb_false_iff. split.
    - destruct fileContent; [|reflexivity]. cbn in Hlong. lia.
    - apply Z.ltb_ge. exact Hlong. }
  rewrite Hc in Hrun. inversion Hrun; subst. split; [reflexivity|].
  exists file. split; [right; left; reflexivity|reflexivity].
Qed.

(** X22. A query classified as broad, with a reason that the log line
    can print, for which no [fileId] is given (or an empty one) is
    answered at once: after the classification the router touches neither
    the files, nor the parser, nor the model, and returns search type
    [summary_requires_file] with no source. *)
Theorem broad_query_without_file (query userId : jsstring) (fileId : option jsstring)
    (h : trace) queryAnalysis es0 :
  determineQueryType w query h = (Ok queryAnalysis, es0) ->
  get_prop queryAnalysis (lit "type") = Some (JString (lit "broad")) ->
  interpolation_throws (get_prop queryAnalysis (lit "reason")) = false ->
  fileId_truthy fileId = false ->
  exists res,
    processQuery w query userId fileId h
    = (Ok res,
       es0 ++ [Console (LogClassified (get_prop queryAnalysis (lit "type"))
                                      (get_prop queryAnalysis (lit "reason")));
               Console LogHandlingBroad])
    /\ searchType res = summary_requires_file
    /\ sources res = [].
Proof.
  intros E Hb Hr Hf.
  assert (Hq : printable queryAnalysis = true).
  { unfold printable. rewrite Hb, Hr. reflexivity. }
  rewrite (processQuery_run w query userId fileId h _ _ E Hq). cbv zeta.
  rewrite (proj2 (strict_eq_string_iff _ _) Hb).
  match goal with |- context [_handleBroadQuery w query userId fileId ?hh] =>
    destruct (_handleBroadQuery_requires_file w query userId fileId hh Hf)
      as (res & Eb & Ht) end.
  rewrite Eb. cbn [fst snd]. exists res. split; [reflexivity|]. split; [exact Ht|].
  unfold _handleBroadQuery, bind, console in Eb. rewrite Hf in Eb. cbn in Eb.
  inversion Eb. reflexivity.
Qed.

End RoutingExtras.

(* ===================================================================== *)
(** ** More concrete runs                                                 *)
(* ===================================================================== *)

(** X1 at the processor as constructed and an eleven-unit text. *)
Lemma chunks_are_numbered_in_order_witness :
  0 < DocumentProcessor.chunkSize DocumentProcessor.new
  /\ 0 <= DocumentProcessor.chunkOverlap DocumentProcessor.new
  /\ truthy (trim (lit "hello world")) = true
  /\ exists starts out,
       window_starts 11 DocumentProcessor.new (lit "hello world") 0 = Some starts
       /\ DocumentProcessor.chunkText DocumentProcessor.new (lit "hello world") (lit "a.txt")
          = Some out
       /\ List.length out = List.length starts.
Proof.
  assert (H1 : 0 < DocumentProcessor.chunkSize DocumentProcessor.new) by reflexivity.
  assert (H2 : 0 <= DocumentProcessor.chunkOverlap DocumentProcessor.new) by (simpl; lia).
  assert (H3 : truthy (trim (lit "hello world")) = true) by reflexivity.
  split; [exact H1|split; [exact H2|split; [exact H3|]]].
  destruct (chunks_are_numbered_in_order DocumentProcessor.new (lit "hello world")
              (lit "a.txt") H1 H2 H3)
    as (starts & out & Ew & Ec & Hl & _).
  exists starts, out. auto.
Defined.

(** X2 at the processor as constructed and an eleven-unit text. *)
Lemma windows_cover_the_text_witness :
  0 < DocumentProcessor.chunkSize DocumentProcessor.new
  /\ 0 <= DocumentProcessor.chunkOverlap DocumentProcessor.new
  /\ exists starts,
       window_starts 11 DocumentProcessor.new (lit "hello world") 0 = Some starts
       /\ Forall (fun s => 0 <= s < 11) starts.
Proof.
  assert (H1 : 0 < DocumentProcessor.chunkSize DocumentProcessor.new) by reflexivity.
  assert (H2 : 0 <= DocumentProcessor.chunkOverlap DocumentProcessor.new) by (simpl; lia).
  split; [exact H1|split; [exact H2|]].
  destruct (windows_cover_the_text DocumentProcessor.new (lit "hello world") H1 H2)
    as (starts & Ew & Hr & _).
  exists starts. auto.
Defined.

(** X3 at the processor as constructed: no chunk of a text of 2000 letters
    has more than 30 + 5 + 512 code units. *)
Lemma chunk_content_is_bounded_witness :
  match DocumentProcessor.chunkText DocumentProcessor.new (repeat 97%N 2000) (lit "a.txt") with
  | Some out =>
      forall chunk, In chunk out -> JS.length (DocumentProcessor.pageContent chunk) <= 547
  | None => False
  end.
Proof.
  assert (H1 : 0 < DocumentProcessor.chunkSize DocumentProcessor.new) by reflexivity.
  assert (H2 : 0 <= DocumentProcessor.chunkOverlap DocumentProcessor.new) by (simpl; lia).
  destruct (DocumentProcessor.chunkText DocumentProcessor.new (repeat 97%N 2000) (lit "a.txt"))
    as [out|] eqn:E.
  - exact (chunk_content_is_bounded DocumentProcessor.new (repeat 97%N 2000) (lit "a.txt")
             out H1 H2 E).
  - vm_compute in E. discriminate E.
Defined.

(** X4 on three blanks, a tab and a line feed. *)
Lemma blank_text_gives_no_chunk_witness :
  Forall (fun c => is_whitespace c = true) [32%N; 32%N; 32%N; 9%N; 10%N]
  /\ DocumentProcessor.chunkText DocumentProcessor.new [32%N; 32%N; 32%N; 9%N; 10%N]
       (lit "a.txt") = Some [].
Proof.
  assert (H : Forall (fun c => is_whitespace c = true) [32%N; 32%N; 32%N; 9%N; 10%N])
    by (repeat constructor).
  split; [exact H|].
  exact (blank_text_gives_no_chunk DocumentProcessor.new _ (lit "a.txt") H).
Defined.

(** X5 with an overlap of 100 and 1000 iterations allowed. *)
Lemma zero_window_never_terminates_witness :
  0 <= 100
  /\ truthy (trim (lit "hello world")) = true
  /\ DocumentProcessor.chunkText_fuel 1000 (DocumentProcessor.mk 0 100)
       (lit "hello world") (lit "a.txt") = None.
Proof.
  assert (H1 : 0 <= 100) by lia.
  assert (H2 : truthy (trim (lit "hello world")) = true) by reflexivity.
  split; [exact H1|split; [exact H2|]].
  exact (zero_window_never_terminates 100 (lit "hello world") (lit "a.txt") H1 H2 1000%nat).
Defined.

(** X6 at the processor as constructed and 200 letters. *)
Lemma short_text_tail_is_chunked_twice_witness :
  let text := repeat 97%N 200 in
  truthy (trim text) = true
  /\ 0 < DocumentProcessor.chunkOverlap DocumentProcessor.new < JS.length text
  /\ JS.length text < DocumentProcessor.chunkSize DocumentProcessor.new
  /\ DocumentProcessor.chunkText DocumentProcessor.new text (lit "a.txt")
     = Some [ DocumentProcessor.make_chunk (lit "a.txt") text 0;
              DocumentProcessor.make_chunk (lit "a.txt")
                (skipn (Z.to_nat (JS.length text
                                  - DocumentProcessor.chunkOverlap DocumentProcessor.new))
                   text) 1 ].
Proof.
  cbv zeta.
  assert (H1 : truthy (trim (repeat 97%N 200)) = true) by (vm_compute; reflexivity).
  assert (H2 : 0 < DocumentProcessor.chunkOverlap DocumentProcessor.new
               < JS.length (repeat 97%N 200)) by (vm_compute; split; reflexivity).
  assert (H3 : JS.length (repeat 97%N 200)
               < DocumentProcessor.chunkSize DocumentProcessor.new)
    by (vm_compute; reflexivity).
  split; [exact H1|split; [exact H2|split; [exact H3|]]].
  exact (short_text_tail_is_chunked_twice DocumentProcessor.new (repeat 97%N 200)
           (lit "a.txt") H1 H2 H3).
Defined.

(** X7 on a PDF whose reader throws and on a text file of three blanks. *)
Lemma blank_file_is_not_indexed_witness :
  Ingestion.extraction_failed Script.readers (lit "uploads/broken.pdf")
  /\ Forall (fun c => is_whitespace c = true)
       (Ingestion.parseFile Script.readers (lit "uploads/blank.txt"))
  /\ (exists message,
        Ingestion.processFile DocumentProcessor.new
          (Ok (Ingestion.parseFile Script.readers (lit "uploads/broken.pdf")))
          (fun docs => Ok (array_length docs))
          (Ingestion.mkOptions (lit "broken.pdf") (lit "u1") (lit "f1"))
        = Some (Ok {| Ingestion.success := true; Ingestion.chunksAdded := 0;
                      Ingestion.note := Some message |}, None))
  /\ (exists message,
        Ingestion.processFile DocumentProcessor.new
          (Ok (Ingestion.parseFile Script.readers (lit "uploads/blank.txt")))
          (fun docs => Ok (array_length docs))
          (Ingestion.mkOptions (lit "blank.txt") (lit "u1") (lit "f2"))
        = Some (Ok {| Ingestion.success := true; Ingestion.chunksAdded := 0;
                      Ingestion.note := Some message |}, None)).
Proof.
  assert (H1 : Ingestion.extraction_failed Script.readers (lit "uploads/broken.pdf")).
  { right. left. split; [reflexivity|]. eexists. reflexivity. }
  assert (H2 : Forall (fun c => is_whitespace c = true)
                 (Ingestion.parseFile Script.readers (lit "uploads/blank.txt"))).
  { vm_compute. repeat constructor. }
  split; [exact H1|]. split; [exact H2|]. split.
  - exact (blank_file_is_not_indexed DocumentProcessor.new Script.readers
             (lit "uploads/broken.pdf") (fun docs => Ok (array_length docs))
             (Ingestion.mkOptions (lit "broken.pdf") (lit "u1") (lit "f1"))
             (or_introl H1)).
  - exact (blank_file_is_not_indexed DocumentProcessor.new Script.readers
             (lit "uploads/blank.txt") (fun docs => Ok (array_length docs))
             (Ingestion.mkOptions (lit "blank.txt") (lit "u1") (lit "f2"))
             (or_intror H2)).
Defined.

(** X8 at the processor as constructed, a store that accepts everything
    and an eleven-unit text. *)
Lemma indexed_documents_are_tagged_witness :
  0 < DocumentProcessor.chunkSize DocumentProcessor.new
  /\ 0 <= DocumentProcessor.chunkOverlap DocumentProcessor.new
  /\ truthy (trim (lit "hello world")) = true
  /\ exists docs outcome,
       Ingestion.processFile DocumentProcessor.new (Ok (lit "hello world"))
         (fun docs => Ok (array_length docs))
         (Ingestion.mkOptions (lit "a.txt") (lit "u1") (lit "f1"))
       = Some (outcome, Some docs)
       /\ Forall (fun d => Ingestion.doc_userId d = lit "u1") docs.
Proof.
  assert (H1 : 0 < DocumentProcessor.chunkSize DocumentProcessor.new) by reflexivity.
  assert (H2 : 0 <= DocumentProcessor.chunkOverlap DocumentProcessor.new) by (simpl; lia).
  assert (H3 : truthy (trim (lit "hello world")) = true) by reflexivity.
  split; [exact H1|split; [exact H2|split; [exact H3|]]].
  destruct (indexed_documents_are_tagged DocumentProcessor.new
              (fun docs => Ok (array_length docs))
              (Ingestion.mkOptions (lit "a.txt") (lit "u1") (lit "f1"))
              (lit "hello world") H1 H2 H3)
    as (chunks & docs & _ & Ep & _ & _ & _ & Htag).
  exists docs. eexists. split; [exact Ep|].
  eapply Forall_impl; [|exact Htag]. cbn. intros d Hd. exact (proj1 Hd).
Defined.

(** X13 with one memory added in the first record and one updated in the
    second. *)
Lemma notice_ignores_what_changed_witness :
  SystemPrompt.has_items (Some [JString (lit "likes tea")]) || SystemPrompt.has_items None = true
  /\ SystemPrompt.has_items None || SystemPrompt.has_items (Some [JNull]) = true
  /\ SystemPrompt.buildSystemPrompt (fun _ => lit "[]") [] [] [] [] []
       (Some (SystemPrompt.mkChanges (Some [JString (lit "likes tea")]) None None None))
     = SystemPrompt.buildSystemPrompt (fun _ => lit "[]") [] [] [] [] []
         (Some (SystemPrompt.mkChanges None (Some [JNull]) None None)).
Proof.
  assert (H1 : SystemPrompt.has_items (Some [JString (lit "likes tea")])
               || SystemPrompt.has_items None = true) by reflexivity.
  assert (H2 : SystemPrompt.has_items None || SystemPrompt.has_items (Some [JNull]) = true)
    by reflexivity.
  split; [exact H1|split; [exact H2|]].
  exact (proj1 (notice_ignores_what_changed (fun _ => lit "[]") [] [] [] [] []
                  (Some [JString (lit "likes tea")]) None None (Some [JNull]) None None
                  H1 H2)).
Defined.

(** X14 on a run: the model is not set and the index is offline. *)
Lemma retriever_error_propagates_witness :
  let w := Script.world false [] (Ok None) (Ok []) (Throw (lit "index offline")) (Ok None) in
  let run := HybridRagService._handleSpecificQuery w (lit "schema") (lit "u1") None [] in
  In (SearchDocuments (lit "schema") 5
        {| filter_userId := lit "u1"; filter_fileId := None |}
        (Throw (lit "index offline"))) (snd run)
  /\ fst run = Throw (lit "index offline").
Proof.
  cbv zeta.
  set (w := Script.world false [] (Ok None) (Ok []) (Throw (lit "index offline")) (Ok None)).
  set (run := HybridRagService._handleSpecificQuery w (lit "schema") (lit "u1") None []).
  assert (Hin : In (SearchDocuments (lit "schema") 5
                      {| filter_userId := lit "u1"; filter_fileId := None |}
                      (Throw (lit "index offline"))) (snd run))
    by (vm_compute; repeat (first [left; reflexivity | right])).
  split; [exact Hin|].
  exact (proj1 (retriever_error_propagates w (lit "schema") (lit "u1") None []
                  (fst run) (snd run) _ _ _ _ (surjective_pairing run) Hin)).
Defined.

(** X15 on a run scoped to a file. *)
Lemma search_is_scoped_to_the_user_witness :
  let w := Scenario.world true (lit "database schema") (Ok None) [Scenario.weak_chunk] in
  let run := HybridRagService._handleSpecificQuery w (lit "databse schema") (lit "u1")
               (Some (lit "f1")) [] in
  searches (snd run) = 1%nat.
Proof.
  cbv zeta.
  exact (proj1 (search_is_scoped_to_the_user
                  (Scenario.world true (lit "database schema") (Ok None)
                     [Scenario.weak_chunk])
                  (lit "databse schema") (lit "u1") (Some (lit "f1")) [] _ _
                  (surjective_pairing _))).
Defined.

(** X17 on a run: one chunk with score 0.9, no user profile. *)
Lemma answer_is_grounded_in_the_chunks_witness :
  let w := Scenario.world true (lit "database schema") (Ok None)
             [Scenario.confident_chunk] in
  let run := HybridRagService._handleSpecificQuery w (lit "databse schema") (lit "u1")
               None [] in
  In (SearchDocuments (lit "database schema") 5
        {| filter_userId := lit "u1"; filter_fileId := None |}
        (Ok [Scenario.confident_chunk])) (snd run)
  /\ HybridRagService.isContextSufficient [Scenario.confident_chunk] = true
  /\ exists user_res, In (UserFindById (lit "u1") user_res) (snd run).
Proof.
  cbv zeta.
  set (w := Scenario.world true (lit "database schema") (Ok None)
              [Scenario.confident_chunk]).
  set (run := HybridRagService._handleSpecificQuery w (lit "databse schema") (lit "u1")
                None []).
  assert (Hin : In (SearchDocuments (lit "database schema") 5
                      {| filter_userId := lit "u1"; filter_fileId := None |}
                      (Ok [Scenario.confident_chunk])) (snd run))
    by (vm_compute; repeat (first [left; reflexivity | right])).
  assert (Hgate : HybridRagService.isContextSufficient [Scenario.confident_chunk] = true)
    by reflexivity.
  split; [exact Hin|split; [exact Hgate|]].
  destruct (answer_is_grounded_in_the_chunks w (lit "databse schema") (lit "u1") None []
              (fst run) (snd run) _ _ _ _ (surjective_pairing run) Hin Hgate)
    as (user_res & Hu & _).
  exists user_res. exact Hu.
Defined.

(** X18 on a run: the file holds five letters. *)
Lemma thin_document_is_not_summarized_witness :
  let w := Script.world true (lit "a summary") (Ok (Some Script.report)) (Ok (lit "short"))
             (Ok []) (Ok None) in
  let run := HybridRagService._handleBroadQuery w (lit "summarize this") (lit "u1")
               (Some (lit "f1")) [] in
  HybridRagService.fileId_truthy (Some (lit "f1")) = true
  /\ In (ParseFile (path Script.report) (Ok (lit "short"))) (snd run)
  /\ JS.length (trim (lit "short")) < 100
  /\ llm_calls (snd run) = 0%nat.
Proof.
  cbv zeta.
  set (w := Script.world true (lit "a summary") (Ok (Some Script.report))
              (Ok (lit "short")) (Ok []) (Ok None)).
  set (run := HybridRagService._handleBroadQuery w (lit "summarize this") (lit "u1")
                (Some (lit "f1")) []).
  assert (Hf : HybridRagService.fileId_truthy (Some (lit "f1")) = true) by reflexivity.
  assert (Hin : In (ParseFile (path Script.report) (Ok (lit "short"))) (snd run))
    by (vm_compute; repeat (first [left; reflexivity | right])).
  assert (Hthin : JS.length (trim (lit "short")) < 100) by reflexivity.
  split; [exact Hf|split; [exact Hin|split; [exact Hthin|]]].
  exact (proj1 (thin_document_is_not_summarized w (lit "summarize this") (lit "u1")
                  (Some (lit "f1")) [] (fst run) (snd run) _ _ Hf
                  (surjective_pairing run) Hin Hthin)).
Defined.

(** X19 on a run that ends in a RAG answer. *)
Lemma router_cost_is_bounded_witness :
  let w := Scenario.world true (lit "database schema") (Ok None)
             [Scenario.confident_chunk] in
  let run := HybridRagService.processQuery w (lit "databse schema") (lit "u1") None [] in
  (llm_calls (snd run) <= 3)%nat /\ (searches (snd run) <= 1)%nat.
Proof.
  cbv zeta.
  destruct (router_cost_is_bounded
              (Scenario.world true (lit "database schema") (Ok None)
                 [Scenario.confident_chunk])
              (lit "databse schema") (lit "u1") None [] _ _ (surjective_pairing _))
    as (H1 & H2 & _).
  split; [exact H1|exact H2].
Defined.

(** X20 on a run: the model is not set, the search finds a good chunk. *)
Lemma router_without_model_witness :
  let w := Script.world false [] (Ok None) (Ok []) (Ok [Scenario.confident_chunk])
             (Ok None) in
  let run := HybridRagService.processQuery w (lit "schema") (lit "u1") None [] in
  model_set w = false
  /\ llm_calls (snd run) = 0%nat
  /\ handler_entries (snd run) = [Specific].
Proof.
  cbv zeta.
  set (w := Script.world false [] (Ok None) (Ok []) (Ok [Scenario.confident_chunk])
              (Ok None)).
  assert (Hm : model_set w = false) by reflexivity.
  split; [exact Hm|].
  destruct (router_without_model w (lit "schema") (lit "u1") None [] _ _ Hm
              (surjective_pairing _))
    as (H1 & H2 & _).
  split; [exact H1|exact H2].
Defined.

(** X21 on a run: the model is not set, the file holds 120 letters. *)
Lemma summary_without_model_witness :
  let w := Script.world false [] (Ok (Some Script.report)) (Ok (repeat 97%N 120))
             (Ok []) (Ok None) in
  let run := HybridRagService._handleBroadQuery w (lit "summarize this") (lit "u1")
               (Some (lit "f1")) [] in
  model_set w = false
  /\ HybridRagService.fileId_truthy (Some (lit "f1")) = true
  /\ In (ParseFile (path Script.report) (Ok (repeat 97%N 120))) (snd run)
  /\ 100 <= JS.length (trim (repeat 97%N 120))
  /\ llm_calls (snd run) = 0%nat.
Proof.
  cbv zeta.
  set (w := Script.world false [] (Ok (Some Script.report)) (Ok (repeat 97%N 120))
              (Ok []) (Ok None)).
  set (run := HybridRagService._handleBroadQuery w (lit "summarize this") (lit "u1")
                (Some (lit "f1")) []).
  assert (Hm : model_set w = false) by reflexivity.
  assert (Hf : HybridRagService.fileId_truthy (Some (lit "f1")) = true) by reflexivity.
  assert (Hin : In (ParseFile (path Script.report) (Ok (repeat 97%N 120))) (snd run))
    by (vm_compute; repeat (first [left; reflexivity | right])).
  assert (Hlong : 100 <= JS.length (trim (repeat 97%N 120)))
    by (vm_compute; discriminate).
  split; [exact Hm|split; [exact Hf|split; [exact Hin|split; [exact Hlong|]]]].
  exact (proj1 (summary_without_model w (lit "summarize this") (lit "u1")
                  (Some (lit "f1")) [] (fst run) (snd run) _ _ Hm Hf
                  (surjective_pairing run) Hin Hlong)).
Defined.

(** X22 on a run: the model answers that the query is broad, no file is
    selected. *)
Lemma broad_query_without_file_witness :
  let w := Scenario.world true Scenario.broad_json (Ok None) [] in
  HybridRagService.fileId_truthy None = false
  /\ interpolation_throws (Some (JString (lit "asks for an overview"))) = false
  /\ exists res es,
       HybridRagService.processQuery w (lit "summarize this") (lit "u1") None []
       = (Ok res, es)
       /\ searchType res = summary_requires_file.
Proof.
  cbv zeta.
  set (w := Scenario.world true Scenario.broad_json (Ok None) []).
  assert (Hf : HybridRagService.fileId_truthy None = false) by reflexivity.
  split; [exact Hf|]. split; [reflexivity|].
  assert (E : GeminiAI.determineQueryType w (lit "summarize this") []
              = (Ok [ (lit "type", JString (lit "broad"));
                      (lit "reason", JString (lit "asks for an overview")) ],
                 [ GenerateContent (GeminiAI.classification_prompt (lit "summarize this"))
                     (Ok (Scenario.stop_response Scenario.broad_json)) ]))
    by (vm_compute; reflexivity).
  assert (Hb : get_prop [ (lit "type", JString (lit "broad"));
                          (lit "reason", JString (lit "asks for an overview")) ]
                 (lit "type") = Some (JString (lit "broad"))) by reflexivity.
  assert (Hr : interpolation_throws
                 (get_prop [ (lit "type", JString (lit "broad"));
                             (lit "reason", JString (lit "asks for an overview")) ]
                    (lit "reason")) = false) by reflexivity.
  destruct (broad_query_without_file w (lit "summarize this") (lit "u1") None [] _ _
              E Hb Hr Hf)
    as (res & Ep & Ht & _).
  exists res. eexists. split; [exact Ep|exact Ht].
Defined.
